(** * Access control core of the CUPS scheduler (scheduler/auth.c)

    A shallow embedding of the authorization routines of the scheduler:
    the location table and [cupsdFindBest], the allow/deny mask matcher
    [cupsdCheckAuth], the digest password file reader [cupsdGetMD5Passwd],
    the group resolver [cupsdCheckGroup] and the top-level decision
    function [cupsdIsAuthorized], followed by the properties of the
    specification that are stated about them.

    Conventions.
    - A C string is a [string]: the bytes before the terminating NUL.
    - C [int]s and [unsigned]s are [Z]; no arithmetic of auth.c can
      overflow on the values it handles (lengths of bounded buffers), the
      32-bit address words are kept in [0, 2^32) by their producers.
    - Calls into the operating system are recorded, most recent first, in
      the [calls] field of the [world] that the functions thread through. *)

From Stdlib Require Import ZArith List Bool Ascii String Lia.
Import ListNotations.

Open Scope string_scope.
Open Scope list_scope.
Open Scope Z_scope.

(* ================================================================== *)
(** * C library string functions *)
(* ================================================================== *)

(** [tolower] in the C locale. *)
Definition tolower (c : ascii) : ascii :=
  if (("A" <=? c) && (c <=? "Z"))%char
  then ascii_of_N (N_of_ascii c + 32)
  else c.

Fixpoint lower (s : string) : string :=
  match s with
  | EmptyString => EmptyString
  | String c r => String (tolower c) (lower r)
  end.

(** Sign of the comparison of two bytes, as unsigned chars. *)
Definition char_cmp (c1 c2 : ascii) : Z :=
  match Ascii.compare c1 c2 with
  | Eq => 0
  | Lt => -1
  | Gt => 1
  end.

(** [strcmp]: the sign of the first difference; the end of a string is
    its NUL terminator, smaller than every byte of a string. *)
Fixpoint strcmp (s1 s2 : string) : Z :=
  match s1, s2 with
  | EmptyString, EmptyString => 0
  | EmptyString, String _ _ => -1
  | String _ _, EmptyString => 1
  | String c1 r1, String c2 r2 =>
      if (c1 =? c2)%char then strcmp r1 r2 else char_cmp c1 c2
  end.

(** [strncmp]: at most [n] bytes are compared. *)
Fixpoint strncmp (s1 s2 : string) (n : nat) {struct n} : Z :=
  match n with
  | O => 0
  | S n' =>
      match s1, s2 with
      | EmptyString, EmptyString => 0
      | EmptyString, String _ _ => -1
      | String _ _, EmptyString => 1
      | String c1 r1, String c2 r2 =>
          if (c1 =? c2)%char then strncmp r1 r2 n' else char_cmp c1 c2
      end
  end.

(** [strcasecmp] and [strncasecmp] compare the lower-cased bytes. *)
Definition strcasecmp (s1 s2 : string) : Z :=
  strcmp (lower s1) (lower s2).

Definition strncasecmp (s1 s2 : string) (n : nat) : Z :=
  strncmp (lower s1) (lower s2) n.

(** [s + n]: the string that starts [n] bytes into [s]. *)
Fixpoint str_from (n : nat) (s : string) : string :=
  match n, s with
  | O, _ => s
  | S n', String _ r => str_from n' r
  | S _, EmptyString => EmptyString
  end.

(** The first [n] bytes of [s] (what remains after [s[n] = '\0']). *)
Fixpoint str_take (n : nat) (s : string) : string :=
  match n, s with
  | S n', String c r => String c (str_take n' r)
  | _, _ => EmptyString
  end.

(** [strlcpy(dst, src, size)]: [dst] receives at most [size - 1] bytes. *)
Definition strlcpy (src : string) (size : nat) : string :=
  str_take (size - 1) src.

(** [s[0]], NUL for the empty string. *)
Definition first_char (s : string) : ascii :=
  match s with
  | EmptyString => zero
  | String c _ => c
  end.

(** [isspace] in the C locale. *)
Definition isspace (c : ascii) : bool :=
  let n := N_of_ascii c in
  ((9 <=? n) && (n <=? 13) || (n =? 32))%N.

(* ================================================================== *)
(** * Constants of the headers *)
(* ================================================================== *)

(** Modelled from the spec: scheduler/auth.h and cups/http.h are not part
    of the sources at hand.  The values of the order, satisfy, type and
    level constants are the ones the log tables of [cupsdIsAuthorized]
    index with ([auth ? "DENY" : "ALLOW"], [satisfy ? "ANY" : "ALL"],
    [levels[]], [types[]]); the request limits are the bit set of the
    specification, [AUTH_LIMIT_ALL] being the union of the HTTP verbs. *)
Definition AUTH_ALLOW : Z := 0.
Definition AUTH_DENY : Z := 1.

Definition AUTH_SATISFY_ALL : Z := 0.
Definition AUTH_SATISFY_ANY : Z := 1.

Definition AUTH_NONE : Z := 0.
Definition AUTH_BASIC : Z := 1.
Definition AUTH_DIGEST : Z := 2.
Definition AUTH_BASICDIGEST : Z := 3.

Definition AUTH_ANON : Z := 0.
Definition AUTH_USER : Z := 1.
Definition AUTH_GROUP : Z := 2.

Definition AUTH_LIMIT_DELETE : Z := 1.
Definition AUTH_LIMIT_GET : Z := 2.
Definition AUTH_LIMIT_HEAD : Z := 4.
Definition AUTH_LIMIT_OPTIONS : Z := 8.
Definition AUTH_LIMIT_POST : Z := 16.
Definition AUTH_LIMIT_PUT : Z := 32.
Definition AUTH_LIMIT_TRACE : Z := 64.
Definition AUTH_LIMIT_ALL : Z := 127.
Definition AUTH_LIMIT_IPP : Z := 128.

Definition HTTP_ENCRYPT_IF_REQUESTED : Z := 0.
Definition HTTP_ENCRYPT_NEVER : Z := 1.
Definition HTTP_ENCRYPT_REQUIRED : Z := 2.
Definition HTTP_ENCRYPT_ALWAYS : Z := 3.

(** The success code of the PAM library. *)
Definition PAM_SUCCESS : Z := 0.

(** [http_state_t], in the order of the [limits] and [states] tables. *)
Inductive http_state_t : Type :=
| HTTP_WAITING
| HTTP_OPTIONS
| HTTP_GET
| HTTP_GET_SEND
| HTTP_HEAD
| HTTP_POST
| HTTP_POST_RECV
| HTTP_POST_SEND
| HTTP_PUT
| HTTP_PUT_RECV
| HTTP_DELETE
| HTTP_TRACE
| HTTP_CLOSE
| HTTP_STATUS.

(** [http_status_t], the values [cupsdIsAuthorized] returns. *)
Inductive http_status_t : Type :=
| HTTP_OK
| HTTP_UNAUTHORIZED
| HTTP_FORBIDDEN
| HTTP_UPGRADE_REQUIRED.

(* ================================================================== *)
(** * Data model *)
(* ================================================================== *)

(** Four 32-bit words: an IPv6 address, or an IPv4 address in the last
    word. *)
Definition word4 : Type := (Z * Z * Z * Z)%type.

(** [cupsd_authmask_t]: the [type] tag and the union it selects. *)
Inductive cupsd_authmask_t : Type :=
| AUTH_NAME (name : string) (length : Z)
| AUTH_IP (address netmask : word4)
| AUTH_INTERFACE (name : string) (length : Z).

(** [cupsd_location_t].  [names], [allow] and [deny] stand for the
    arrays together with their counts [num_names], [num_allow] and
    [num_deny]. *)
Record cupsd_location_t : Type := {
  location : string;
  op : Z;
  limit : Z;
  length : Z;
  order_type : Z;
  type : Z;
  level : Z;
  satisfy : Z;
  names : list string;
  allow : list cupsd_authmask_t;
  deny : list cupsd_authmask_t;
  encryption : Z
}.

Definition num_names (loc : cupsd_location_t) : Z :=
  Z.of_nat (List.length (names loc)).

(** What depends on the build: the sizes of the buffers, the address
    families of the platform, its byte order and the [#if]s of auth.c. *)
Inductive os_auth_t : Type :=
| LIBPAM
| USERSEC
| UNIX_PASSWD (have_shadow : bool).

Record build_t : Type := {
  HTTP_MAX_URI : nat;
  AF_INET : Z;
  AF_INET6 : option Z;
  big_endian : bool;
  HAVE_SSL : bool;
  os_auth : os_auth_t
}.

(** The invariant of the table: [length] is the length of [location]
    ([cupsdAddLocation] is the only writer of both). *)
Definition loc_wf (loc : cupsd_location_t) : Prop :=
  length loc = Z.of_nat (String.length (location loc)).

(* ================================================================== *)
(** * The location table *)
(* ================================================================== *)

(** [cupsdAddLocation]: without memory for one more record ([mem]), NULL
    is returned and the table holds what it held; otherwise the table
    grows by one cleared record that holds the (possibly truncated) path
    and its length, and the new record is returned with the table. *)
Definition cupsdAddLocation (b : build_t) (mem : bool)
    (Locations : list cupsd_location_t) (loc_path : string)
  : list cupsd_location_t * option cupsd_location_t :=
  if negb mem then (Locations, None)
  else
    let path := strlcpy loc_path (HTTP_MAX_URI b) in
    let temp := {| location := path;
                   op := 0;
                   limit := 0;
                   length := Z.of_nat (String.length path);
                   order_type := 0;
                   type := 0;
                   level := 0;
                   satisfy := 0;
                   names := [];
                   allow := [];
                   deny := [];
                   encryption := 0 |} in
    (Locations ++ [temp], Some temp).

(** The [limits] table of [cupsdFindBest]. *)
Definition limits (state : http_state_t) : Z :=
  match state with
  | HTTP_WAITING => AUTH_LIMIT_ALL
  | HTTP_OPTIONS => AUTH_LIMIT_OPTIONS
  | HTTP_GET => AUTH_LIMIT_GET
  | HTTP_GET_SEND => AUTH_LIMIT_GET
  | HTTP_HEAD => AUTH_LIMIT_HEAD
  | HTTP_POST => AUTH_LIMIT_POST
  | HTTP_POST_RECV => AUTH_LIMIT_POST
  | HTTP_POST_SEND => AUTH_LIMIT_POST
  | HTTP_PUT => AUTH_LIMIT_PUT
  | HTTP_PUT_RECV => AUTH_LIMIT_PUT
  | HTTP_DELETE => AUTH_LIMIT_DELETE
  | HTTP_TRACE => AUTH_LIMIT_TRACE
  | HTTP_CLOSE => AUTH_LIMIT_ALL
  | HTTP_STATUS => AUTH_LIMIT_ALL
  end.

(** The test both parts of [cupsdFindBest] make on the URI. *)
Definition queue_uri (uri : string) : bool :=
  (strncmp uri "/printers/" 10 =? 0) || (strncmp uri "/classes/" 9 =? 0).

(** The URI [cupsdFindBest] works on: the path copied to the local
    buffer, without a [.ppd] extension under /printers/ and /classes/. *)
Definition find_best_uri (b : build_t) (path : string) : string :=
  let uri := strlcpy path (HTTP_MAX_URI b) in
  if queue_uri uri then
    let uriptr := (String.length uri - 4)%nat in
    if strcmp (str_from uriptr uri) ".ppd" =? 0
    then str_take uriptr uri
    else uri
  else uri.

(** One turn of the loop over the locations, on [(best, bestlen)]. *)
Definition find_best_step (uri : string) (lim : Z)
    (acc : option cupsd_location_t * Z) (loc : cupsd_location_t)
  : option cupsd_location_t * Z :=
  let '(best, bestlen) := acc in
  if queue_uri uri then
    if (length loc >? bestlen)
       && (strncasecmp uri (location loc) (Z.to_nat (length loc)) =? 0)
       && (first_char (location loc) =? "/")%char
       && negb (Z.land lim (limit loc) =? 0)
    then (Some loc, length loc)
    else acc
  else
    if (length loc >? bestlen)
       && (strncmp uri (location loc) (Z.to_nat (length loc)) =? 0)
       && (first_char (location loc) =? "/")%char
       && negb (Z.land lim (limit loc) =? 0)
    then (Some loc, length loc)
    else acc.

(** The loop of [cupsdFindBest] on a URI. *)
Definition find_best_loop (Locations : list cupsd_location_t)
    (uri : string) (lim : Z) : option cupsd_location_t :=
  fst (fold_left (find_best_step uri lim) Locations (None, 0)).

(** [cupsdFindBest]: the location entry that best matches the resource. *)
Definition cupsdFindBest (b : build_t) (Locations : list cupsd_location_t)
    (path : string) (state : http_state_t) : option cupsd_location_t :=
  find_best_loop Locations (find_best_uri b path) (limits state).

(* ================================================================== *)
(** * The system around the scheduler *)
(* ================================================================== *)

(** [http_addr_t]: the address family and the two views of the union
    that auth.c reads (the overlap of the views is not modelled; the
    code reads the view its family test selects). *)
Record http_addr_t : Type := {
  sa_family : Z;
  ipv4_s_addr : Z;
  ipv6_s6_addr32 : word4
}.

(** [cupsd_netif_t], an entry of the interface list. *)
Record cupsd_netif_t : Type := {
  if_name : string;
  is_local : Z;
  address : http_addr_t;
  mask : http_addr_t
}.

(** [struct passwd], [struct group] and [struct spwd]. *)
Record passwd : Type := {
  pw_name : string;
  pw_passwd : string;
  pw_gid : Z
}.

Record group : Type := {
  gr_name : string;
  gr_gid : Z;
  gr_mem : list string
}.

Record spwd : Type := {
  sp_namp : string;
  sp_pwdp : string
}.

(** An attribute of an IPP request, and the request. *)
Record ipp_attribute_t : Type := {
  attr_name : string;
  value_tag : Z;
  values : list string
}.

Definition ipp_t : Type := list ipp_attribute_t.

(** Modelled from the spec: the tag of a name value in cups/ipp.h, which
    is not part of the sources at hand; [cupsdIsAuthorized] only passes
    it on to [ippFindAttribute]. *)
Definition IPP_TAG_NAME : Z := 66.

(** The globals of the scheduler that auth.c reads, and the functions of
    the C library, of libcups and of the rest of the scheduler that it
    calls, taken as they answer. [cupsFile name] is what
    [cupsFileOpen(name, "r")] finds: nothing, or the lines that the
    successive calls of [cupsFileGets] return. [md5_digest] is
    [_cups_md5_init], [_cups_md5_append]... and [_cups_md5_finish] on the
    bytes appended. *)
Record system_t : Type := {
  ServerName : string;
  ServerRoot : string;
  DefaultAuthType : Z;
  SystemGroups : list string;
  getpwnam : string -> option passwd;
  getgrnam : string -> option group;
  getspnam : string -> option spwd;
  cupsFile : string -> option (list string);
  pam_start : string -> string -> Z;
  pam_authenticate : string -> string -> Z;
  pam_acct_mgmt : string -> Z;
  authenticate : string -> string -> Z;
  crypt : string -> string -> option string;
  md5_digest : string -> string;
  cupsdNetIFUpdate : list cupsd_netif_t -> list cupsd_netif_t;
  NetIFFind : string -> list cupsd_netif_t ->
              option cupsd_netif_t * list cupsd_netif_t;
  httpGetSubField : string -> string -> option string;
  httpMD5 : string -> string -> string -> string;
  httpMD5Final : string -> string -> string -> string -> string;
  ippFindAttribute : option ipp_t -> string -> Z -> option ipp_attribute_t
}.

(** The calls that leave the scheduler. *)
Inductive os_call : Type :=
| call_NetIFUpdate
| call_NetIFFind (name : string)
| call_getpwnam (name : string)
| call_getgrnam (name : string)
| call_getspnam (name : string)
| call_pam_start (service user : string)
| call_pam_authenticate
| call_pam_acct_mgmt
| call_pam_end
| call_authenticate (user : string)
| call_cupsFileOpen (filename : string).

(** What a call of auth.c can change: the interface list, and the calls
    made so far (most recent first). *)
Record world : Type := {
  NetIFList : list cupsd_netif_t;
  calls : list os_call
}.

(** The state monad over [world]. *)
Definition M (A : Type) : Type := world -> A * world.

Definition ret {A : Type} (a : A) : M A := fun w => (a, w).

Definition bind {A B : Type} (m : M A) (k : A -> M B) : M B :=
  fun w => let (a, w') := m w in k a w'.

Notation "x <- m ;; k" := (bind m (fun x => k))
  (at level 61, m at next level, right associativity).

Definition record_call (c : os_call) : M unit :=
  fun w => (tt, {| NetIFList := NetIFList w; calls := c :: calls w |}).

(** The client connection, [cupsd_client_t], as far as auth.c reads it. *)
Record cupsd_client_t : Type := {
  http_hostname : string;
  http_hostaddr : http_addr_t;
  http_state : http_state_t;
  http_fields_authorization : string;
  http_tls : bool;
  request : option ipp_t;
  uri : string;
  username : string;
  password : string;
  best : option cupsd_location_t
}.

(* ================================================================== *)
(** * Byte order *)
(* ================================================================== *)

Definition bswap32 (x : Z) : Z :=
  Z.lor (Z.shiftl (Z.land x 255) 24)
    (Z.lor (Z.shiftl (Z.land (Z.shiftr x 8) 255) 16)
       (Z.lor (Z.shiftl (Z.land (Z.shiftr x 16) 255) 8)
          (Z.land (Z.shiftr x 24) 255))).

Definition htonl (b : build_t) (x : Z) : Z :=
  if big_endian b then x else bswap32 x.

Definition ntohl (b : build_t) (x : Z) : Z :=
  if big_endian b then x else bswap32 x.

(* ================================================================== *)
(** * cupsdCheckAuth *)
(* ================================================================== *)

Section CheckAuth.

Variable b : build_t.
Variable sys : system_t.

(** The comparison of the client address with one interface. *)
Definition netif_match (netip4 : Z) (netip6 : word4)
    (iface : cupsd_netif_t) : bool :=
  if sa_family (address iface) =? AF_INET b then
    Z.land netip4 (ipv4_s_addr (mask iface))
    =? Z.land (ipv4_s_addr (address iface)) (ipv4_s_addr (mask iface))
  else
    match AF_INET6 b with
    | Some _ =>
        let '(n0, n1, n2, n3) := netip6 in
        let '(a0, a1, a2, a3) := ipv6_s6_addr32 (address iface) in
        let '(m0, m1, m2, m3) := ipv6_s6_addr32 (mask iface) in
        (Z.land n0 m0 =? Z.land a0 m0)
        && (Z.land n1 m1 =? Z.land a1 m1)
        && (Z.land n2 m2 =? Z.land a2 m2)
        && (Z.land n3 m3 =? Z.land a3 m3)
    | None => false
    end.

(** The loop over [NetIFList] for the interface ["*"]. *)
Fixpoint check_local_netifs (netip4 : Z) (netip6 : word4)
    (ifaces : list cupsd_netif_t) : bool :=
  match ifaces with
  | [] => false
  | iface :: rest =>
      if is_local iface =? 0 then check_local_netifs netip4 netip6 rest
      else if netif_match netip4 netip6 iface then true
      else check_local_netifs netip4 netip6 rest
  end.

Definition do_NetIFUpdate : M unit :=
  fun w => (tt, {| NetIFList := cupsdNetIFUpdate sys (NetIFList w);
                   calls := call_NetIFUpdate :: calls w |}).

Definition do_NetIFFind (ifname : string) : M (option cupsd_netif_t) :=
  fun w => let (r, l) := NetIFFind sys ifname (NetIFList w) in
           (r, {| NetIFList := l; calls := call_NetIFFind ifname :: calls w |}).

(** One mask against the client: [true] where the C code returns 1. *)
Definition check_mask (ip : word4) (hostname : string) (name_len : Z)
    (m : cupsd_authmask_t) : M bool :=
  match m with
  | AUTH_INTERFACE mname _ =>
      let '(ip0, ip1, ip2, ip3) := ip in
      let netip4 := htonl b ip3 in
      let netip6 := (htonl b ip0, htonl b ip1, htonl b ip2, htonl b ip3) in
      if strcmp mname "*" =? 0 then
        _ <- do_NetIFUpdate ;;
        fun w => (check_local_netifs netip4 netip6 (NetIFList w), w)
      else
        found <- do_NetIFFind mname ;;
        match found with
        | Some iface => ret (netif_match netip4 netip6 iface)
        | None => ret false
        end
  | AUTH_NAME mname mlength =>
      if strcasecmp hostname mname =? 0 then ret true
      else if (name_len >=? mlength)
              && (first_char mname =? ".")%char
              && (strcasecmp
                    (str_from (Z.to_nat (name_len - mlength)) hostname)
                    mname =? 0)
      then ret true
      else ret false
  | AUTH_IP (a0, a1, a2, a3) (m0, m1, m2, m3) =>
      let '(ip0, ip1, ip2, ip3) := ip in
      ret ((Z.land ip0 m0 =? a0)
           && (Z.land ip1 m1 =? a1)
           && (Z.land ip2 m2 =? a2)
           && (Z.land ip3 m3 =? a3))
  end.

(** [cupsdCheckAuth]: the masks in turn, until one matches. *)
Fixpoint cupsdCheckAuth (ip : word4) (hostname : string) (name_len : Z)
    (masks : list cupsd_authmask_t) : M bool :=
  match masks with
  | [] => ret false
  | m :: rest =>
      hit <- check_mask ip hostname name_len m ;;
      if hit then ret true
      else cupsdCheckAuth ip hostname name_len rest
  end.

End CheckAuth.

(* ================================================================== *)
(** * cupsdGetMD5Passwd *)
(* ================================================================== *)

(** [!s[0]]: the string is empty. *)
Definition is_empty (s : string) : bool :=
  match s with
  | EmptyString => true
  | String _ _ => false
  end.

(** The conversion [%32[^:]] of [sscanf]: up to [n] bytes other than
    [':'], and the input that is left. *)
Fixpoint scan_not_colon (n : nat) (s : string) : string * string :=
  match n, s with
  | S n', String c r =>
      if (c =? ":")%char then (EmptyString, s)
      else let (t, rest) := scan_not_colon n' r in (String c t, rest)
  | _, _ => (EmptyString, s)
  end.

Fixpoint skip_spaces (s : string) : string :=
  match s with
  | String c r => if isspace c then skip_spaces r else s
  | EmptyString => s
  end.

Fixpoint scan_not_space (n : nat) (s : string) : string :=
  match n, s with
  | S n', String c r =>
      if isspace c then EmptyString else String c (scan_not_space n' r)
  | _, _ => EmptyString
  end.

(** The conversion [%32s]: white space is skipped, then up to [n] bytes
    that are not white space are read. *)
Definition scan_word (n : nat) (s : string) : string :=
  scan_not_space n (skip_spaces s).

(** [sscanf(line, "%32[^:]:%32[^:]:%32s", tempuser, tempgroup, passwd)]:
    the number of conversions made, and the three strings (a string that
    was not converted is left empty here; the code does not read it). *)
Definition sscanf_md5_line (line : string)
  : Z * string * string * string :=
  if is_empty line then (-1, "", "", "")
  else
    let (tempuser, r1) := scan_not_colon 32 line in
    if is_empty tempuser then (0, "", "", "")
    else
      match r1 with
      | String ":" r2 =>
          let (tempgroup, r3) := scan_not_colon 32 r2 in
          if is_empty tempgroup then (1, tempuser, "", "")
          else
            match r3 with
            | String ":" r4 =>
                let passwd := scan_word 32 r4 in
                if is_empty passwd then (2, tempuser, tempgroup, "")
                else (3, tempuser, tempgroup, passwd)
            | _ => (2, tempuser, tempgroup, "")
            end
      | _ => (1, tempuser, "", "")
      end.

(** The loop over the lines of passwd.md5. *)
Fixpoint md5_scan_lines (user : string) (grp : option string)
    (lines : list string) : option string :=
  match lines with
  | [] => None
  | line :: rest =>
      let '(n, tempuser, tempgroup, passwd) := sscanf_md5_line line in
      if negb (n =? 3) then md5_scan_lines user grp rest
      else if (strcmp user tempuser =? 0)
              && match grp with
                 | None => true
                 | Some g => strcmp g tempgroup =? 0
                 end
      then Some passwd
      else md5_scan_lines user grp rest
  end.

Section Auth.

Variable b : build_t.
Variable sys : system_t.

(** [snprintf(filename, sizeof(filename), "%s/passwd.md5", ServerRoot)]. *)
Definition passwd_md5_filename : string :=
  strlcpy (ServerRoot sys ++ "/passwd.md5")%string 1024.

(** [cupsdGetMD5Passwd]: the MD5 password of the first line of
    passwd.md5 for the user and, when one is given, the group. *)
Definition cupsdGetMD5Passwd (user : string) (grp : option string)
  : M (option string) :=
  _ <- record_call (call_cupsFileOpen passwd_md5_filename) ;;
  match cupsFile sys passwd_md5_filename with
  | None => ret None
  | Some lines => ret (md5_scan_lines user grp lines)
  end.

(* ================================================================== *)
(** * cupsdCheckGroup *)
(* ================================================================== *)

Definition do_getgrnam (groupname : string) : M (option group) :=
  _ <- record_call (call_getgrnam groupname) ;;
  ret (getgrnam sys groupname).

Definition do_getpwnam (user : string) : M (option passwd) :=
  _ <- record_call (call_getpwnam user) ;;
  ret (getpwnam sys user).

Definition do_getspnam (user : string) : M (option spwd) :=
  _ <- record_call (call_getspnam user) ;;
  ret (getspnam sys user).

(** The loop over [group->gr_mem]. *)
Fixpoint in_gr_mem (user : string) (members : list string) : bool :=
  match members with
  | [] => false
  | m :: rest =>
      if strcasecmp user m =? 0 then true else in_gr_mem user rest
  end.

(** [cupsdCheckGroup]: [true] where the C code returns 1. *)
Definition cupsdCheckGroup (user : option string) (pw : option passwd)
    (groupname : option string) : M bool :=
  match user, groupname with
  | Some u, Some g =>
      grp <- do_getgrnam g ;;
      if match grp with
         | Some gr => in_gr_mem u (gr_mem gr)
         | None => false
         end
      then ret true
      else if match pw, grp with
              | Some p, Some gr => gr_gid gr =? pw_gid p
              | _, _ => false
              end
      then ret true
      else
        found <- cupsdGetMD5Passwd u (Some g) ;;
        match found with
        | Some _ => ret true
        | None => ret false
        end
  | _, _ => ret false
  end.

(* ================================================================== *)
(** * cups_crypt and to64 *)
(* ================================================================== *)

Definition itoa64 : string :=
  "./0123456789ABCDEFGHIJKLMNOPQRSTUVWXYZabcdefghijklmnopqrstuvwxyz".

(** [s[i]], NUL past the end. *)
Definition char_at (i : nat) (s : string) : ascii :=
  first_char (str_from i s).

Definition byte_at (i : nat) (s : string) : Z :=
  Z.of_N (N_of_ascii (char_at i s)).

(** [to64]: [n] digits of [v], six bits each, lowest first. *)
Fixpoint to64 (v : Z) (n : nat) : string :=
  match n with
  | O => EmptyString
  | S n' =>
      String (char_at (Z.to_nat (Z.land v 63)) itoa64)
             (to64 (Z.shiftr v 6) n')
  end.

(** The length of the salt data after ["$1$"]: up to 8 bytes, to the
    end of the string or to the next ['$']. *)
Fixpoint salt_data_len (n : nat) (s : string) : nat :=
  match n, s with
  | S n', String c r =>
      if (c =? "$")%char then O else S (salt_data_len n' r)
  | _, _ => O
  end.

(** [for (i = pwlen; i > 0; i -= 16)]: the bytes appended to the state. *)
Fixpoint md5_append_digest (fuel : nat) (i : Z) (digest state : string)
  : string :=
  match fuel with
  | O => state
  | S fuel' =>
      if i >? 0 then
        let n := if i >? 16 then 16%nat else Z.to_nat i in
        md5_append_digest fuel' (i - 16) digest
          (append state (str_take n digest))
      else state
  end.

(** [for (i = pwlen; i > 0; i >>= 1)]: one byte each turn, the NUL of
    [""] or the first byte of the password. *)
Fixpoint md5_append_bits (fuel : nat) (i : Z) (pw state : string)
  : string :=
  match fuel with
  | O => state
  | S fuel' =>
      if i >? 0 then
        let c := if negb (Z.land i 1 =? 0) then zero else first_char pw in
        md5_append_bits fuel' (Z.shiftr i 1) pw
          (append state (String c EmptyString))
      else state
  end.

(** The [n] turns from [i] of the loop [for (i = 0; i < 1000; i ++)]. *)
Fixpoint md5_rounds (n : nat) (i : Z) (pw salt_data digest : string)
  : string :=
  match n with
  | O => digest
  | S n' =>
      let s1 := if negb (Z.land i 1 =? 0) then pw else digest in
      let s2 := if negb (i mod 3 =? 0) then salt_data else EmptyString in
      let s3 := if negb (i mod 7 =? 0) then pw else EmptyString in
      let s4 := if negb (Z.land i 1 =? 0) then digest else pw in
      md5_rounds n' (i + 1) pw salt_data
        (md5_digest sys (s1 ++ s2 ++ s3 ++ s4)%string)
  end.

(** [cups_crypt]: the MD5 algorithm for ["$1$"] salts, [crypt]
    otherwise. *)
Definition cups_crypt (pw salt : string) : option string :=
  if strncmp salt "$1$" 3 =? 0 then
    let salt_end := (3 + salt_data_len 8 (str_from 3 salt))%nat in
    let salt_data := str_take (salt_end - 3) (str_from 3 salt) in
    let pwlen := String.length pw in
    let state := (pw ++ str_take salt_end salt)%string in
    let digest2 := md5_digest sys (pw ++ salt_data ++ pw)%string in
    let state := md5_append_digest pwlen (Z.of_nat pwlen) digest2 state in
    let state := md5_append_bits pwlen (Z.of_nat pwlen) pw state in
    let digest := md5_digest sys state in
    let digest := md5_rounds 1000 0 pw salt_data digest in
    let n (i : nat) : Z :=
      Z.lor (Z.shiftl (Z.lor (Z.shiftl (byte_at i digest) 8)
                             (byte_at (i + 6) digest)) 8)
            (if (i <? 4)%nat then byte_at (i + 12) digest
             else byte_at 5 digest) in
    Some (str_take salt_end salt ++ "$"
          ++ to64 (n 0%nat) 4 ++ to64 (n 1%nat) 4 ++ to64 (n 2%nat) 4
          ++ to64 (n 3%nat) 4 ++ to64 (n 4%nat) 4
          ++ to64 (byte_at 11 digest) 2)%string
  else crypt sys pw salt.

(* ================================================================== *)
(** * cupsdIsAuthorized *)
(* ================================================================== *)

(** The [states] table of [cupsdIsAuthorized]. *)
Definition states (state : http_state_t) : string :=
  match state with
  | HTTP_WAITING => "WAITING"
  | HTTP_OPTIONS => "OPTIONS"
  | HTTP_GET => "GET"
  | HTTP_GET_SEND => "GET"
  | HTTP_HEAD => "HEAD"
  | HTTP_POST => "POST"
  | HTTP_POST_RECV => "POST"
  | HTTP_POST_SEND => "POST"
  | HTTP_PUT => "PUT"
  | HTTP_PUT_RECV => "PUT"
  | HTTP_DELETE => "DELETE"
  | HTTP_TRACE => "TRACE"
  | HTTP_CLOSE => "CLOSE"
  | HTTP_STATUS => "STATUS"
  end.

(** The client address as four words in host byte order. *)
Definition peer_address (hostaddr : http_addr_t) : word4 :=
  let ipv4_or_zero :=
    if sa_family hostaddr =? AF_INET b
    then (0, 0, 0, ntohl b (ipv4_s_addr hostaddr))
    else (0, 0, 0, 0) in
  match AF_INET6 b with
  | Some af_inet6 =>
      if sa_family hostaddr =? af_inet6 then
        let '(a0, a1, a2, a3) := ipv6_s6_addr32 hostaddr in
        (ntohl b a0, ntohl b a1, ntohl b a2, ntohl b a3)
      else ipv4_or_zero
  | None => ipv4_or_zero
  end.

(** The host and address based check: [AUTH_ALLOW] or [AUTH_DENY]. *)
Definition check_host (con : cupsd_client_t) (loc : cupsd_location_t)
  : M Z :=
  let addr := peer_address (http_hostaddr con) in
  let hostlen := Z.of_nat (String.length (http_hostname con)) in
  if strcasecmp (http_hostname con) "localhost" =? 0 then ret AUTH_ALLOW
  else if order_type loc =? AUTH_ALLOW then
    denied <- cupsdCheckAuth b sys addr (http_hostname con) hostlen
                (deny loc) ;;
    let auth := if denied then AUTH_DENY else AUTH_ALLOW in
    allowed <- cupsdCheckAuth b sys addr (http_hostname con) hostlen
                 (allow loc) ;;
    ret (if allowed then AUTH_ALLOW else auth)
  else if order_type loc =? AUTH_DENY then
    allowed <- cupsdCheckAuth b sys addr (http_hostname con) hostlen
                 (allow loc) ;;
    let auth := if allowed then AUTH_ALLOW else AUTH_DENY in
    denied <- cupsdCheckAuth b sys addr (http_hostname con) hostlen
                (deny loc) ;;
    ret (if denied then AUTH_DENY else auth)
  else ret AUTH_DENY.

(** Basic authentication through PAM. *)
Definition basic_pam (con : cupsd_client_t) (pw : option passwd)
  : M (option (option passwd)) :=
  _ <- record_call (call_pam_start "cups" (username con)) ;;
  if negb (pam_start sys "cups" (username con) =? PAM_SUCCESS) then
    _ <- record_call call_pam_end ;; ret None
  else
    _ <- record_call call_pam_authenticate ;;
    if negb (pam_authenticate sys (username con) (password con)
             =? PAM_SUCCESS) then
      _ <- record_call call_pam_end ;; ret None
    else
      _ <- record_call call_pam_acct_mgmt ;;
      if negb (pam_acct_mgmt sys (username con) =? PAM_SUCCESS) then
        _ <- record_call call_pam_end ;; ret None
      else
        _ <- record_call call_pam_end ;; ret (Some pw).

(** Basic authentication through the AIX interface. *)
Definition basic_usersec (con : cupsd_client_t) (pw : option passwd)
  : M (option (option passwd)) :=
  _ <- record_call (call_authenticate (username con)) ;;
  if negb (authenticate sys (username con) (password con) =? 0)
  then ret None
  else ret (Some pw).

(** [pass == NULL || strcmp(stored, pass) != 0]. *)
Definition crypt_differs (stored : string) (pass : option string) : bool :=
  match pass with
  | None => true
  | Some p => negb (strcmp stored p =? 0)
  end.

(** Basic authentication against the password and shadow files. *)
Definition basic_unix (have_shadow : bool) (con : cupsd_client_t)
    (pw : option passwd) : M (option (option passwd)) :=
  match pw with
  | None => ret None
  | Some p =>
      if have_shadow then
        spw <- do_getspnam (username con) ;;
        if match spw with
           | None => strcmp (pw_passwd p) "x" =? 0
           | Some _ => false
           end
        then ret None
        else if match spw with
                | Some s => is_empty (sp_pwdp s) && is_empty (pw_passwd p)
                | None => false
                end
        then ret None
        else if crypt_differs (pw_passwd p)
                  (cups_crypt (password con) (pw_passwd p))
        then
          match spw with
          | Some s =>
              if crypt_differs (sp_pwdp s)
                   (cups_crypt (password con) (sp_pwdp s))
              then ret None
              else ret (Some pw)
          | None => ret None
          end
        else ret (Some pw)
      else
        if is_empty (pw_passwd p) then ret None
        else if crypt_differs (pw_passwd p)
                  (cups_crypt (password con) (pw_passwd p))
        then ret None
        else ret (Some pw)
  end.

(** [case AUTH_BASIC]. *)
Definition auth_basic (con : cupsd_client_t)
  : M (option (option passwd)) :=
  pw <- do_getpwnam (username con) ;;
  match os_auth b with
  | LIBPAM => basic_pam con pw
  | USERSEC => basic_usersec con pw
  | UNIX_PASSWD have_shadow => basic_unix have_shadow con pw
  end.

(** The loop over [SystemGroups] of the digest cases. *)
Fixpoint md5_of_groups (user : string) (groups : list string)
  : M (option string) :=
  match groups with
  | [] => ret None
  | g :: rest =>
      found <- cupsdGetMD5Passwd user (Some g) ;;
      match found with
      | Some p => ret (Some p)
      | None => md5_of_groups user rest
      end
  end.

(** The loop over [best->names] of the digest cases. *)
Fixpoint md5_of_names (user : string) (nms : list string)
  : M (option string) :=
  match nms with
  | [] => ret None
  | n :: rest =>
      found <- (if strcasecmp n "@SYSTEM" =? 0
                then md5_of_groups user (SystemGroups sys)
                else cupsdGetMD5Passwd user (Some n)) ;;
      match found with
      | Some p => ret (Some p)
      | None => md5_of_names user rest
      end
  end.

(** The MD5 password of the user in passwd.md5, empty when there is
    none: by group for a location of level [AUTH_GROUP] with names, by
    user alone otherwise. *)
Definition find_md5 (con : cupsd_client_t) (loc : cupsd_location_t)
  : M string :=
  found <- (if negb (num_names loc =? 0) && (level loc =? AUTH_GROUP)
            then md5_of_names (username con) (names loc)
            else cupsdGetMD5Passwd (username con) None) ;;
  match found with
  | Some p => ret p
  | None => ret EmptyString
  end.

(** [case AUTH_DIGEST]. *)
Definition auth_digest (con : cupsd_client_t) (loc : cupsd_location_t)
  : M (option (option passwd)) :=
  match httpGetSubField sys (http_fields_authorization con) "nonce" with
  | None => ret None
  | Some nonce =>
      if negb (strcmp (http_hostname con) nonce =? 0) then ret None
      else
        md5 <- find_md5 con loc ;;
        if is_empty md5 then ret None
        else
          let md5 := httpMD5Final sys nonce (states (http_state con))
                       (uri con) md5 in
          if negb (strcmp md5 (password con) =? 0) then ret None
          else ret (Some None)
  end.

(** [case AUTH_BASICDIGEST]. *)
Definition auth_basicdigest (con : cupsd_client_t)
    (loc : cupsd_location_t) : M (option (option passwd)) :=
  md5 <- find_md5 con loc ;;
  if is_empty md5 then ret None
  else
    let basicmd5 := httpMD5 sys (username con) "CUPS" (password con) in
    if negb (strcmp md5 basicmd5 =? 0) then ret None
    else ret (Some None).

(** The test for certificate-based authentication: from localhost with
    an Authorization field that starts with "Local". *)
Definition local_certificate (con : cupsd_client_t) : bool :=
  (strcasecmp (http_hostname con) "localhost" =? 0)
  && (strncmp (http_fields_authorization con) "Local" 5 =? 0).

(** [best->type != AUTH_NONE ? best->type : DefaultAuthType]. *)
Definition auth_scheme (loc : cupsd_location_t) : Z :=
  if negb (type loc =? AUTH_NONE) then type loc else DefaultAuthType sys.

(** The check of the user's password: [None] where the C code returns
    [HTTP_UNAUTHORIZED], the value of [pw] where it goes on. *)
Definition check_password (con : cupsd_client_t) (loc : cupsd_location_t)
  : M (option (option passwd)) :=
  if negb (local_certificate con) then
    if is_empty (password con) then ret None
    else
      let scheme := auth_scheme loc in
      if scheme =? AUTH_BASIC then auth_basic con
      else if scheme =? AUTH_DIGEST then auth_digest con loc
      else if scheme =? AUTH_BASICDIGEST then auth_basicdigest con loc
      else ret (Some None)
  else
    pw <- do_getpwnam (username con) ;;
    ret (Some pw).

(** The loop over [SystemGroups] of the name checks. *)
Fixpoint check_system_groups (user : string) (pw : option passwd)
    (groups : list string) : M bool :=
  match groups with
  | [] => ret false
  | g :: rest =>
      member <- cupsdCheckGroup (Some user) pw (Some g) ;;
      if member then ret true else check_system_groups user pw rest
  end.

(** The loop over [best->names] for the level [AUTH_USER]: [true] where
    the C code returns [HTTP_OK]. *)
Fixpoint check_user_names (user : string) (owner : option string)
    (pw : option passwd) (nms : list string) : M bool :=
  match nms with
  | [] => ret false
  | n :: rest =>
      if (strcasecmp n "@OWNER" =? 0)
         && match owner with
            | Some o => strcasecmp user o =? 0
            | None => false
            end
      then ret true
      else if strcasecmp n "@SYSTEM" =? 0 then
        member <- check_system_groups user pw (SystemGroups sys) ;;
        if member then ret true else check_user_names user owner pw rest
      else if (first_char n =? "@")%char then
        member <- cupsdCheckGroup (Some user) pw (Some (str_from 1 n)) ;;
        if member then ret true else check_user_names user owner pw rest
      else if strcasecmp user n =? 0 then ret true
      else check_user_names user owner pw rest
  end.

(** The loop over [best->names] for the group level. *)
Fixpoint check_group_names (user : string) (pw : option passwd)
    (nms : list string) : M bool :=
  match nms with
  | [] => ret false
  | n :: rest =>
      member <- (if strcasecmp n "@SYSTEM" =? 0
                 then check_system_groups user pw (SystemGroups sys)
                 else cupsdCheckGroup (Some user) pw (Some n)) ;;
      if member then ret true else check_group_names user pw rest
  end.

(** What follows a good password: root, then user or group access. *)
Definition check_access (con : cupsd_client_t) (owner : option string)
    (loc : cupsd_location_t) (pw : option passwd) : M http_status_t :=
  if strcmp (username con) "root" =? 0 then ret HTTP_OK
  else if level loc =? AUTH_USER then
    if num_names loc =? 0 then ret HTTP_OK
    else
      ok <- check_user_names (username con) owner pw (names loc) ;;
      if ok then ret HTTP_OK else ret HTTP_UNAUTHORIZED
  else if type loc =? AUTH_BASIC then
    ok <- check_group_names (username con) pw (names loc) ;;
    if ok then ret HTTP_OK else ret HTTP_UNAUTHORIZED
  else ret HTTP_OK.

(** [ippFindAttribute(con->request, "requesting-user-name",
    IPP_TAG_NAME)] finds an attribute. *)
Definition has_requesting_user_name (con : cupsd_client_t) : bool :=
  match ippFindAttribute sys (request con) "requesting-user-name"
          IPP_TAG_NAME with
  | Some _ => true
  | None => false
  end.

(** The decisions between the host check and the check of the password,
    for the result [auth] of the host check: the status the C code
    returns there, or [None] where it goes on to the password. *)
Definition before_password (con : cupsd_client_t) (loc : cupsd_location_t)
    (auth : Z) : option http_status_t :=
  if (auth =? AUTH_DENY) && (satisfy loc =? AUTH_SATISFY_ALL)
  then Some HTTP_FORBIDDEN
  else if HAVE_SSL b
          && (encryption loc >=? HTTP_ENCRYPT_REQUIRED)
          && negb (http_tls con)
  then Some HTTP_UPGRADE_REQUIRED
  else if (level loc =? AUTH_ANON)
          || ((type loc =? AUTH_NONE) && (num_names loc =? 0))
  then Some HTTP_OK
  else if (type loc =? AUTH_NONE)
          && (limit loc =? AUTH_LIMIT_IPP)
          && has_requesting_user_name con
  then Some HTTP_OK
  else if is_empty (username con) then
    if (satisfy loc =? AUTH_SATISFY_ALL) || (auth =? AUTH_DENY)
    then Some HTTP_UNAUTHORIZED
    else Some HTTP_OK
  else None.

(** [cupsdIsAuthorized]: [HTTP_OK] if the user is authorized, or the
    error status. *)
Definition cupsdIsAuthorized (con : cupsd_client_t)
    (owner : option string) : M http_status_t :=
  match best con with
  | None =>
      if (strcmp (http_hostname con) "localhost" =? 0)
         || (strcmp (http_hostname con) (ServerName sys) =? 0)
      then ret HTTP_OK
      else ret HTTP_FORBIDDEN
  | Some loc =>
      auth <- check_host con loc ;;
      match before_password con loc auth with
      | Some status => ret status
      | None =>
          checked <- check_password con loc ;;
          match checked with
          | None => ret HTTP_UNAUTHORIZED
          | Some pw => check_access con owner loc pw
          end
      end
  end.

End Auth.

(* ================================================================== *)
(** * The words of the specification *)
(* ================================================================== *)

(** [p] is a prefix of [s]; [s] ends in [suffix]. *)
Definition is_prefix (p s : string) : Prop :=
  exists rest, s = (p ++ rest)%string.

Definition ends_with (s suffix : string) : Prop :=
  exists front, s = (front ++ suffix)%string.

(** The verb mask of the location includes the verb of the request. *)
Definition verb_allowed (state : http_state_t) (loc : cupsd_location_t)
  : Prop :=
  Z.land (limits state) (limit loc) <> 0.

(** The path of the location is a prefix of the URI, whatever the case
    of the letters when [ci] is set. *)
Definition path_matches (ci : bool) (uri : string)
    (loc : cupsd_location_t) : Prop :=
  if ci then is_prefix (lower (location loc)) (lower uri)
  else is_prefix (location loc) uri.

(** The location can govern the request. *)
Definition governs (ci : bool) (uri : string) (state : http_state_t)
    (loc : cupsd_location_t) : Prop :=
  path_matches ci uri loc
  /\ first_char (location loc) = "/"%char
  /\ verb_allowed state loc.

(** [r] is a location of the table with the longest path among those
    that can govern the request, and none when there is none. *)
Definition longest_governing (ci : bool) (uri : string)
    (state : http_state_t) (Locations : list cupsd_location_t)
    (r : option cupsd_location_t) : Prop :=
  match r with
  | None => forall loc, In loc Locations -> ~ governs ci uri state loc
  | Some x =>
      In x Locations
      /\ governs ci uri state x
      /\ forall loc, In loc Locations -> governs ci uri state loc ->
           (String.length (location loc) <= String.length (location x))%nat
  end.

(** Every byte of [s] satisfies [ok]. *)
Fixpoint all_chars (ok : ascii -> bool) (s : string) : bool :=
  match s with
  | EmptyString => true
  | String c r => ok c && all_chars ok r
  end.

Definition not_colon (c : ascii) : bool := negb (c =? ":")%char.

Definition not_space (c : ascii) : bool := negb (isspace c).

(** A field of a line of passwd.md5: 1 to 32 bytes that satisfy [ok]. *)
Definition md5_field (ok : ascii -> bool) (s : string) : Prop :=
  s <> "" /\ (String.length s <= 32)%nat /\ all_chars ok s = true.

(** passwd.md5 has a line that reads as the user, the group and some
    MD5 password. *)
Definition md5_entry (sys : system_t) (user grp : string) : Prop :=
  exists lines line passwd,
    cupsFile sys (passwd_md5_filename sys) = Some lines
    /\ In line lines
    /\ sscanf_md5_line line = (3, user, grp, passwd).

(** The calls to the interface registry, and the calls that look a
    group up in the system. *)
Definition netif_call (c : os_call) : bool :=
  match c with
  | call_NetIFUpdate | call_NetIFFind _ => true
  | _ => false
  end.

Definition group_call (c : os_call) : bool :=
  match c with
  | call_getgrnam _ => true
  | _ => false
  end.

Definition not_group_call (c : os_call) : bool := negb (group_call c).

(** [w'] has the calls of [w] and, after them, calls that satisfy [ok]
    only. *)
Definition calls_added (ok : os_call -> bool) (w w' : world) : Prop :=
  exists evs, calls w' = evs ++ calls w /\ forallb ok evs = true.

(** The computation [m] makes calls that satisfy [ok] only. *)
Definition calls_only {A : Type} (ok : os_call -> bool) (m : M A) : Prop :=
  forall w, calls_added ok w (snd (m w)).

(** The invariant of the loop of [cupsdFindBest], on the locations seen
    so far and the pair [(best, bestlen)]. *)
Definition find_best_inv (uri : string) (state : http_state_t)
    (seen : list cupsd_location_t) (acc : option cupsd_location_t * Z)
  : Prop :=
  match fst acc with
  | None =>
      snd acc = 0
      /\ forall loc, In loc seen -> ~ governs (queue_uri uri) uri state loc
  | Some x =>
      In x seen
      /\ governs (queue_uri uri) uri state x
      /\ snd acc = length x
      /\ forall loc, In loc seen -> governs (queue_uri uri) uri state loc ->
           length loc <= length x
  end.

(* ================================================================== *)
(** * A sample configuration *)
(* ================================================================== *)

(** A build for Linux on a little-endian machine, with TLS and PAM. *)
Definition sample_build : build_t :=
  {| HTTP_MAX_URI := 1024;
     AF_INET := 2;
     AF_INET6 := Some 10;
     big_endian := false;
     HAVE_SSL := true;
     os_auth := LIBPAM |}.

(** A location as [cupsdAddLocation] leaves it, with a verb mask. *)
Definition sample_location (path : string) (lim : Z) : cupsd_location_t :=
  {| location := path;
     op := 0;
     limit := lim;
     length := Z.of_nat (String.length path);
     order_type := AUTH_ALLOW;
     type := AUTH_NONE;
     level := AUTH_ANON;
     satisfy := AUTH_SATISFY_ALL;
     names := [];
     allow := [];
     deny := [];
     encryption := HTTP_ENCRYPT_IF_REQUESTED |}.

Definition loc_root : cupsd_location_t :=
  sample_location "/" AUTH_LIMIT_ALL.

Definition loc_admin_get : cupsd_location_t :=
  sample_location "/admin/" AUTH_LIMIT_GET.

Definition loc_admin_conf : cupsd_location_t :=
  sample_location "/admin/conf/" AUTH_LIMIT_GET.

Definition loc_printers_foo : cupsd_location_t :=
  sample_location "/printers/foo" AUTH_LIMIT_ALL.

Definition loc_printers_a_ppd : cupsd_location_t :=
  sample_location "/printers/a.ppd" AUTH_LIMIT_ALL.

Definition loc_admin_foo : cupsd_location_t :=
  sample_location "/admin/foo" AUTH_LIMIT_ALL.

(** A location with an access policy. *)
Definition policy_location (path : string) (order scheme lvl sat : Z)
    (nms : list string) (allowed denied : list cupsd_authmask_t)
    (enc : Z) : cupsd_location_t :=
  {| location := path;
     op := 0;
     limit := AUTH_LIMIT_ALL;
     length := Z.of_nat (String.length path);
     order_type := order;
     type := scheme;
     level := lvl;
     satisfy := sat;
     names := nms;
     allow := allowed;
     deny := denied;
     encryption := enc |}.

(** The lines of a passwd.md5 file. *)
Definition sample_passwd_md5 : list string :=
  [ "not a password line";
    "carol:admins:0123456789abcdef0123456789abcdef" ].

(** A system with the users alice, member of a group called OWNER, bob
    and root, whose passwords PAM accepts, and the user carol of the
    digest file.  The two MD5 functions are stand-ins that return the digest
    they are given. *)
Definition sample_system : system_t :=
  {| ServerName := "printhost";
     ServerRoot := "/etc/cups";
     DefaultAuthType := AUTH_BASIC;
     SystemGroups := ["sys"];
     getpwnam := fun u =>
       if String.eqb u "alice"
       then Some {| pw_name := "alice"; pw_passwd := "x"; pw_gid := 100 |}
       else if String.eqb u "bob"
       then Some {| pw_name := "bob"; pw_passwd := "x"; pw_gid := 100 |}
       else None;
     getgrnam := fun g =>
       if String.eqb g "OWNER"
       then Some {| gr_name := "OWNER"; gr_gid := 50;
                    gr_mem := ["alice"] |}
       else None;
     getspnam := fun _ => None;
     cupsFile := fun f =>
       if String.eqb f "/etc/cups/passwd.md5"
       then Some sample_passwd_md5
       else None;
     pam_start := fun _ _ => PAM_SUCCESS;
     pam_authenticate := fun u p =>
       if String.eqb u "alice" && String.eqb p "secret"
          || String.eqb u "bob" && String.eqb p "hunter2"
          || String.eqb u "root" && String.eqb p "toor"
       then PAM_SUCCESS else 7;
     pam_acct_mgmt := fun _ => PAM_SUCCESS;
     authenticate := fun _ _ => 1;
     crypt := fun _ _ => None;
     md5_digest := fun _ => EmptyString;
     cupsdNetIFUpdate := fun l => l;
     NetIFFind := fun _ l => (None, l);
     httpGetSubField := fun field sub =>
       if String.eqb sub "nonce"
          && String.eqb field "Digest nonce=remote.example.com"
       then Some "remote.example.com"
       else None;
     httpMD5 := fun _ _ pass => pass;
     httpMD5Final := fun _ _ _ md5 => md5;
     ippFindAttribute := fun _ _ _ => None |}.

(** A GET request over IPv4 without TLS. *)
Definition sample_client (hostname : string) (s_addr : Z)
    (authorization user pass : string) (loc : option cupsd_location_t)
  : cupsd_client_t :=
  {| http_hostname := hostname;
     http_hostaddr := {| sa_family := 2;
                         ipv4_s_addr := s_addr;
                         ipv6_s6_addr32 := (0, 0, 0, 0) |};
     http_state := HTTP_GET;
     http_fields_authorization := authorization;
     http_tls := false;
     request := None;
     uri := "/admin/";
     username := user;
     password := pass;
     best := loc |}.

Definition world0 : world := {| NetIFList := []; calls := [] |}.

(** 10.0.0.0/8 and 10.1.0.0/16. *)
Definition mask_10_8 : cupsd_authmask_t :=
  AUTH_IP (0, 0, 0, 0x0A000000) (0, 0, 0, 0xFF000000).

Definition mask_10_1_16 : cupsd_authmask_t :=
  AUTH_IP (0, 0, 0, 0x0A010000) (0, 0, 0, 0xFFFF0000).

(** The address 10.1.2.3 as [s_addr] holds it on a little-endian
    machine. *)
Definition s_addr_10_1_2_3 : Z := 0x0302010A.

(** Locations for /admin/ that deny every remote host (Order Allow,Deny
    with empty lists) and ask for any valid user, with Basic
    authentication. *)
Definition loc_admin_all : cupsd_location_t :=
  policy_location "/admin/" AUTH_DENY AUTH_BASIC AUTH_USER
    AUTH_SATISFY_ALL [] [] [] HTTP_ENCRYPT_IF_REQUESTED.

Definition loc_admin_any : cupsd_location_t :=
  policy_location "/admin/" AUTH_DENY AUTH_BASIC AUTH_USER
    AUTH_SATISFY_ANY [] [] [] HTTP_ENCRYPT_IF_REQUESTED.

Definition loc_admin_any_tls : cupsd_location_t :=
  policy_location "/admin/" AUTH_DENY AUTH_BASIC AUTH_USER
    AUTH_SATISFY_ANY [] [] [] HTTP_ENCRYPT_REQUIRED.

(** alice at 10.1.2.3 with her password. *)
Definition client_alice (loc : option cupsd_location_t) : cupsd_client_t :=
  sample_client "10.1.2.3" s_addr_10_1_2_3 "Basic YWxpY2U6c2VjcmV0"
    "alice" "secret" loc.

(** The world after PAM has accepted alice. *)
Definition world_after_pam : world :=
  {| NetIFList := [];
     calls := [ call_pam_end; call_pam_acct_mgmt; call_pam_authenticate;
                call_pam_start "cups" "alice"; call_getpwnam "alice" ] |}.

(** Locations for /admin/ open to every host, with Digest
    authentication: for any valid user, and for the group admins. *)
Definition loc_digest_user : cupsd_location_t :=
  policy_location "/admin/" AUTH_ALLOW AUTH_DIGEST AUTH_USER
    AUTH_SATISFY_ALL [] [] [] HTTP_ENCRYPT_IF_REQUESTED.

Definition loc_digest_group : cupsd_location_t :=
  policy_location "/admin/" AUTH_ALLOW AUTH_DIGEST AUTH_GROUP
    AUTH_SATISFY_ALL ["admins"] [] [] HTTP_ENCRYPT_IF_REQUESTED.

(** carol at remote.example.com, with the response that the stand-in
    for [httpMD5Final] computes from her stored digest, and with a
    Digest header that has no nonce. *)
Definition client_carol (authorization : string)
    (loc : option cupsd_location_t) : cupsd_client_t :=
  sample_client "remote.example.com" s_addr_10_1_2_3 authorization
    "carol" "0123456789abcdef0123456789abcdef" loc.

Definition world_after_md5 : world :=
  {| NetIFList := [];
     calls := [ call_cupsFileOpen "/etc/cups/passwd.md5" ] |}.

(** A location for /jobs open to every host, for the owner of the job,
    with Basic authentication. *)
Definition loc_owner : cupsd_location_t :=
  policy_location "/jobs" AUTH_ALLOW AUTH_BASIC AUTH_USER
    AUTH_SATISFY_ALL ["@OWNER"] [] [] HTTP_ENCRYPT_IF_REQUESTED.

(** bob at 10.1.2.3 with his password. *)
Definition client_bob (loc : option cupsd_location_t) : cupsd_client_t :=
  sample_client "10.1.2.3" s_addr_10_1_2_3 "Basic Ym9iOmh1bnRlcjI="
    "bob" "hunter2" loc.

(** A client whose host name is LOCALHOST, for a path that no location
    governs. *)
Definition client_LOCALHOST : cupsd_client_t :=
  sample_client "LOCALHOST" s_addr_10_1_2_3 "" "" "" None.

(** The table of scenario S1: every host may read /, and /admin/ is for
    the system groups from 127.0.0.0/8 (Order Allow,Deny with
    Deny from All). *)
Definition mask_all : cupsd_authmask_t :=
  AUTH_IP (0, 0, 0, 0) (0, 0, 0, 0).

Definition mask_127_8 : cupsd_authmask_t :=
  AUTH_IP (0, 0, 0, 0x7F000000) (0, 0, 0, 0xFF000000).

Definition loc_s1_root : cupsd_location_t :=
  policy_location "/" AUTH_ALLOW AUTH_NONE AUTH_ANON AUTH_SATISFY_ALL
    [] [mask_all] [] HTTP_ENCRYPT_IF_REQUESTED.

Definition loc_s1_admin : cupsd_location_t :=
  policy_location "/admin/" AUTH_DENY AUTH_BASIC AUTH_USER
    AUTH_SATISFY_ALL ["@SYSTEM"] [mask_127_8] [mask_all]
    HTTP_ENCRYPT_IF_REQUESTED.

Definition s1_locations : list cupsd_location_t :=
  [loc_s1_root; loc_s1_admin].

(** A location for bob alone. *)
Definition loc_bob_only : cupsd_location_t :=
  policy_location "/admin/" AUTH_ALLOW AUTH_BASIC AUTH_USER
    AUTH_SATISFY_ALL ["bob"] [] [] HTTP_ENCRYPT_IF_REQUESTED.

(* ================================================================== *)
(** * The functions that build and search the table *)
(* ================================================================== *)

(** Memory.  An allocation whose failure the C code tests is a boolean
    argument of the function that makes it ([true]: the memory is
    found).  A [strdup] whose result the code stores untested is taken
    to succeed: its failure leaves a NULL name, which the masks of this
    development do not have.  A pointer into [Locations] is the index
    of its record. *)

Definition strlen (s : string) : Z := Z.of_nat (String.length s).

(** [cupsdFindLocation]: the index of the first location with the name,
    whatever the case of the letters. *)
Fixpoint find_location_from (i : nat) (locs : list cupsd_location_t)
    (loc_name : string) : option nat :=
  match locs with
  | [] => None
  | l :: rest =>
      if strcasecmp (location l) loc_name =? 0 then Some i
      else find_location_from (S i) rest loc_name
  end.

Definition cupsdFindLocation (Locations : list cupsd_location_t)
    (loc_name : string) : option nat :=
  find_location_from 0 Locations loc_name.

(** A location with other names, allow masks or deny masks. *)
Definition with_names (loc : cupsd_location_t) (nms : list string)
  : cupsd_location_t :=
  {| location := location loc; op := op loc; limit := limit loc;
     length := length loc; order_type := order_type loc;
     type := type loc; level := level loc; satisfy := satisfy loc;
     names := nms; allow := allow loc; deny := deny loc;
     encryption := encryption loc |}.

Definition with_allow (loc : cupsd_location_t)
    (masks : list cupsd_authmask_t) : cupsd_location_t :=
  {| location := location loc; op := op loc; limit := limit loc;
     length := length loc; order_type := order_type loc;
     type := type loc; level := level loc; satisfy := satisfy loc;
     names := names loc; allow := masks; deny := deny loc;
     encryption := encryption loc |}.

Definition with_deny (loc : cupsd_location_t)
    (masks : list cupsd_authmask_t) : cupsd_location_t :=
  {| location := location loc; op := op loc; limit := limit loc;
     length := length loc; order_type := order_type loc;
     type := type loc; level := level loc; satisfy := satisfy loc;
     names := names loc; allow := allow loc; deny := masks;
     encryption := encryption loc |}.

(** [cupsdAddName]: the name joins the names of the location, unless
    the array ([mem_array]) or the copy of the name ([mem_name]) finds
    no memory; then the names and their count are as they were. *)
Definition cupsdAddName (mem_array mem_name : bool)
    (loc : cupsd_location_t) (name : string) : cupsd_location_t :=
  if negb mem_array then loc
  else if negb mem_name then loc
  else with_names loc (names loc ++ [name]).

(** [add_allow] and [add_deny]: [None] where the C code returns NULL,
    for a NULL location or without memory; otherwise the location with
    one more cell.  The cell is cleared, and the caller stores into it
    before anything reads it: [fill] is what the caller stores. *)
Definition add_allow (mem : bool) (loc : option cupsd_location_t)
    (fill : cupsd_authmask_t) : option cupsd_location_t :=
  match loc with
  | None => None
  | Some l => if mem then Some (with_allow l (allow l ++ [fill])) else None
  end.

Definition add_deny (mem : bool) (loc : option cupsd_location_t)
    (fill : cupsd_authmask_t) : option cupsd_location_t :=
  match loc with
  | None => None
  | Some l => if mem then Some (with_deny l (deny l ++ [fill])) else None
  end.

(** What [cupsdAllowHost] and [cupsdDenyHost] store for a name: the
    interface ["*"] for [@LOCAL], the interface named between the
    parentheses of [@IF(...)] (31 bytes of it at most), or the host or
    domain name.  [None] for a name that has nothing after ["@IF("]:
    the C code then reads [ifptr[-1]], the byte before its buffer. *)
Definition host_mask (name : string) : option cupsd_authmask_t :=
  if strcasecmp name "@LOCAL" =? 0 then Some (AUTH_INTERFACE "*" 1)
  else if strncasecmp name "@IF(" 4 =? 0 then
    let ifname := strlcpy (str_from 4 name) 32 in
    let ifptr := String.length ifname in
    match ifptr with
    | O => None
    | S last =>
        if (char_at last ifname =? ")")%char
        then Some (AUTH_INTERFACE (str_take last ifname) (Z.of_nat last))
        else Some (AUTH_INTERFACE ifname (Z.of_nat ifptr))
    end
  else Some (AUTH_NAME name (strlen name)).

(** [cupsdAllowHost] and [cupsdDenyHost]: the location as the call
    leaves it; [None] where the mask is (see [host_mask]). *)
Definition cupsdAllowHost (mem : bool) (loc : cupsd_location_t)
    (name : string) : option cupsd_location_t :=
  if negb mem then Some loc
  else
    match host_mask name with
    | None => None
    | Some m =>
        match add_allow mem (Some loc) m with
        | None => Some loc
        | Some loc' => Some loc'
        end
    end.

Definition cupsdDenyHost (mem : bool) (loc : cupsd_location_t)
    (name : string) : option cupsd_location_t :=
  if negb mem then Some loc
  else
    match host_mask name with
    | None => None
    | Some m =>
        match add_deny mem (Some loc) m with
        | None => Some loc
        | Some loc' => Some loc'
        end
    end.

(** [cupsdAllowIP] and [cupsdDenyIP]. *)
Definition cupsdAllowIP (mem : bool) (loc : cupsd_location_t)
    (address netmask : word4) : cupsd_location_t :=
  match add_allow mem (Some loc) (AUTH_IP address netmask) with
  | None => loc
  | Some loc' => loc'
  end.

Definition cupsdDenyIP (mem : bool) (loc : cupsd_location_t)
    (address netmask : word4) : cupsd_location_t :=
  match add_deny mem (Some loc) (AUTH_IP address netmask) with
  | None => loc
  | Some loc' => loc'
  end.

(** A mask as [cupsdCopyLocation] leaves it in the copy: whole (a name
    with its length, an address with its netmask), or, for an interface
    mask, the type alone in the cleared cell: the name is NULL and the
    length 0. *)
Inductive copied_mask_t : Type :=
| copied_whole (m : cupsd_authmask_t)
| copied_type_only.

(** The [switch] of the two loops over the masks. *)
Definition copy_mask (m : cupsd_authmask_t) : copied_mask_t :=
  match m with
  | AUTH_NAME name len => copied_whole (AUTH_NAME name len)
  | AUTH_IP address netmask => copied_whole (AUTH_IP address netmask)
  | AUTH_INTERFACE _ _ => copied_type_only
  end.

(** The masks of a copy as masks with their names, when none of them
    has the type alone. *)
Fixpoint whole_masks (copied : list copied_mask_t)
  : option (list cupsd_authmask_t) :=
  match copied with
  | [] => Some []
  | copied_whole m :: rest =>
      match whole_masks rest with
      | Some masks => Some (m :: masks)
      | None => None
      end
  | copied_type_only :: _ => None
  end.

Definition is_interface (m : cupsd_authmask_t) : bool :=
  match m with
  | AUTH_INTERFACE _ _ => true
  | _ => false
  end.

Definition has_interface (masks : list cupsd_authmask_t) : bool :=
  existsb is_interface masks.

(** What [cupsdCopyLocation] returns and leaves in the table.
    - [copy_null]: NULL is returned, and the table counts the locations
      it counted.
    - [copy_made]: the copy is returned; it is the location at [j] of
      the table [Locations'].
    - [copy_unnamed]: the copy is returned and follows the locations of
      the table, but masks of it are interface masks with the type
      alone.  [cupsdCheckAuth] would pass their NULL name to [strcmp];
      the masks of a [cupsd_location_t] have names, so the copy is given
      here by [head], its fields other than the masks (the [allow] and
      [deny] of [head] are left empty), and by its masks [allowed] and
      [denied]. *)
Inductive copy_result_t : Type :=
| copy_null (Locations : list cupsd_location_t)
| copy_made (Locations' : list cupsd_location_t) (j : nat)
| copy_unnamed (head : cupsd_location_t)
    (allowed denied : list copied_mask_t).

(** [cupsdCopyLocation] for the location at [locindex] of the table.
    [mem]: the allocations find memory; without it the first of them,
    that of [cupsdAddLocation], fails and NULL is returned (a later
    allocation that fails takes the count of the table back and returns
    NULL as well, so the table is the same).  [None] for an index that
    is not in the table. *)
Definition cupsdCopyLocation (b : build_t) (mem : bool)
    (Locations : list cupsd_location_t) (locindex : nat)
  : option copy_result_t :=
  match nth_error Locations locindex with
  | None => None
  | Some orig =>
      match snd (cupsdAddLocation b mem Locations
                   (strlcpy (location orig) (HTTP_MAX_URI b))) with
      | None => Some (copy_null Locations)
      | Some temp =>
          let copy (masks_allow masks_deny : list cupsd_authmask_t) :=
            {| location := location temp;
               op := op temp;
               limit := limit orig;
               length := length temp;
               order_type := order_type orig;
               type := type orig;
               level := level orig;
               satisfy := satisfy orig;
               names := names orig;
               allow := masks_allow;
               deny := masks_deny;
               encryption := encryption orig |} in
          let allowed := map copy_mask (allow orig) in
          let denied := map copy_mask (deny orig) in
          match whole_masks allowed, whole_masks denied with
          | Some masks_allow, Some masks_deny =>
              Some (copy_made (Locations ++ [copy masks_allow masks_deny])
                      (List.length Locations))
          | _, _ => Some (copy_unnamed (copy [] []) allowed denied)
          end
      end
  end.

(* ================================================================== *)
(** * pam_func *)
(* ================================================================== *)

(** The styles of the messages of a PAM conversation. *)
Inductive pam_msg_style : Type :=
| PAM_PROMPT_ECHO_ON
| PAM_PROMPT_ECHO_OFF
| PAM_TEXT_INFO
| PAM_ERROR_MSG
| pam_style_other.

(** [struct pam_response], with NULL or the text of the response. *)
Record pam_response : Type := {
  resp_retcode : Z;
  resp : option string
}.

(** The loop over the messages: the replies, or nothing for a message
    of a style that is not known. *)
Fixpoint pam_replies (client : cupsd_client_t)
    (msg : list pam_msg_style) : option (list pam_response) :=
  match msg with
  | [] => Some []
  | style :: rest =>
      let reply :=
        match style with
        | PAM_PROMPT_ECHO_ON =>
            Some {| resp_retcode := PAM_SUCCESS;
                    resp := Some (username client) |}
        | PAM_PROMPT_ECHO_OFF =>
            Some {| resp_retcode := PAM_SUCCESS;
                    resp := Some (password client) |}
        | PAM_TEXT_INFO =>
            Some {| resp_retcode := PAM_SUCCESS; resp := None |}
        | PAM_ERROR_MSG =>
            Some {| resp_retcode := PAM_SUCCESS; resp := None |}
        | pam_style_other => None
        end in
      match reply with
      | None => None
      | Some r =>
          match pam_replies client rest with
          | Some replies => Some (r :: replies)
          | None => None
          end
      end
  end.

(** [pam_func]: the replies stored in [*resp] where the C code returns
    [PAM_SUCCESS], nothing where it returns [PAM_CONV_ERR] ([mem]: the
    array of the replies finds memory). *)
Definition pam_func (mem : bool) (client : cupsd_client_t)
    (msg : list pam_msg_style) : option (list pam_response) :=
  if negb mem then None else pam_replies client msg.

(* ================================================================== *)
(** * More words for the properties *)
(* ================================================================== *)

(** The stored length of the name of a mask is the length of the name. *)
Definition mask_wf (m : cupsd_authmask_t) : Prop :=
  match m with
  | AUTH_NAME name len => len = strlen name
  | AUTH_INTERFACE name len => len = strlen name
  | AUTH_IP _ _ => True
  end.

(** The client with another password, another location. *)
Definition with_password (con : cupsd_client_t) (pass : string)
  : cupsd_client_t :=
  {| http_hostname := http_hostname con;
     http_hostaddr := http_hostaddr con;
     http_state := http_state con;
     http_fields_authorization := http_fields_authorization con;
     http_tls := http_tls con;
     request := request con;
     uri := uri con;
     username := username con;
     password := pass;
     best := best con |}.

Definition with_best (con : cupsd_client_t)
    (loc : option cupsd_location_t) : cupsd_client_t :=
  {| http_hostname := http_hostname con;
     http_hostaddr := http_hostaddr con;
     http_state := http_state con;
     http_fields_authorization := http_fields_authorization con;
     http_tls := http_tls con;
     request := request con;
     uri := uri con;
     username := username con;
     password := password con;
     best := loc |}.

(** [r] is the first location of the table among those with the longest
    path that can govern the request: the locations before it that can
    govern have shorter paths, the locations after it have no longer
    ones. *)
Definition first_longest_governing (ci : bool) (uri : string)
    (state : http_state_t) (Locations : list cupsd_location_t)
    (r : option cupsd_location_t) : Prop :=
  match r with
  | None => forall loc, In loc Locations -> ~ governs ci uri state loc
  | Some x =>
      governs ci uri state x
      /\ exists before after,
           Locations = before ++ x :: after
           /\ (forall loc, In loc before -> governs ci uri state loc ->
                 length loc < length x)
           /\ (forall loc, In loc after -> governs ci uri state loc ->
                 length loc <= length x)
  end.

(** The invariant of the loop of [cupsdFindBest] for the order of the
    table. *)
Definition find_best_first_inv (uri : string) (state : http_state_t)
    (seen : list cupsd_location_t) (acc : option cupsd_location_t * Z)
  : Prop :=
  match fst acc with
  | None => snd acc = 0
  | Some x => snd acc = length x
  end
  /\ first_longest_governing (queue_uri uri) uri state seen (fst acc).

(** Two locations for the same path, the first for any valid user and
    the second for everybody. *)
Definition loc_dup_user : cupsd_location_t :=
  policy_location "/jobs" AUTH_ALLOW AUTH_BASIC AUTH_USER
    AUTH_SATISFY_ALL [] [] [] HTTP_ENCRYPT_IF_REQUESTED.

Definition loc_dup_anon : cupsd_location_t :=
  policy_location "/jobs" AUTH_ALLOW AUTH_NONE AUTH_ANON
    AUTH_SATISFY_ALL [] [] [] HTTP_ENCRYPT_IF_REQUESTED.

(** The address has a bit outside of the netmask, in one of the four
    words. *)
Definition stray_bits (address netmask : word4) : Prop :=
  let '(a0, a1, a2, a3) := address in
  let '(m0, m1, m2, m3) := netmask in
  Z.land a0 m0 <> a0 \/ Z.land a1 m1 <> a1
  \/ Z.land a2 m2 <> a2 \/ Z.land a3 m3 <> a3.

(** The address is in the network of the mask, word by word. *)
Definition in_network (ip address netmask : word4) : Prop :=
  let '(i0, i1, i2, i3) := ip in
  let '(a0, a1, a2, a3) := address in
  let '(m0, m1, m2, m3) := netmask in
  Z.land i0 m0 = a0 /\ Z.land i1 m1 = a1
  /\ Z.land i2 m2 = a2 /\ Z.land i3 m3 = a3.

(** The host name is the name of the mask, or the mask is a domain
    (it begins with a dot) and the host name ends in it, whatever the
    case of the letters. *)
Definition host_matches (hostname mname : string) : Prop :=
  lower hostname = lower mname
  \/ (first_char mname = "."%char
      /\ ends_with (lower hostname) (lower mname)).

(** An interface of the list is local and has the client in its
    network. *)
Definition on_local_netif (b : build_t) (ip : word4)
    (ifaces : list cupsd_netif_t) : Prop :=
  let '(ip0, ip1, ip2, ip3) := ip in
  exists iface,
    In iface ifaces
    /\ is_local iface <> 0
    /\ netif_match b (htonl b ip3)
         (htonl b ip0, htonl b ip1, htonl b ip2, htonl b ip3) iface
       = true.

(** Two interfaces: a local one on 192.168.1.0/24, and one that is not
    local on 10.0.0.0/8 (addresses in network byte order on the sample
    machine). *)
Definition netif_lan : cupsd_netif_t :=
  {| if_name := "eth0";
     is_local := 1;
     address := {| sa_family := 2; ipv4_s_addr := 0x0501A8C0;
                   ipv6_s6_addr32 := (0, 0, 0, 0) |};
     mask := {| sa_family := 2; ipv4_s_addr := 0x00FFFFFF;
                ipv6_s6_addr32 := (0, 0, 0, 0) |} |}.

Definition netif_wan : cupsd_netif_t :=
  {| if_name := "ppp0";
     is_local := 0;
     address := {| sa_family := 2; ipv4_s_addr := 0x0100000A;
                   ipv6_s6_addr32 := (0, 0, 0, 0) |};
     mask := {| sa_family := 2; ipv4_s_addr := 0x000000FF;
                ipv6_s6_addr32 := (0, 0, 0, 0) |} |}.

Definition world_netifs : world :=
  {| NetIFList := [netif_wan; netif_lan]; calls := [] |}.

(** The name of an interface mask fits the buffer [ifname] of
    [cupsdAllowHost] and [cupsdDenyHost]. *)
Definition interface_fits (m : cupsd_authmask_t) : Prop :=
  match m with
  | AUTH_INTERFACE name _ => (String.length name <= 31)%nat
  | _ => True
  end.

(** The locations that the functions of this file build: a record fresh
    from [cupsdAddLocation], then names, hosts and addresses added to
    it, with or without memory for them. *)
Inductive configured (b : build_t) : cupsd_location_t -> Prop :=
| configured_added (mem : bool) (Locations : list cupsd_location_t)
    (path : string) (loc : cupsd_location_t) :
    snd (cupsdAddLocation b mem Locations path) = Some loc ->
    configured b loc
| configured_name (mem_array mem_name : bool) (loc : cupsd_location_t)
    (name : string) :
    configured b loc ->
    configured b (cupsdAddName mem_array mem_name loc name)
| configured_allow_host (mem : bool) (loc loc' : cupsd_location_t)
    (name : string) :
    configured b loc -> cupsdAllowHost mem loc name = Some loc' ->
    configured b loc'
| configured_deny_host (mem : bool) (loc loc' : cupsd_location_t)
    (name : string) :
    configured b loc -> cupsdDenyHost mem loc name = Some loc' ->
    configured b loc'
| configured_allow_ip (mem : bool) (loc : cupsd_location_t)
    (address netmask : word4) :
    configured b loc -> configured b (cupsdAllowIP mem loc address netmask)
| configured_deny_ip (mem : bool) (loc : cupsd_location_t)
    (address netmask : word4) :
    configured b loc -> configured b (cupsdDenyIP mem loc address netmask).

(** Two locations with the same policy: all the fields but the path,
    its length and [op]. *)
Definition same_policy (loc loc' : cupsd_location_t) : Prop :=
  limit loc = limit loc'
  /\ order_type loc = order_type loc'
  /\ type loc = type loc'
  /\ level loc = level loc'
  /\ satisfy loc = satisfy loc'
  /\ names loc = names loc'
  /\ allow loc = allow loc'
  /\ deny loc = deny loc'
  /\ encryption loc = encryption loc'.

(** A client from the host [hostname], with no other field set. *)
Definition client_from (hostname : string) : cupsd_client_t :=
  sample_client hostname 0x0302010A "" "" "" None.

(** What [cupsdGetMD5Passwd] returns, without the call it records. *)
Definition md5_lookup (sys : system_t) (user : string)
    (grp : option string) : option string :=
  match cupsFile sys (passwd_md5_filename sys) with
  | None => None
  | Some lines => md5_scan_lines user grp lines
  end.

(** The line reads as three fields, for the user and, when one is given,
    the group. *)
Definition md5_line_for (user : string) (grp : option string)
    (line : string) : Prop :=
  exists g p,
    sscanf_md5_line line = (3, user, g, p)
    /\ (grp = None \/ grp = Some g).

(** What [cupsdCheckGroup] answers for a user and a group, without the
    calls. *)
Definition group_admits (sys : system_t) (user : string)
    (pw : option passwd) (g : string) : bool :=
  match getgrnam sys g with
  | Some gr => in_gr_mem user (gr_mem gr)
  | None => false
  end
  || match pw, getgrnam sys g with
     | Some p, Some gr => gr_gid gr =? pw_gid p
     | _, _ => false
     end
  || match md5_lookup sys user (Some g) with
     | Some _ => true
     | None => false
     end.

(** What one name of a location answers for a user, at the level
    [AUTH_USER] and at the level [AUTH_GROUP]. *)
Definition user_name_admits (sys : system_t) (user : string)
    (owner : option string) (pw : option passwd) (n : string) : bool :=
  if (strcasecmp n "@OWNER" =? 0)
     && match owner with
        | Some o => strcasecmp user o =? 0
        | None => false
        end
  then true
  else if strcasecmp n "@SYSTEM" =? 0
  then existsb (group_admits sys user pw) (SystemGroups sys)
  else if (first_char n =? "@")%char
  then group_admits sys user pw (str_from 1 n)
  else strcasecmp user n =? 0.

Definition group_name_admits (sys : system_t) (user : string)
    (pw : option passwd) (n : string) : bool :=
  if strcasecmp n "@SYSTEM" =? 0
  then existsb (group_admits sys user pw) (SystemGroups sys)
  else group_admits sys user pw n.

(** A build without PAM, with shadow passwords, and a system whose
    password file has dave, with an MD5 password. *)
Definition unix_build : build_t :=
  {| HTTP_MAX_URI := 1024;
     AF_INET := 2;
     AF_INET6 := None;
     big_endian := true;
     HAVE_SSL := false;
     os_auth := UNIX_PASSWD true |}.

Definition dave : passwd :=
  {| pw_name := "dave";
     pw_passwd := "$1$abcdefgh$......................";
     pw_gid := 100 |}.

Definition unix_system : system_t :=
  {| ServerName := ServerName sample_system;
     ServerRoot := ServerRoot sample_system;
     DefaultAuthType := DefaultAuthType sample_system;
     SystemGroups := SystemGroups sample_system;
     getpwnam := fun u => if String.eqb u "dave" then Some dave else None;
     getgrnam := getgrnam sample_system;
     getspnam := fun _ => None;
     cupsFile := cupsFile sample_system;
     pam_start := pam_start sample_system;
     pam_authenticate := pam_authenticate sample_system;
     pam_acct_mgmt := pam_acct_mgmt sample_system;
     authenticate := authenticate sample_system;
     crypt := crypt sample_system;
     md5_digest := md5_digest sample_system;
     cupsdNetIFUpdate := cupsdNetIFUpdate sample_system;
     NetIFFind := NetIFFind sample_system;
     httpGetSubField := httpGetSubField sample_system;
     httpMD5 := httpMD5 sample_system;
     httpMD5Final := httpMD5Final sample_system;
     ippFindAttribute := ippFindAttribute sample_system |}.

(** /lan for the local networks alone: Order Allow,Deny with the mask of
    [@LOCAL] allowed. *)
Definition loc_lan : cupsd_location_t :=
  policy_location "/lan" AUTH_DENY AUTH_NONE AUTH_ANON AUTH_SATISFY_ALL
    [] [AUTH_INTERFACE "*" 1] [] HTTP_ENCRYPT_IF_REQUESTED.

(* ================================================================== *)
(** * Properties of the C library functions *)
(* ================================================================== *)

Lemma char_cmp_neq (c1 c2 : ascii) : c1 <> c2 -> char_cmp c1 c2 <> 0.
Proof.
  intros Hne. unfold char_cmp.
  destruct (Ascii.compare c1 c2) eqn:E; try discriminate.
  elim Hne. now apply Ascii.compare_eq_iff.
Qed.

Lemma strcmp_refl (s : string) : strcmp s s = 0.
Proof.
  induction s as [|c r IH]; simpl; [reflexivity|].
  now rewrite Ascii.eqb_refl.
Qed.

Lemma strcmp_eq (s1 s2 : string) : strcmp s1 s2 = 0 <-> s1 = s2.
Proof.
  split; [|intros ->; apply strcmp_refl].
  revert s2; induction s1 as [|c1 r1 IH]; intros [|c2 r2]; simpl;
    try discriminate; try reflexivity.
  destruct (Ascii.eqb_spec c1 c2) as [->|Hne].
  - intros H. f_equal. now apply IH.
  - intros H. now apply char_cmp_neq in H.
Qed.

Lemma strcmp_eqb (s1 s2 : string) :
  (strcmp s1 s2 =? 0) = String.eqb s1 s2.
Proof.
  destruct (String.eqb_spec s1 s2) as [->|Hne].
  - rewrite strcmp_refl. reflexivity.
  - apply Z.eqb_neq. intros H. now apply strcmp_eq in H.
Qed.

Lemma strcasecmp_eq (s1 s2 : string) :
  strcasecmp s1 s2 = 0 <-> lower s1 = lower s2.
Proof. apply strcmp_eq. Qed.


Lemma lower_append (s1 s2 : string) :
  lower (s1 ++ s2) = (lower s1 ++ lower s2)%string.
Proof.
  induction s1 as [|c r IH]; simpl; [reflexivity|]. now rewrite IH.
Qed.

Lemma lower_length (s : string) :
  String.length (lower s) = String.length s.
Proof.
  induction s as [|c r IH]; simpl; [reflexivity|]. now rewrite IH.
Qed.

Lemma append_length (s1 s2 : string) :
  String.length (s1 ++ s2) = (String.length s1 + String.length s2)%nat.
Proof.
  induction s1 as [|c r IH]; simpl; [reflexivity|]. now rewrite IH.
Qed.

Lemma append_empty_r (s : string) : (s ++ "")%string = s.
Proof.
  induction s as [|c r IH]; simpl; [reflexivity|]. now rewrite IH.
Qed.

Lemma append_assoc (s1 s2 s3 : string) :
  ((s1 ++ s2) ++ s3 = s1 ++ (s2 ++ s3))%string.
Proof.
  induction s1 as [|c r IH]; simpl; [reflexivity|]. now rewrite IH.
Qed.

Lemma str_take_append (p q : string) :
  str_take (String.length p) (p ++ q) = p.
Proof.
  induction p as [|c r IH]; simpl.
  - destruct q; reflexivity.
  - now rewrite IH.
Qed.

Lemma str_from_append (p q : string) :
  str_from (String.length p) (p ++ q) = q.
Proof.
  induction p as [|c r IH]; simpl; [reflexivity|]. exact IH.
Qed.

Lemma str_take_all (n : nat) (s : string) :
  (String.length s <= n)%nat -> str_take n s = s.
Proof.
  revert n; induction s as [|c r IH]; intros [|n] H; simpl in *;
    try reflexivity; try lia.
  rewrite IH by lia. reflexivity.
Qed.

Lemma strlcpy_fits (s : string) (size : nat) :
  (String.length s < size)%nat -> strlcpy s size = s.
Proof. intros H. apply str_take_all. lia. Qed.

(** [strncmp] over the length of its second argument tests a prefix. *)
Lemma strncmp_prefix (s p : string) :
  strncmp s p (String.length p) = 0 <-> is_prefix p s.
Proof.
  revert s; induction p as [|c r IH]; intros s; simpl.
  - split; [intros _; now exists s | intros _; reflexivity].
  - destruct s as [|c' r']; simpl.
    + split; [discriminate | intros [rest H]; discriminate].
    + destruct (Ascii.eqb_spec c' c) as [->|Hne].
      * rewrite IH. split; intros [rest H]; exists rest.
        -- simpl. now rewrite H.
        -- simpl in H. now injection H.
      * split.
        -- intros H. now apply char_cmp_neq in H.
        -- intros [rest H]. simpl in H. injection H as H1 H2.
           now elim Hne.
Qed.

Lemma strncasecmp_prefix (s p : string) :
  strncasecmp s p (String.length p) = 0 <-> is_prefix (lower p) (lower s).
Proof.
  unfold strncasecmp. rewrite <- (lower_length p). apply strncmp_prefix.
Qed.

Lemma is_prefix_length (p s : string) :
  is_prefix p s -> (String.length p <= String.length s)%nat.
Proof. intros [rest ->]. rewrite append_length. lia. Qed.

Lemma is_prefix_lower (p s : string) :
  is_prefix p s -> is_prefix (lower p) (lower s).
Proof. intros [rest ->]. exists (lower rest). apply lower_append. Qed.

Lemma is_prefix_trans (p q s : string) :
  is_prefix p q -> is_prefix q s -> is_prefix p s.
Proof.
  intros [r1 ->] [r2 ->]. exists (r1 ++ r2)%string. apply append_assoc.
Qed.

Lemma is_prefix_first_char (p s : string) :
  is_prefix p s -> p <> "" -> first_char s = first_char p.
Proof.
  intros [rest ->] Hne. destruct p; [now elim Hne | reflexivity].
Qed.

Lemma str_take_from (n : nat) (s : string) :
  (str_take n s ++ str_from n s)%string = s.
Proof.
  revert s; induction n as [|n IH]; intros [|c r]; simpl;
    try reflexivity.
  now rewrite IH.
Qed.

Lemma is_prefix_strict_length (p q : string) :
  is_prefix p q -> p <> q -> (String.length p < String.length q)%nat.
Proof.
  intros [rest ->] Hne. rewrite append_length.
  destruct rest as [|c r]; simpl; [|lia].
  elim Hne. now rewrite append_empty_r.
Qed.

(** A prefix of [s ++ t] is a prefix of [s], or goes on into [t]. *)
Lemma is_prefix_append_cases (lit s t : string) :
  is_prefix lit (s ++ t) ->
  is_prefix lit s
  \/ exists l2, lit = (s ++ l2)%string /\ l2 <> "" /\ is_prefix l2 t.
Proof.
  revert s; induction lit as [|c r IH]; intros s [rest H].
  - left. now exists s.
  - destruct s as [|c' s'].
    + right. exists (String c r). simpl in *. repeat split.
      * discriminate.
      * now exists rest.
    + simpl in H. injection H as -> H.
      destruct (IH s') as [[r1 ->]|[l2 [-> [Hne Hp]]]].
      * now exists rest.
      * left. now exists r1.
      * right. exists l2. repeat split; assumption.
Qed.

(* ================================================================== *)
(** * Properties of cupsdFindBest *)
(* ================================================================== *)

Lemma queue_uri_spec (uri : string) :
  queue_uri uri = true
  <-> is_prefix "/printers/" uri \/ is_prefix "/classes/" uri.
Proof.
  unfold queue_uri. rewrite orb_true_iff, !Z.eqb_eq.
  change 10%nat with (String.length "/printers/").
  change 9%nat with (String.length "/classes/").
  now rewrite !strncmp_prefix.
Qed.

Lemma cupsdAddLocation_wf (b : build_t) (mem : bool)
    (Locations : list cupsd_location_t) (path : string)
    (loc : cupsd_location_t) :
  snd (cupsdAddLocation b mem Locations path) = Some loc -> loc_wf loc.
Proof.
  unfold cupsdAddLocation. destruct mem; cbn [negb snd]; [|discriminate].
  intros H. injection H as <-. reflexivity.
Qed.

Lemma governs_length_pos (ci : bool) (uri : string) (state : http_state_t)
    (loc : cupsd_location_t) :
  loc_wf loc -> governs ci uri state loc -> 0 < length loc.
Proof.
  intros Hwf (_ & Hc & _). rewrite Hwf.
  destruct (location loc); simpl in *; [discriminate | lia].
Qed.

Section FindBestLoop.

Variable uri : string.
Variable state : http_state_t.

(** Under the invariant of the table, the tests of the loop are the
    words [governs], for the comparison the URI selects. *)
Lemma find_best_step_spec (best0 : option cupsd_location_t) (bestlen : Z)
    (loc : cupsd_location_t) :
  loc_wf loc ->
  (length loc > bestlen
   /\ governs (queue_uri uri) uri state loc
   /\ find_best_step uri (limits state) (best0, bestlen) loc
      = (Some loc, length loc))
  \/ (~ (length loc > bestlen /\ governs (queue_uri uri) uri state loc)
      /\ find_best_step uri (limits state) (best0, bestlen) loc
         = (best0, bestlen)).
Proof.
  intros Hwf. unfold find_best_step, governs, path_matches, verb_allowed.
  assert (Hn : Z.to_nat (length loc) = String.length (location loc)).
  { rewrite Hwf. apply Nat2Z.id. }
  rewrite Hn.
  destruct (Z.gtb_spec (length loc) bestlen) as [Hgt|Hle]; simpl;
    [|right; split; [lia | now destruct (queue_uri uri)]].
  destruct (Ascii.eqb_spec (first_char (location loc)) "/"%char)
    as [Hc|Hc];
    [|right; rewrite !andb_false_r; simpl; split;
      [tauto | now destruct (queue_uri uri)]].
  destruct (Z.eqb_spec (Z.land (limits state) (limit loc)) 0) as [Hl|Hl];
    [right; rewrite !andb_false_r; split;
      [tauto | now destruct (queue_uri uri)]|].
  rewrite !andb_true_r.
  destruct (queue_uri uri).
  - destruct (Z.eqb_spec
                (strncasecmp uri (location loc)
                   (String.length (location loc))) 0) as [Hs|Hs].
    + left. rewrite strncasecmp_prefix in Hs. repeat split; auto; lia.
    + right. rewrite strncasecmp_prefix in Hs. tauto.
  - destruct (Z.eqb_spec
                (strncmp uri (location loc)
                   (String.length (location loc))) 0) as [Hs|Hs].
    + left. rewrite strncmp_prefix in Hs. repeat split; auto; lia.
    + right. rewrite strncmp_prefix in Hs. tauto.
Qed.

(** One turn of the loop keeps the invariant. *)
Lemma find_best_inv_step (seen : list cupsd_location_t)
    (acc : option cupsd_location_t * Z) (loc : cupsd_location_t) :
  loc_wf loc ->
  find_best_inv uri state seen acc ->
  find_best_inv uri state (seen ++ [loc])
    (find_best_step uri (limits state) acc loc).
Proof.
  intros Hwf Hinv. destruct acc as [best0 bestlen].
  destruct (find_best_step_spec best0 bestlen loc Hwf)
    as [(Hgt & Hg & ->)|(Hno & ->)];
    unfold find_best_inv in *; cbn [fst snd] in *.
  - split; [apply in_or_app; right; now left|].
    split; [exact Hg|]. split; [reflexivity|].
    intros l Hin Hgl. apply in_app_or in Hin.
    destruct Hin as [Hin|[<-|[]]]; [|lia].
    destruct best0 as [x|].
    + destruct Hinv as (_ & _ & Hlen & Hmax).
      specialize (Hmax l Hin Hgl). lia.
    + destruct Hinv as (_ & Hnone). now elim (Hnone l Hin).
  - destruct best0 as [x|].
    + destruct Hinv as (Hin & Hg & Hlen & Hmax).
      split; [apply in_or_app; now left|].
      split; [exact Hg|]. split; [exact Hlen|].
      intros l Hl Hgl. apply in_app_or in Hl.
      destruct Hl as [Hl|[<-|[]]]; [now apply Hmax|].
      assert (~ length loc > bestlen) by tauto. lia.
    + destruct Hinv as (Hlen & Hnone). split; [exact Hlen|].
      intros l Hl Hgl. apply in_app_or in Hl.
      destruct Hl as [Hl|[<-|[]]]; [now apply (Hnone l)|].
      apply Hno. split; [|exact Hgl].
      pose proof (governs_length_pos _ _ _ _ Hwf Hgl). lia.
Qed.

Lemma find_best_inv_fold (Locations : list cupsd_location_t) :
  Forall loc_wf Locations ->
  forall seen acc,
    find_best_inv uri state seen acc ->
    find_best_inv uri state (seen ++ Locations)
      (fold_left (find_best_step uri (limits state)) Locations acc).
Proof.
  induction 1 as [|loc rest Hwf _ IH]; intros seen acc Hinv; simpl.
  - now rewrite app_nil_r.
  - replace (seen ++ loc :: rest) with ((seen ++ [loc]) ++ rest)
      by (now rewrite <- app_assoc).
    apply IH. now apply find_best_inv_step.
Qed.

(** The loop returns a longest location among those that can govern
    the URI. *)
Lemma find_best_loop_longest (Locations : list cupsd_location_t) :
  Forall loc_wf Locations ->
  longest_governing (queue_uri uri) uri state Locations
    (find_best_loop Locations uri (limits state)).
Proof.
  intros Hwf.
  assert (H0 : find_best_inv uri state [] (None, 0)).
  { split; [reflexivity | intros l []]. }
  pose proof (find_best_inv_fold Locations Hwf [] (None, 0) H0) as Hinv.
  rewrite app_nil_l in Hinv.
  unfold find_best_loop, find_best_inv, longest_governing in *.
  destruct (fst (fold_left _ Locations (None, 0))) as [x|].
  - destruct Hinv as (Hin & Hg & _ & Hmax).
    split; [exact Hin|]. split; [exact Hg|].
    intros l Hl Hgl. specialize (Hmax l Hl Hgl).
    rewrite Forall_forall in Hwf.
    rewrite (Hwf l Hl), (Hwf x Hin) in Hmax. lia.
  - now destruct Hinv.
Qed.

End FindBestLoop.

Lemma path_matches_exact (ci : bool) (uri : string)
    (loc : cupsd_location_t) :
  is_prefix (location loc) uri -> path_matches ci uri loc.
Proof.
  intros H. destruct ci; simpl; [now apply is_prefix_lower | exact H].
Qed.

(** Of the two locations with the longest paths that match the URI, the
    path of the first a strict prefix of the path of the second, the
    second is the longest governing one exactly when its verb mask
    allows the request, and the first is when only its own mask does. *)
Lemma longest_of_two (ci : bool) (uri : string) (state : http_state_t)
    (Locations : list cupsd_location_t) (l1 l2 : cupsd_location_t)
    (r : option cupsd_location_t) :
  longest_governing ci uri state Locations r ->
  In l1 Locations -> In l2 Locations ->
  is_prefix (location l1) (location l2) ->
  location l1 <> location l2 ->
  is_prefix (location l2) uri ->
  first_char (location l1) = "/"%char ->
  (forall loc, In loc Locations -> path_matches ci uri loc ->
     loc = l1 \/ loc = l2
     \/ (String.length (location loc) < String.length (location l1))%nat) ->
  (r = Some l2 <-> verb_allowed state l2)
  /\ (~ verb_allowed state l2 -> verb_allowed state l1 -> r = Some l1).
Proof.
  intros Hr Hin1 Hin2 Hp12 Hne Hp2 Hc1 Honly.
  assert (Hlt : (String.length (location l1)
                 < String.length (location l2))%nat)
    by now apply is_prefix_strict_length.
  assert (Hc2 : first_char (location l2) = "/"%char).
  { rewrite (is_prefix_first_char _ _ Hp12); [exact Hc1|].
    intros E. rewrite E in Hc1. discriminate. }
  assert (Hm1 : path_matches ci uri l1).
  { apply path_matches_exact. now apply (is_prefix_trans _ _ _ Hp12). }
  assert (Hm2 : path_matches ci uri l2) by now apply path_matches_exact.
  assert (Hcases : forall x, r = Some x ->
            x = l1 \/ x = l2
            \/ (String.length (location x)
                < String.length (location l1))%nat).
  { intros x ->. destruct Hr as (Hin & (Hm & _) & _). now apply Honly. }
  split; [split|].
  - intros ->. now destruct Hr as (_ & (_ & _ & Hv) & _).
  - intros Hv. destruct r as [x|].
    + assert (Hg2 : governs ci uri state l2) by (repeat split; assumption).
      destruct Hr as (_ & _ & Hmax). specialize (Hmax l2 Hin2 Hg2).
      destruct (Hcases x eq_refl) as [-> | [-> | Hshort]];
        [lia | reflexivity | lia].
    + elim (Hr l2 Hin2). repeat split; assumption.
  - intros Hnv Hv. destruct r as [x|].
    + assert (Hg1 : governs ci uri state l1) by (repeat split; assumption).
      destruct Hr as (_ & (_ & _ & Hvx) & Hmax).
      specialize (Hmax l1 Hin1 Hg1).
      destruct (Hcases x eq_refl) as [-> | [-> | Hshort]];
        [reflexivity | now elim Hnv | lia].
    + elim (Hr l1 Hin1). repeat split; assumption.
Qed.

(** C3, as amended. For every request path and verb, on a table whose
    stored lengths are the lengths of the paths, [cupsdFindBest] returns
    a location of the table with the longest path among those whose path
    is a prefix of the URI it works on (the request path, without its
    [.ppd] extension under /printers/ and /classes/, where the letters
    are compared whatever their case), begins with ['/'] and has a verb
    mask that includes the verb of the request, and returns none when
    there is no such location.  In particular, for two locations [l1]
    and [l2] of the table, the path of [l1] a strict prefix of the path
    of [l2], both prefixes of the URI, the path of [l1] beginning with
    ['/'], and both longer than the path of every other location that
    matches, it returns [l2] if and only if the verb mask of [l2]
    includes the verb, and otherwise [l1] if the mask of [l1] does. *)
Theorem cupsdFindBest_longest_prefix :
  forall (b : build_t) (Locations : list cupsd_location_t)
         (path : string) (state : http_state_t),
    Forall loc_wf Locations ->
    longest_governing (queue_uri (find_best_uri b path))
      (find_best_uri b path) state Locations
      (cupsdFindBest b Locations path state)
    /\ forall l1 l2 : cupsd_location_t,
         In l1 Locations -> In l2 Locations ->
         is_prefix (location l1) (location l2) ->
         location l1 <> location l2 ->
         is_prefix (location l2) (find_best_uri b path) ->
         first_char (location l1) = "/"%char ->
         (forall loc, In loc Locations ->
            path_matches (queue_uri (find_best_uri b path))
              (find_best_uri b path) loc ->
            loc = l1 \/ loc = l2
            \/ (String.length (location loc)
                < String.length (location l1))%nat) ->
         (cupsdFindBest b Locations path state = Some l2
          <-> verb_allowed state l2)
         /\ (~ verb_allowed state l2 -> verb_allowed state l1 ->
             cupsdFindBest b Locations path state = Some l1).
Proof.
  intros b Locations path state Hwf.
  pose proof (find_best_loop_longest (find_best_uri b path) state
                Locations Hwf) as Hlong.
  split; [exact Hlong|].
  intros l1 l2. now apply longest_of_two.
Qed.

Lemma sample_location_wf (path : string) (lim : Z) :
  loc_wf (sample_location path lim).
Proof. reflexivity. Qed.

(** GET /admin/conf/x on the table [/; /admin/; /admin/conf/]: of the
    two longest matches, /admin/conf/ governs. *)
Lemma cupsdFindBest_longest_prefix_witness :
  Forall loc_wf [loc_root; loc_admin_get; loc_admin_conf]
  /\ (cupsdFindBest sample_build [loc_root; loc_admin_get; loc_admin_conf]
        "/admin/conf/x" HTTP_GET = Some loc_admin_conf
      <-> verb_allowed HTTP_GET loc_admin_conf).
Proof.
  assert (Hwf : Forall loc_wf [loc_root; loc_admin_get; loc_admin_conf]).
  { repeat constructor. }
  split; [exact Hwf|].
  refine (proj1 (proj2 (cupsdFindBest_longest_prefix sample_build
                          [loc_root; loc_admin_get; loc_admin_conf]
                          "/admin/conf/x" HTTP_GET Hwf)
                   loc_admin_get loc_admin_conf _ _ _ _ _ _ _)).
  - right. now left.
  - right. right. now left.
  - now exists "conf/".
  - discriminate.
  - now exists "x".
  - reflexivity.
  - intros loc [<-|[<-|[<-|[]]]] _.
    + right. right. simpl. lia.
    + now left.
    + right. now left.
Defined.

(** C3, as stated, fails in three ways.  With a third location that is
    longer than the two and matches, neither of the two is returned:
    on [/; /admin/; /admin/conf/], GET /admin/conf/x, for the prefixes /
    and /admin/ whose verb masks both include GET, the answer is
    /admin/conf/.  A path that does not begin with ['/'] never governs:
    the location with the empty path, a prefix of every request path
    and with GET in its verb mask, is not returned when /admin/ does not
    take GET.  And under /printers/ and /classes/ the location returned
    need not be a prefix of the request path as the bytes are:
    /printers/foo governs /printers/FOO/x. *)
Lemma cupsdFindBest_two_locations_counterexample :
  (In loc_root [loc_root; loc_admin_get; loc_admin_conf]
   /\ In loc_admin_get [loc_root; loc_admin_get; loc_admin_conf]
   /\ is_prefix (location loc_root) (location loc_admin_get)
   /\ location loc_root <> location loc_admin_get
   /\ is_prefix (location loc_admin_get) "/admin/conf/x"
   /\ verb_allowed HTTP_GET loc_admin_get
   /\ verb_allowed HTTP_GET loc_root
   /\ cupsdFindBest sample_build [loc_root; loc_admin_get; loc_admin_conf]
        "/admin/conf/x" HTTP_GET = Some loc_admin_conf
   /\ cupsdFindBest sample_build [loc_root; loc_admin_get; loc_admin_conf]
        "/admin/conf/x" HTTP_GET <> Some loc_admin_get)
  /\ (is_prefix "" "/admin/"
      /\ is_prefix "/admin/" "/admin/x"
      /\ ~ verb_allowed HTTP_GET (sample_location "/admin/" AUTH_LIMIT_POST)
      /\ verb_allowed HTTP_GET (sample_location "" AUTH_LIMIT_GET)
      /\ cupsdFindBest sample_build
           [sample_location "" AUTH_LIMIT_GET;
            sample_location "/admin/" AUTH_LIMIT_POST]
           "/admin/x" HTTP_GET = None)
  /\ (cupsdFindBest sample_build [loc_printers_foo] "/printers/FOO/x"
        HTTP_GET = Some loc_printers_foo
      /\ ~ is_prefix (location loc_printers_foo) "/printers/FOO/x").
Proof.
  split; [|split].
  - split; [now left|]. split; [right; now left|].
    split; [now exists "admin/"|]. split; [discriminate|].
    split; [now exists "conf/x"|]. split; [discriminate|].
    split; [discriminate|]. split; [reflexivity | discriminate].
  - split; [now exists "/admin/"|]. split; [now exists "x"|].
    split; [intros H; now apply H|]. split; [discriminate | reflexivity].
  - split; [reflexivity|]. intros [rest H]. discriminate H.
Qed.

Example cupsdFindBest_sample_get :
  cupsdFindBest sample_build [loc_root; loc_admin_get] "/admin/x" HTTP_GET
  = Some loc_admin_get.
Proof. reflexivity. Qed.

Example cupsdFindBest_sample_post :
  cupsdFindBest sample_build [loc_root; loc_admin_get] "/admin/x" HTTP_POST
  = Some loc_root.
Proof. reflexivity. Qed.

(** The bytes of [lit] that a string [l2] takes from [".ppd"] start
    with a dot; the two queue prefixes have none. *)
Ltac literal_without_dot H Hne Hp :=
  repeat
    (match type of H with
     | _ = (?p ++ _)%string =>
         destruct p as [|? p]; simpl in H;
         [ subst; destruct Hp as [? Hp]; simpl in Hp;
           try discriminate; now elim Hne
         | try discriminate; injection H as _ H ]
     end).

Lemma is_prefix_printers_ppd (p : string) :
  is_prefix "/printers/" (p ++ ".ppd") -> is_prefix "/printers/" p.
Proof.
  intros H. apply is_prefix_append_cases in H.
  destruct H as [H|(l2 & H & Hne & Hp)]; [exact H|].
  exfalso. literal_without_dot H Hne Hp.
Qed.

Lemma is_prefix_classes_ppd (p : string) :
  is_prefix "/classes/" (p ++ ".ppd") -> is_prefix "/classes/" p.
Proof.
  intros H. apply is_prefix_append_cases in H.
  destruct H as [H|(l2 & H & Hne & Hp)]; [exact H|].
  exfalso. literal_without_dot H Hne Hp.
Qed.

Lemma queue_uri_ppd (p : string) :
  queue_uri (p ++ ".ppd") = true -> queue_uri p = true.
Proof.
  rewrite !queue_uri_spec. intros [H|H].
  - left. now apply is_prefix_printers_ppd.
  - right. now apply is_prefix_classes_ppd.
Qed.

(** Under /printers/ and /classes/ one [.ppd] extension is dropped. *)
Lemma find_best_uri_ppd (b : build_t) (p : string) :
  (String.length (p ++ ".ppd") < HTTP_MAX_URI b)%nat ->
  queue_uri (p ++ ".ppd") = true ->
  find_best_uri b (p ++ ".ppd") = p.
Proof.
  intros Hfit Hq. unfold find_best_uri.
  rewrite (strlcpy_fits _ _ Hfit), Hq.
  replace (String.length (p ++ ".ppd") - 4)%nat with (String.length p)
    by (rewrite append_length; simpl; lia).
  rewrite str_from_append, str_take_append. reflexivity.
Qed.

(** A path that does not end in [.ppd] is the URI as it is. *)
Lemma find_best_uri_same (b : build_t) (path : string) :
  (String.length path < HTTP_MAX_URI b)%nat ->
  ~ ends_with path ".ppd" ->
  find_best_uri b path = path.
Proof.
  intros Hfit Hnot. unfold find_best_uri.
  rewrite (strlcpy_fits _ _ Hfit).
  destruct (queue_uri path); [|reflexivity].
  destruct (Z.eqb_spec
              (strcmp (str_from (String.length path - 4) path) ".ppd") 0)
    as [H|H]; [|reflexivity].
  elim Hnot. apply strcmp_eq in H.
  exists (str_take (String.length path - 4) path).
  rewrite <- H. symmetry. apply str_take_from.
Qed.

(** Outside /printers/ and /classes/ the path is the URI as it is. *)
Lemma find_best_uri_other (b : build_t) (path : string) :
  (String.length path < HTTP_MAX_URI b)%nat ->
  queue_uri path = false ->
  find_best_uri b path = path.
Proof.
  intros Hfit Hq. unfold find_best_uri.
  now rewrite (strlcpy_fits _ _ Hfit), Hq.
Qed.

(** C9, as amended. For every request path that fits the URI buffer,
    begins with "/printers/" or "/classes/" and ends in ".ppd",
    [cupsdFindBest] scans the locations for the path without this one
    four-byte suffix: it behaves as on the shortened path whenever the
    shortened path does not end in ".ppd" again, and the comparison
    with the paths of the locations is then case-insensitive.  For every
    path that fits the buffer and begins with neither prefix, no suffix
    is stripped and the comparison is case-sensitive. *)
Theorem cupsdFindBest_ppd_extension :
  forall (b : build_t) (Locations : list cupsd_location_t)
         (state : http_state_t),
    Forall loc_wf Locations ->
    (forall p : string,
        (String.length (p ++ ".ppd") < HTTP_MAX_URI b)%nat ->
        is_prefix "/printers/" (p ++ ".ppd")
        \/ is_prefix "/classes/" (p ++ ".ppd") ->
        find_best_uri b (p ++ ".ppd") = p
        /\ cupsdFindBest b Locations (p ++ ".ppd") state
           = find_best_loop Locations p (limits state)
        /\ (~ ends_with p ".ppd" ->
            cupsdFindBest b Locations (p ++ ".ppd") state
            = cupsdFindBest b Locations p state)
        /\ longest_governing true p state Locations
             (cupsdFindBest b Locations (p ++ ".ppd") state))
    /\ (forall path : string,
          (String.length path < HTTP_MAX_URI b)%nat ->
          ~ is_prefix "/printers/" path ->
          ~ is_prefix "/classes/" path ->
          find_best_uri b path = path
          /\ longest_governing false path state Locations
               (cupsdFindBest b Locations path state)).
Proof.
  intros b Locations state Hwf. split.
  - intros p Hfit Hqueue.
    apply queue_uri_spec in Hqueue.
    pose proof (find_best_uri_ppd b p Hfit Hqueue) as Huri.
    pose proof (queue_uri_ppd p Hqueue) as Hq.
    unfold cupsdFindBest. rewrite Huri.
    split; [reflexivity|]. split; [reflexivity|]. split.
    + intros Hnot. rewrite find_best_uri_same; [reflexivity| |exact Hnot].
      rewrite append_length in Hfit. lia.
    + rewrite <- Hq. now apply find_best_loop_longest.
  - intros path Hfit Hp Hc.
    assert (Hq : queue_uri path = false).
    { destruct (queue_uri path) eqn:E; [|reflexivity].
      apply queue_uri_spec in E. tauto. }
    pose proof (find_best_uri_other b path Hfit Hq) as Huri.
    unfold cupsdFindBest. rewrite Huri. split; [reflexivity|].
    rewrite <- Hq. now apply find_best_loop_longest.
Qed.

(** GET /printers/FOO.ppd and /admin/foo.ppd on single locations. *)
Lemma cupsdFindBest_ppd_extension_witness :
  Forall loc_wf [loc_printers_foo]
  /\ find_best_uri sample_build ("/printers/FOO" ++ ".ppd")
     = "/printers/FOO"
  /\ cupsdFindBest sample_build [loc_printers_foo]
       ("/printers/FOO" ++ ".ppd") HTTP_GET
     = cupsdFindBest sample_build [loc_printers_foo] "/printers/FOO"
         HTTP_GET
  /\ find_best_uri sample_build "/admin/foo.ppd" = "/admin/foo.ppd".
Proof.
  assert (Hwf : Forall loc_wf [loc_printers_foo]).
  { repeat constructor. }
  pose proof (cupsdFindBest_ppd_extension sample_build [loc_printers_foo]
                HTTP_GET Hwf) as [Hq Ho].
  split; [exact Hwf|].
  assert (Hfit : (String.length ("/printers/FOO" ++ ".ppd")
                  < HTTP_MAX_URI sample_build)%nat)
    by (simpl; lia).
  assert (Hpre : is_prefix "/printers/" ("/printers/FOO" ++ ".ppd")
                 \/ is_prefix "/classes/" ("/printers/FOO" ++ ".ppd"))
    by (left; now exists "FOO.ppd").
  destruct (Hq "/printers/FOO" Hfit Hpre) as (Huri & _ & Hsame & _).
  split; [exact Huri|]. split.
  - apply Hsame. intros [front H].
    do 14 (destruct front as [|? front]; simpl in H; try discriminate).
  - apply Ho; [simpl; lia | |]; intros [rest H]; discriminate.
Defined.

(** C9, as stated, fails on a path that ends in ".ppd.ppd": only the
    last suffix is dropped, and the location /printers/a.ppd governs
    /printers/a.ppd.ppd but not /printers/a.ppd. *)
Lemma cupsdFindBest_ppd_counterexample :
  is_prefix "/printers/" "/printers/a.ppd.ppd"
  /\ "/printers/a.ppd.ppd" = ("/printers/a.ppd" ++ ".ppd")%string
  /\ cupsdFindBest sample_build [loc_printers_a_ppd]
       "/printers/a.ppd.ppd" HTTP_GET = Some loc_printers_a_ppd
  /\ cupsdFindBest sample_build [loc_printers_a_ppd]
       "/printers/a.ppd" HTTP_GET = None
  /\ cupsdFindBest sample_build [loc_printers_a_ppd]
       "/printers/a.ppd.ppd" HTTP_GET
     <> cupsdFindBest sample_build [loc_printers_a_ppd]
          "/printers/a.ppd" HTTP_GET.
Proof.
  split; [now exists "a.ppd.ppd"|].
  split; [reflexivity|]. split; [reflexivity|]. split; [reflexivity|].
  discriminate.
Qed.

(** Scenario S3: GET /printers/FOO.ppd selects /printers/foo. *)
Example cupsdFindBest_FOO_ppd :
  cupsdFindBest sample_build [loc_printers_foo] "/printers/FOO.ppd"
    HTTP_GET = Some loc_printers_foo.
Proof. reflexivity. Qed.

(** /admin/foo.ppd keeps its suffix and its case. *)
Example cupsdFindBest_admin_foo_ppd :
  cupsdFindBest sample_build [loc_admin_foo] "/admin/foo.ppd" HTTP_GET
  = Some loc_admin_foo
  /\ cupsdFindBest sample_build [loc_admin_foo] "/admin/FOO.ppd" HTTP_GET
     = None.
Proof. split; reflexivity. Qed.

(* ================================================================== *)
(** * The calls that a computation makes *)
(* ================================================================== *)

Lemma calls_added_refl (ok : os_call -> bool) (w : world) :
  calls_added ok w w.
Proof. now exists []. Qed.

Lemma calls_added_trans (ok : os_call -> bool) (w1 w2 w3 : world) :
  calls_added ok w1 w2 -> calls_added ok w2 w3 -> calls_added ok w1 w3.
Proof.
  intros (e1 & H1 & F1) (e2 & H2 & F2). exists (e2 ++ e1). split.
  - now rewrite H2, H1, app_assoc.
  - rewrite forallb_app. now rewrite F1, F2.
Qed.

Lemma calls_only_ret {A : Type} (ok : os_call -> bool) (a : A) :
  calls_only ok (ret a).
Proof. intros w. apply calls_added_refl. Qed.

Lemma calls_only_bind {A B : Type} (ok : os_call -> bool) (m : M A)
    (k : A -> M B) :
  calls_only ok m -> (forall a, calls_only ok (k a)) ->
  calls_only ok (bind m k).
Proof.
  intros Hm Hk w. unfold bind. specialize (Hm w).
  destruct (m w) as [a w1]. specialize (Hk a w1).
  exact (calls_added_trans ok w w1 _ Hm Hk).
Qed.

Lemma calls_only_record (ok : os_call -> bool) (c : os_call) :
  ok c = true -> calls_only ok (record_call c).
Proof.
  intros Hc w. exists [c]. split; [reflexivity|].
  simpl. now rewrite Hc.
Qed.

(** A computation that leaves the calls as they are. *)
Lemma calls_only_silent {A : Type} (ok : os_call -> bool) (m : M A) :
  (forall w, calls (snd (m w)) = calls w) -> calls_only ok m.
Proof. intros H w. exists []. split; [apply H | reflexivity]. Qed.

Create HintDb calls_db.

#[local] Hint Resolve calls_only_ret calls_only_record : calls_db.

(** The footprint of a computation, along its binds and its tests. *)
Ltac calls_step :=
  first
    [ apply calls_only_ret
    | apply calls_only_record; reflexivity
    | apply calls_only_bind; [|intros ?]
    | match goal with
      | |- calls_only _ (if ?c then _ else _) => destruct c
      | |- calls_only _ (match ?x with _ => _ end) => destruct x
      end
    | solve [auto with calls_db] ].

Ltac calls_tac := repeat calls_step.

Lemma do_NetIFUpdate_calls (sys : system_t) :
  calls_only netif_call (do_NetIFUpdate sys).
Proof. intros w. now exists [call_NetIFUpdate]. Qed.

Lemma do_NetIFFind_calls (sys : system_t) (ifname : string) :
  calls_only netif_call (do_NetIFFind sys ifname).
Proof.
  intros w. unfold do_NetIFFind.
  destruct (NetIFFind sys ifname (NetIFList w)) as [r l].
  now exists [call_NetIFFind ifname].
Qed.

#[local] Hint Resolve do_NetIFUpdate_calls do_NetIFFind_calls : calls_db.

Lemma check_mask_calls (b : build_t) (sys : system_t) (ip : word4)
    (hostname : string) (name_len : Z) (m : cupsd_authmask_t) :
  calls_only netif_call (check_mask b sys ip hostname name_len m).
Proof.
  destruct m as [mname mlen|[[[a0 a1] a2] a3] [[[m0 m1] m2] m3]|mname mlen];
    destruct ip as [[[ip0 ip1] ip2] ip3]; unfold check_mask.
  - calls_tac.
  - calls_tac.
  - destruct (strcmp mname "*" =? 0).
    + apply calls_only_bind; [auto with calls_db | intros _].
      now apply calls_only_silent.
    + calls_tac.
Qed.

#[local] Hint Resolve check_mask_calls : calls_db.

Lemma cupsdCheckAuth_calls (b : build_t) (sys : system_t) (ip : word4)
    (hostname : string) (name_len : Z) (masks : list cupsd_authmask_t) :
  calls_only netif_call (cupsdCheckAuth b sys ip hostname name_len masks).
Proof.
  induction masks as [|m rest IH]; cbn [cupsdCheckAuth]; calls_tac.
Qed.

#[local] Hint Resolve cupsdCheckAuth_calls : calls_db.

(** The host check calls nothing but the interface registry. *)
Lemma check_host_calls (b : build_t) (sys : system_t)
    (con : cupsd_client_t) (loc : cupsd_location_t) :
  calls_only netif_call (check_host b sys con loc).
Proof. unfold check_host. calls_tac. Qed.

Lemma cupsdGetMD5Passwd_calls (sys : system_t) (user : string)
    (grp : option string) :
  calls_only not_group_call (cupsdGetMD5Passwd sys user grp).
Proof. unfold cupsdGetMD5Passwd. calls_tac. Qed.

#[local] Hint Resolve cupsdGetMD5Passwd_calls : calls_db.

Lemma md5_of_groups_calls (sys : system_t) (user : string)
    (groups : list string) :
  calls_only not_group_call (md5_of_groups sys user groups).
Proof.
  induction groups as [|g rest IH]; cbn [md5_of_groups]; calls_tac.
Qed.

#[local] Hint Resolve md5_of_groups_calls : calls_db.

Lemma md5_of_names_calls (sys : system_t) (user : string)
    (nms : list string) :
  calls_only not_group_call (md5_of_names sys user nms).
Proof.
  induction nms as [|n rest IH]; cbn [md5_of_names]; calls_tac.
Qed.

#[local] Hint Resolve md5_of_names_calls : calls_db.

Lemma find_md5_calls (sys : system_t) (con : cupsd_client_t)
    (loc : cupsd_location_t) :
  calls_only not_group_call (find_md5 sys con loc).
Proof. unfold find_md5. calls_tac. Qed.

#[local] Hint Resolve find_md5_calls : calls_db.

(** The check of the password looks no group up in the system. *)
Lemma check_password_calls (b : build_t) (sys : system_t)
    (con : cupsd_client_t) (loc : cupsd_location_t) :
  calls_only not_group_call (check_password b sys con loc).
Proof.
  unfold check_password, auth_basic, auth_digest, auth_basicdigest,
    basic_pam, basic_usersec, basic_unix, do_getpwnam, do_getspnam.
  calls_tac.
Qed.

Lemma netif_call_not_group (evs : list os_call) :
  forallb netif_call evs = true -> forallb not_group_call evs = true.
Proof.
  induction evs as [|c rest IH]; simpl; [reflexivity|].
  intros H. apply andb_prop in H. destruct H as [Hc Hr].
  rewrite (IH Hr). now destruct c.
Qed.

Lemma calls_added_netif_not_group (w w' : world) :
  calls_added netif_call w w' -> calls_added not_group_call w w'.
Proof.
  intros (evs & H & F). exists evs. split; [exact H|].
  now apply netif_call_not_group.
Qed.

(* ================================================================== *)
(** * Properties of the host check *)
(* ================================================================== *)

Lemma ntohl_htonl_10_1_2_3 (b : build_t) :
  ntohl b (htonl b 0x0A010203) = 0x0A010203.
Proof. unfold ntohl, htonl. now destruct (big_endian b). Qed.

(** The address words of an IPv4 client. *)
Lemma peer_address_ipv4 (b : build_t) (hostaddr : http_addr_t) :
  AF_INET6 b <> Some (AF_INET b) ->
  sa_family hostaddr = AF_INET b ->
  peer_address b hostaddr = (0, 0, 0, ntohl b (ipv4_s_addr hostaddr)).
Proof.
  intros Hfam Hinet. unfold peer_address. rewrite Hinet, Z.eqb_refl.
  destruct (AF_INET6 b) as [af|]; [|reflexivity].
  destruct (Z.eqb_spec (AF_INET b) af) as [E|E]; [|reflexivity].
  elim Hfam. now rewrite E.
Qed.

(** From localhost the host check allows, whatever the lists are, and
    makes no call. *)
Lemma check_host_localhost (b : build_t) (sys : system_t)
    (con : cupsd_client_t) (loc : cupsd_location_t) (w : world) :
  strcasecmp (http_hostname con) "localhost" = 0 ->
  check_host b sys con loc w = (AUTH_ALLOW, w).
Proof. intros H. unfold check_host. now rewrite H. Qed.

(** The two orders, by what the two lists answer in their turn. *)
Lemma check_host_order (b : build_t) (sys : system_t)
    (con : cupsd_client_t) (loc : cupsd_location_t) (w : world) :
  strcasecmp (http_hostname con) "localhost" <> 0 ->
  let check := cupsdCheckAuth b sys (peer_address b (http_hostaddr con))
                 (http_hostname con)
                 (Z.of_nat (String.length (http_hostname con))) in
  (order_type loc = AUTH_ALLOW ->
   check_host b sys con loc w
   = let (denied, w1) := check (deny loc) w in
     let (allowed, w2) := check (allow loc) w1 in
     (if allowed then AUTH_ALLOW
      else if denied then AUTH_DENY else AUTH_ALLOW, w2))
  /\ (order_type loc = AUTH_DENY ->
      check_host b sys con loc w
      = let (allowed, w1) := check (allow loc) w in
        let (denied, w2) := check (deny loc) w1 in
        (if denied then AUTH_DENY
         else if allowed then AUTH_ALLOW else AUTH_DENY, w2)).
Proof.
  intros Hname check. apply Z.eqb_neq in Hname.
  unfold check_host, bind, ret. rewrite Hname. subst check.
  split; intros ->; cbn [Z.eqb AUTH_ALLOW AUTH_DENY Pos.eqb];
    repeat match goal with
           | |- context [cupsdCheckAuth ?x1 ?x2 ?x3 ?x4 ?x5 ?x6 ?x7] =>
               destruct (cupsdCheckAuth x1 x2 x3 x4 x5 x6 x7)
           end;
    reflexivity.
Qed.

(** C2. For a client whose host name is not localhost, the host check
    is the order of the location applied to what [cupsdCheckAuth]
    answers on its two lists.  Under Order Deny,Allow it starts with
    allow, a match of the deny list makes it deny, then a match of the
    allow list, looked at last, makes it allow.  Under Order Allow,Deny
    it starts with deny, a match of the allow list makes it allow, then
    a match of the deny list, looked at last, makes it deny.  So, for a
    location with the allow list [10.0.0.0/8] and the deny list
    [10.1.0.0/16], each list matches the addresses of its network and
    no other; for a client at 10.1.2.3 both match, and the host check
    yields [AUTH_ALLOW] under Order Deny,Allow and [AUTH_DENY] under
    Order Allow,Deny, whatever the upper words of the two netmasks are,
    and no call leaves the scheduler. *)
Theorem check_host_order_precedence :
  forall (b : build_t) (sys : system_t) (con : cupsd_client_t)
         (loc : cupsd_location_t) (w : world),
    strcasecmp (http_hostname con) "localhost" <> 0 ->
    let ip := peer_address b (http_hostaddr con) in
    let check :=
      cupsdCheckAuth b sys ip (http_hostname con)
        (Z.of_nat (String.length (http_hostname con))) in
    (order_type loc = AUTH_ALLOW ->
     check_host b sys con loc w
     = let (deny_matches, w1) := check (deny loc) w in
       let (allow_matches, w2) := check (allow loc) w1 in
       let start := AUTH_ALLOW in
       let after_deny := if deny_matches then AUTH_DENY else start in
       (if allow_matches then AUTH_ALLOW else after_deny, w2))
    /\ (order_type loc = AUTH_DENY ->
        check_host b sys con loc w
        = let (allow_matches, w1) := check (allow loc) w in
          let (deny_matches, w2) := check (deny loc) w1 in
          let start := AUTH_DENY in
          let after_allow := if allow_matches then AUTH_ALLOW else start in
          (if deny_matches then AUTH_DENY else after_allow, w2))
    /\ (forall m0 m1 m2 n0 n1 n2 : Z,
          allow loc
          = [AUTH_IP (0, 0, 0, 0x0A000000) (m0, m1, m2, 0xFF000000)] ->
          deny loc
          = [AUTH_IP (0, 0, 0, 0x0A010000) (n0, n1, n2, 0xFFFF0000)] ->
          (forall x : Z,
             ip = (0, 0, 0, x) ->
             check (allow loc) w
             = (Z.land x 0xFF000000 =? 0x0A000000, w)
             /\ check (deny loc) w
                = (Z.land x 0xFFFF0000 =? 0x0A010000, w))
          /\ (AF_INET6 b <> Some (AF_INET b) ->
              sa_family (http_hostaddr con) = AF_INET b ->
              ipv4_s_addr (http_hostaddr con) = htonl b 0x0A010203 ->
              ip = (0, 0, 0, 0x0A010203)
              /\ (order_type loc = AUTH_ALLOW ->
                  check_host b sys con loc w = (AUTH_ALLOW, w))
              /\ (order_type loc = AUTH_DENY ->
                  check_host b sys con loc w = (AUTH_DENY, w)))).
Proof.
  intros b sys con loc w Hname. cbv zeta.
  assert (Hgen :
    (order_type loc = AUTH_ALLOW ->
     check_host b sys con loc w
     = let (deny_matches, w1) :=
         cupsdCheckAuth b sys (peer_address b (http_hostaddr con))
           (http_hostname con)
           (Z.of_nat (String.length (http_hostname con))) (deny loc) w in
       let (allow_matches, w2) :=
         cupsdCheckAuth b sys (peer_address b (http_hostaddr con))
           (http_hostname con)
           (Z.of_nat (String.length (http_hostname con))) (allow loc) w1 in
       (if allow_matches then AUTH_ALLOW
        else if deny_matches then AUTH_DENY else AUTH_ALLOW, w2))
    /\ (order_type loc = AUTH_DENY ->
        check_host b sys con loc w
        = let (allow_matches, w1) :=
            cupsdCheckAuth b sys (peer_address b (http_hostaddr con))
              (http_hostname con)
              (Z.of_nat (String.length (http_hostname con))) (allow loc)
              w in
          let (deny_matches, w2) :=
            cupsdCheckAuth b sys (peer_address b (http_hostaddr con))
              (http_hostname con)
              (Z.of_nat (String.length (http_hostname con))) (deny loc)
              w1 in
          (if deny_matches then AUTH_DENY
           else if allow_matches then AUTH_ALLOW else AUTH_DENY, w2))).
  { pose proof Hname as Hne. apply Z.eqb_neq in Hne.
    unfold check_host, bind, ret. rewrite Hne.
    split; intros ->; cbn [Z.eqb AUTH_ALLOW AUTH_DENY Pos.eqb];
      repeat match goal with
             | |- context [cupsdCheckAuth ?x1 ?x2 ?x3 ?x4 ?x5 ?x6 ?x7] =>
                 destruct (cupsdCheckAuth x1 x2 x3 x4 x5 x6 x7)
             end;
      reflexivity. }
  destruct Hgen as [Hallow_last Hdeny_last].
  split; [exact Hallow_last|]. split; [exact Hdeny_last|].
  intros m0 m1 m2 n0 n1 n2 Hallow Hdeny.
  assert (Hlists : forall x : Z,
            peer_address b (http_hostaddr con) = (0, 0, 0, x) ->
            cupsdCheckAuth b sys (peer_address b (http_hostaddr con))
              (http_hostname con)
              (Z.of_nat (String.length (http_hostname con)))
              (allow loc) w
            = (Z.land x 0xFF000000 =? 0x0A000000, w)
            /\ cupsdCheckAuth b sys (peer_address b (http_hostaddr con))
                 (http_hostname con)
                 (Z.of_nat (String.length (http_hostname con)))
                 (deny loc) w
               = (Z.land x 0xFFFF0000 =? 0x0A010000, w)).
  { intros x ->. rewrite Hallow, Hdeny.
    cbn [cupsdCheckAuth check_mask]. unfold bind, ret.
    rewrite !Z.land_0_l. cbn [Z.eqb andb].
    split.
    - now destruct (Z.land x 0xFF000000 =? 0x0A000000).
    - now destruct (Z.land x 0xFFFF0000 =? 0x0A010000). }
  split; [exact Hlists|].
  intros Hfam Hinet Haddr.
  assert (Hip : peer_address b (http_hostaddr con)
                = (0, 0, 0, 0x0A010203)).
  { now rewrite (peer_address_ipv4 b _ Hfam Hinet), Haddr,
      ntohl_htonl_10_1_2_3. }
  destruct (Hlists _ Hip) as [Ha Hd].
  split; [exact Hip|]. split; intros Ho.
  - rewrite (Hallow_last Ho), Hd, Ha. reflexivity.
  - rewrite (Hdeny_last Ho), Ha, Hd. reflexivity.
Qed.

(** The client 10.1.2.3 and the two locations of the two orders. *)
Lemma check_host_order_precedence_witness :
  check_host sample_build sample_system
    (sample_client "10.1.2.3" s_addr_10_1_2_3 "" "" "" None)
    (policy_location "/" AUTH_ALLOW AUTH_NONE AUTH_ANON AUTH_SATISFY_ALL
       [] [mask_10_8] [mask_10_1_16] HTTP_ENCRYPT_IF_REQUESTED)
    world0 = (AUTH_ALLOW, world0)
  /\ check_host sample_build sample_system
       (sample_client "10.1.2.3" s_addr_10_1_2_3 "" "" "" None)
       (policy_location "/" AUTH_DENY AUTH_NONE AUTH_ANON AUTH_SATISFY_ALL
          [] [mask_10_8] [mask_10_1_16] HTTP_ENCRYPT_IF_REQUESTED)
       world0 = (AUTH_DENY, world0).
Proof.
  assert (Hname : strcasecmp "10.1.2.3" "localhost" <> 0)
    by discriminate.
  assert (Hfam : AF_INET6 sample_build <> Some (AF_INET sample_build))
    by discriminate.
  split.
  - exact (proj1 (proj2
             (proj2 (proj2 (proj2
                (check_host_order_precedence sample_build sample_system
                   (sample_client "10.1.2.3" s_addr_10_1_2_3 "" "" ""
                      None)
                   (policy_location "/" AUTH_ALLOW AUTH_NONE AUTH_ANON
                      AUTH_SATISFY_ALL [] [mask_10_8] [mask_10_1_16]
                      HTTP_ENCRYPT_IF_REQUESTED)
                   world0 Hname))
                0 0 0 0 0 0 eq_refl eq_refl) Hfam eq_refl eq_refl))
             eq_refl).
  - exact (proj2 (proj2
             (proj2 (proj2 (proj2
                (check_host_order_precedence sample_build sample_system
                   (sample_client "10.1.2.3" s_addr_10_1_2_3 "" "" ""
                      None)
                   (policy_location "/" AUTH_DENY AUTH_NONE AUTH_ANON
                      AUTH_SATISFY_ALL [] [mask_10_8] [mask_10_1_16]
                      HTTP_ENCRYPT_IF_REQUESTED)
                   world0 Hname))
                0 0 0 0 0 0 eq_refl eq_refl) Hfam eq_refl eq_refl))
             eq_refl).
Defined.

(** The two orders tell apart the clients that one list alone matches,
    or none: 10.2.0.1 is in 10.0.0.0/8 alone and is allowed under both
    orders; 192.168.0.1 is in neither network and gets what the order
    starts with. *)
Example check_host_order_samples :
  let allowed_first :=
    policy_location "/" AUTH_DENY AUTH_NONE AUTH_ANON AUTH_SATISFY_ALL
      [] [mask_10_8] [mask_10_1_16] HTTP_ENCRYPT_IF_REQUESTED in
  let denied_first :=
    policy_location "/" AUTH_ALLOW AUTH_NONE AUTH_ANON AUTH_SATISFY_ALL
      [] [mask_10_8] [mask_10_1_16] HTTP_ENCRYPT_IF_REQUESTED in
  let client_10_2_0_1 :=
    sample_client "10.2.0.1" 0x0100020A "" "" "" None in
  let client_192_168_0_1 :=
    sample_client "192.168.0.1" 0x0100A8C0 "" "" "" None in
  fst (check_host sample_build sample_system client_10_2_0_1
         denied_first world0) = AUTH_ALLOW
  /\ fst (check_host sample_build sample_system client_10_2_0_1
            allowed_first world0) = AUTH_ALLOW
  /\ fst (check_host sample_build sample_system client_192_168_0_1
            denied_first world0) = AUTH_ALLOW
  /\ fst (check_host sample_build sample_system client_192_168_0_1
            allowed_first world0) = AUTH_DENY.
Proof. repeat split. Qed.

(* ================================================================== *)
(** * Properties of cupsdIsAuthorized *)
(* ================================================================== *)

(** The decisions before the password never deny a host that was
    denied under Satisfy Any with anything but the encryption upgrade or
    the demand for a user name. *)
Lemma before_password_any (b : build_t) (sys : system_t)
    (con : cupsd_client_t) (loc : cupsd_location_t) (auth : Z) :
  satisfy loc = AUTH_SATISFY_ANY ->
  (HAVE_SSL b = false
   \/ encryption loc < HTTP_ENCRYPT_REQUIRED
   \/ http_tls con = true) ->
  username con <> "" ->
  before_password b sys con loc auth = Some HTTP_OK
  \/ before_password b sys con loc auth = None.
Proof.
  intros Hsat Henc Huser. unfold before_password.
  rewrite Hsat. change (AUTH_SATISFY_ANY =? AUTH_SATISFY_ALL) with false.
  rewrite andb_false_r.
  assert (Hgate : HAVE_SSL b
                  && (encryption loc >=? HTTP_ENCRYPT_REQUIRED)
                  && negb (http_tls con) = false).
  { destruct Henc as [->|[Hlt| ->]].
    - reflexivity.
    - destruct (Z.geb_spec (encryption loc) HTTP_ENCRYPT_REQUIRED);
        [lia | now rewrite andb_false_r].
    - now rewrite andb_false_r. }
  rewrite Hgate.
  destruct ((level loc =? AUTH_ANON)
            || (type loc =? AUTH_NONE) && (num_names loc =? 0));
    [now left|].
  destruct ((type loc =? AUTH_NONE) && (limit loc =? AUTH_LIMIT_IPP)
            && has_requesting_user_name sys con); [now left|].
  destruct (username con); [now elim Huser | now right].
Qed.

Section Governed.

(** A request that the location [loc] governs. *)
Variable b : build_t.
Variable sys : system_t.
Variable con : cupsd_client_t.
Variable owner : option string.
Variable loc : cupsd_location_t.
Hypothesis Hbest : best con = Some loc.

(** The function by the result of the host check. *)
Lemma cupsdIsAuthorized_governed (w w1 : world) (auth : Z) :
  check_host b sys con loc w = (auth, w1) ->
  cupsdIsAuthorized b sys con owner w
  = match before_password b sys con loc auth with
    | Some status => (status, w1)
    | None =>
        match check_password b sys con loc w1 with
        | (None, w2) => (HTTP_UNAUTHORIZED, w2)
        | (Some pw, w2) => check_access sys con owner loc pw w2
        end
    end.
Proof.
  intros Hhost. unfold cupsdIsAuthorized, bind.
  rewrite Hbest, Hhost.
  destruct (before_password b sys con loc auth); [reflexivity|].
  destruct (check_password b sys con loc w1) as [[pw|] w2]; reflexivity.
Qed.

(** C1, as amended. For every request governed by a location with
    satisfy = All whose host check yields deny, the result is FORBIDDEN
    whatever the credentials are: the function stops in the world that
    the host check left, where the interface registry alone has been
    called (no password entry, PAM or password file was consulted).
    For every request governed by a location with satisfy = Any whose
    host check yields deny, provided that the location does not require
    encryption on a connection without TLS, a user name with a password
    that passes the check of the password and the check of the names
    yields OK. *)
Theorem satisfy_semantics :
  forall w w1 : world,
    check_host b sys con loc w = (AUTH_DENY, w1) ->
    (satisfy loc = AUTH_SATISFY_ALL ->
     cupsdIsAuthorized b sys con owner w = (HTTP_FORBIDDEN, w1)
     /\ calls_added netif_call w w1)
    /\ (satisfy loc = AUTH_SATISFY_ANY ->
        (HAVE_SSL b = false
         \/ encryption loc < HTTP_ENCRYPT_REQUIRED
         \/ http_tls con = true) ->
        username con <> "" ->
        forall (pw : option passwd) (w2 w3 : world),
          check_password b sys con loc w1 = (Some pw, w2) ->
          check_access sys con owner loc pw w2 = (HTTP_OK, w3) ->
          fst (cupsdIsAuthorized b sys con owner w) = HTTP_OK).
Proof.
  intros w w1 Hhost.
  rewrite (cupsdIsAuthorized_governed w w1 AUTH_DENY Hhost).
  split.
  - intros Hsat. split.
    + unfold before_password. rewrite Hsat. reflexivity.
    + pose proof (check_host_calls b sys con loc w) as Hcalls.
      now rewrite Hhost in Hcalls.
  - intros Hsat Henc Huser pw w2 w3 Hpass Hacc.
    destruct (before_password_any b sys con loc AUTH_DENY Hsat Henc Huser)
      as [-> | ->]; [reflexivity|].
    rewrite Hpass, Hacc. reflexivity.
Qed.

(** C4. For every request that reaches the check of the password (past
    the host check, the encryption, anonymous and empty user name
    steps) without the certificate of localhost and with Digest as the
    scheme in force, if the Authorization field has no nonce or a nonce
    other than the host name of the client, the result is UNAUTHORIZED,
    and nothing is looked up. *)
Theorem digest_nonce_binding :
  forall (w w1 : world) (auth : Z),
    check_host b sys con loc w = (auth, w1) ->
    before_password b sys con loc auth = None ->
    local_certificate con = false ->
    auth_scheme sys loc = AUTH_DIGEST ->
    (httpGetSubField sys (http_fields_authorization con) "nonce" = None
     \/ exists nonce,
          httpGetSubField sys (http_fields_authorization con) "nonce"
          = Some nonce
          /\ nonce <> http_hostname con) ->
    cupsdIsAuthorized b sys con owner w = (HTTP_UNAUTHORIZED, w1).
Proof.
  intros w w1 auth Hhost Hbefore Hlocal Hscheme Hnonce.
  rewrite (cupsdIsAuthorized_governed w w1 auth Hhost), Hbefore.
  unfold check_password. rewrite Hlocal, Hscheme. simpl negb. cbv iota.
  destruct (is_empty (password con)); [reflexivity|].
  change (AUTH_DIGEST =? AUTH_BASIC) with false.
  change (AUTH_DIGEST =? AUTH_DIGEST) with true. cbv iota.
  unfold auth_digest.
  destruct Hnonce as [-> | (nonce & -> & Hne)]; [reflexivity|].
  destruct (Z.eqb_spec (strcmp (http_hostname con) nonce) 0) as [E|E];
    [|reflexivity].
  apply strcmp_eq in E. now elim Hne.
Qed.

(** C10. For every request governed by a location of level Group whose
    type is Digest, BasicDigest, or None with a default type other than
    Basic, once the password is checked (or the certificate of localhost
    stands for it) the result is OK and no call follows the check of the
    password: no name of the location is looked up as a group, because
    the loop over the names runs only for the type Basic.  From the
    start of the function to its end no group of the system is looked
    up at all. *)
Theorem group_level_without_basic :
  forall (w w1 w2 : world) (auth : Z) (pw : option passwd),
    level loc = AUTH_GROUP ->
    (type loc = AUTH_DIGEST
     \/ type loc = AUTH_BASICDIGEST
     \/ (type loc = AUTH_NONE /\ DefaultAuthType sys <> AUTH_BASIC)) ->
    check_host b sys con loc w = (auth, w1) ->
    before_password b sys con loc auth = None ->
    check_password b sys con loc w1 = (Some pw, w2) ->
    check_access sys con owner loc pw w2 = (HTTP_OK, w2)
    /\ cupsdIsAuthorized b sys con owner w = (HTTP_OK, w2)
    /\ calls_added not_group_call w w2
    /\ (local_certificate con = true ->
        w2 = {| NetIFList := NetIFList w1;
                calls := call_getpwnam (username con) :: calls w1 |}).
Proof.
  intros w w1 w2 auth pw Hlevel Htype Hhost Hbefore Hpass.
  assert (Hacc : check_access sys con owner loc pw w2 = (HTTP_OK, w2)).
  { unfold check_access. rewrite Hlevel.
    change (AUTH_GROUP =? AUTH_USER) with false.
    destruct (strcmp (username con) "root" =? 0); [reflexivity|].
    destruct Htype as [-> | [-> | [-> _]]]; reflexivity. }
  split; [exact Hacc|]. split; [|split].
  - rewrite (cupsdIsAuthorized_governed w w1 auth Hhost), Hbefore, Hpass.
    exact Hacc.
  - apply (calls_added_trans _ w w1 w2).
    + apply calls_added_netif_not_group.
      pose proof (check_host_calls b sys con loc w) as Hcalls.
      now rewrite Hhost in Hcalls.
    + pose proof (check_password_calls b sys con loc w1) as Hcalls.
      now rewrite Hpass in Hcalls.
  - intros Hlocal. unfold check_password in Hpass.
    rewrite Hlocal in Hpass. simpl in Hpass. now injection Hpass.
Qed.

End Governed.

(** alice from a denied host: FORBIDDEN under Satisfy All before any
    call is made, OK under Satisfy Any. *)
Lemma satisfy_semantics_witness :
  cupsdIsAuthorized sample_build sample_system
    (client_alice (Some loc_admin_all)) None world0
  = (HTTP_FORBIDDEN, world0)
  /\ fst (cupsdIsAuthorized sample_build sample_system
            (client_alice (Some loc_admin_any)) None world0) = HTTP_OK.
Proof.
  split.
  - refine (proj1 (proj1 (satisfy_semantics sample_build sample_system
                            (client_alice (Some loc_admin_all)) None
                            loc_admin_all eq_refl world0 world0 _) _));
      reflexivity.
  - refine (proj2 (satisfy_semantics sample_build sample_system
                     (client_alice (Some loc_admin_any)) None
                     loc_admin_any eq_refl world0 world0 _) _ _ _
                  (getpwnam sample_system "alice") world_after_pam
                  world_after_pam _ _);
      try reflexivity.
    + right. left. reflexivity.
    + discriminate.
Defined.

(** C1, as stated, fails where the location requires encryption: alice
    from a denied host under Satisfy Any, with a password that PAM
    accepts and a location that accepts any user, is asked to upgrade
    to TLS. *)
Lemma satisfy_any_counterexample :
  satisfy loc_admin_any_tls = AUTH_SATISFY_ANY
  /\ check_host sample_build sample_system
       (client_alice (Some loc_admin_any_tls)) loc_admin_any_tls world0
     = (AUTH_DENY, world0)
  /\ check_password sample_build sample_system
       (client_alice (Some loc_admin_any_tls)) loc_admin_any_tls world0
     = (Some (getpwnam sample_system "alice"), world_after_pam)
  /\ check_access sample_system
       (client_alice (Some loc_admin_any_tls)) None loc_admin_any_tls
       (getpwnam sample_system "alice") world_after_pam
     = (HTTP_OK, world_after_pam)
  /\ cupsdIsAuthorized sample_build sample_system
       (client_alice (Some loc_admin_any_tls)) None world0
     = (HTTP_UPGRADE_REQUIRED, world0)
  /\ fst (cupsdIsAuthorized sample_build sample_system
            (client_alice (Some loc_admin_any_tls)) None world0)
     <> HTTP_OK.
Proof.
  repeat split; try reflexivity. discriminate.
Qed.

(** carol with a Digest header without nonce. *)
Lemma digest_nonce_binding_witness :
  cupsdIsAuthorized sample_build sample_system
    (client_carol "Digest username=carol" (Some loc_digest_user)) None
    world0
  = (HTTP_UNAUTHORIZED, world0).
Proof.
  refine (digest_nonce_binding sample_build sample_system
            (client_carol "Digest username=carol" (Some loc_digest_user))
            None loc_digest_user eq_refl world0 world0 AUTH_ALLOW
            _ _ _ _ _);
    try reflexivity.
  left. reflexivity.
Defined.

(** With the nonce of the host name and the response of the digest,
    the same request is accepted. *)
Example digest_accepted :
  cupsdIsAuthorized sample_build sample_system
    (client_carol "Digest nonce=remote.example.com"
       (Some loc_digest_user)) None world0
  = (HTTP_OK, world_after_md5).
Proof. reflexivity. Qed.

(** carol, of the group admins in the digest file only. *)
Lemma group_level_without_basic_witness :
  cupsdIsAuthorized sample_build sample_system
    (client_carol "Digest nonce=remote.example.com"
       (Some loc_digest_group)) None world0
  = (HTTP_OK, world_after_md5).
Proof.
  refine (proj1 (proj2
            (group_level_without_basic sample_build sample_system
               (client_carol "Digest nonce=remote.example.com"
                  (Some loc_digest_group))
               None loc_digest_group eq_refl world0 world0
               world_after_md5 AUTH_ALLOW None _ _ _ _ _)));
    try reflexivity.
  left. reflexivity.
Defined.

(* ================================================================== *)
(** * Properties of cupsdGetMD5Passwd and cupsdCheckGroup *)
(* ================================================================== *)

Lemma scan_not_colon_field (n : nat) (s rest : string) :
  all_chars not_colon s = true ->
  (String.length s <= n)%nat ->
  scan_not_colon n (s ++ String ":" rest) = (s, String ":" rest).
Proof.
  revert n; induction s as [|c r IH]; intros n Hok Hlen.
  - destruct n; reflexivity.
  - destruct n as [|n]; [simpl in Hlen; lia|].
    simpl in Hok. apply andb_prop in Hok. destruct Hok as [Hc Hr].
    unfold not_colon in Hc. apply negb_true_iff in Hc.
    simpl. rewrite Hc, IH; [reflexivity | exact Hr | simpl in Hlen; lia].
Qed.

Lemma scan_not_space_field (n : nat) (s : string) :
  all_chars not_space s = true ->
  (String.length s <= n)%nat ->
  scan_not_space n s = s.
Proof.
  revert n; induction s as [|c r IH]; intros n Hok Hlen.
  - destruct n; reflexivity.
  - destruct n as [|n]; [simpl in Hlen; lia|].
    simpl in Hok. apply andb_prop in Hok. destruct Hok as [Hc Hr].
    unfold not_space in Hc. apply negb_true_iff in Hc.
    simpl. rewrite Hc, IH; [reflexivity | exact Hr | simpl in Hlen; lia].
Qed.

Lemma skip_spaces_field (s : string) :
  all_chars not_space s = true -> skip_spaces s = s.
Proof.
  destruct s as [|c r]; [reflexivity|]. simpl. intros Hok.
  apply andb_prop in Hok. destruct Hok as [Hc _].
  unfold not_space in Hc. apply negb_true_iff in Hc. now rewrite Hc.
Qed.

(** A line [user:group:md5] with fields of 1 to 32 bytes, no colon in
    the first two and no white space in the third, reads as its three
    fields. *)
Lemma sscanf_md5_line_formatted (user grp passwd : string) :
  md5_field not_colon user ->
  md5_field not_colon grp ->
  md5_field not_space passwd ->
  sscanf_md5_line (user ++ ":" ++ grp ++ ":" ++ passwd)
  = (3, user, grp, passwd).
Proof.
  intros (Hu0 & Hu1 & Hu2) (Hg0 & Hg1 & Hg2) (Hp0 & Hp1 & Hp2).
  unfold sscanf_md5_line.
  assert (E : is_empty (user ++ ":" ++ grp ++ ":" ++ passwd) = false).
  { destruct user; [now elim Hu0 | reflexivity]. }
  rewrite E. change (":" ++ grp ++ ":" ++ passwd)%string
    with (String ":" (grp ++ String ":" passwd)).
  rewrite (scan_not_colon_field 32 user _ Hu2 Hu1).
  assert (Eu : is_empty user = false)
    by (destruct user; [now elim Hu0 | reflexivity]).
  rewrite Eu, (scan_not_colon_field 32 grp _ Hg2 Hg1).
  assert (Eg : is_empty grp = false)
    by (destruct grp; [now elim Hg0 | reflexivity]).
  rewrite Eg. unfold scan_word.
  rewrite (skip_spaces_field _ Hp2), (scan_not_space_field 32 _ Hp2 Hp1).
  assert (Ep : is_empty passwd = false)
    by (destruct passwd; [now elim Hp0 | reflexivity]).
  now rewrite Ep.
Qed.

(** The loop over the lines finds a password exactly when a line reads
    as the user and the group. *)
Lemma md5_scan_lines_found (user grp : string) (lines : list string) :
  md5_scan_lines user (Some grp) lines <> None
  <-> exists line passwd,
        In line lines /\ sscanf_md5_line line = (3, user, grp, passwd).
Proof.
  induction lines as [|line rest IH]; simpl.
  - split; [intros H; now elim H | intros (l & p & [] & _)].
  - destruct (sscanf_md5_line line) as [[[n tempuser] tempgroup] passwd]
      eqn:Hscan.
    destruct (Z.eqb_spec n 3) as [-> | Hn]; simpl.
    + destruct (Z.eqb_spec (strcmp user tempuser) 0) as [Hu|Hu]; simpl.
      * destruct (Z.eqb_spec (strcmp grp tempgroup) 0) as [Hg|Hg].
        -- apply strcmp_eq in Hu, Hg. subst tempuser tempgroup.
           split; [|discriminate].
           intros _. exists line, passwd. split; [now left | exact Hscan].
        -- rewrite IH. split.
           ++ intros (l & p & Hin & Hl). exists l, p. split;
                [now right | exact Hl].
           ++ intros (l & p & [<- | Hin] & Hl).
              ** rewrite Hscan in Hl. injection Hl as _ E _.
                 subst tempgroup. now rewrite strcmp_refl in Hg.
              ** now exists l, p.
      * rewrite IH. split.
        -- intros (l & p & Hin & Hl). exists l, p. split;
             [now right | exact Hl].
        -- intros (l & p & [<- | Hin] & Hl).
           ++ rewrite Hscan in Hl. injection Hl as E _ _.
              subst tempuser. now rewrite strcmp_refl in Hu.
           ++ now exists l, p.
    + rewrite IH. split.
      * intros (l & p & Hin & Hl). exists l, p. split;
          [now right | exact Hl].
      * intros (l & p & [<- | Hin] & Hl).
        -- rewrite Hscan in Hl. injection Hl as E _ _ _. now elim Hn.
        -- now exists l, p.
Qed.

(** [cupsdGetMD5Passwd] for a user and a group finds a password exactly
    when passwd.md5 has an entry for them. *)
Lemma cupsdGetMD5Passwd_found (sys : system_t) (user grp : string)
    (w : world) :
  fst (cupsdGetMD5Passwd sys user (Some grp) w) <> None
  <-> md5_entry sys user grp.
Proof.
  unfold cupsdGetMD5Passwd, md5_entry, bind, record_call, ret. simpl.
  destruct (cupsFile sys (passwd_md5_filename sys)) as [lines|]; simpl.
  - rewrite md5_scan_lines_found. split.
    + intros (l & p & Hin & Hl). now exists lines, l, p.
    + intros (lines' & l & p & E & Hin & Hl). injection E as <-.
      now exists l, p.
  - split; [intros H; now elim H|].
    intros (lines & l & p & E & _). discriminate.
Qed.

Lemma in_gr_mem_spec (user : string) (members : list string) :
  in_gr_mem user members = true
  <-> exists m, In m members /\ strcasecmp user m = 0.
Proof.
  induction members as [|m rest IH]; simpl.
  - split; [discriminate | intros (m & [] & _)].
  - destruct (Z.eqb_spec (strcasecmp user m) 0) as [E|E].
    + split; [|reflexivity]. intros _. exists m. split; [now left|exact E].
    + rewrite IH. split.
      * intros (m' & Hin & Hm). exists m'. split; [now right | exact Hm].
      * intros (m' & [<- | Hin] & Hm); [now elim E | now exists m'].
Qed.

(** The three sources of [cupsdCheckGroup], in its order. *)
Lemma cupsdCheckGroup_value (sys : system_t) (user grp : string)
    (pw : option passwd) (w : world) :
  fst (cupsdCheckGroup sys (Some user) pw (Some grp) w)
  = match getgrnam sys grp with
    | Some gr => in_gr_mem user (gr_mem gr)
    | None => false
    end
    || match pw, getgrnam sys grp with
       | Some p, Some gr => gr_gid gr =? pw_gid p
       | _, _ => false
       end
    || match fst (cupsdGetMD5Passwd sys user (Some grp) w) with
       | Some _ => true
       | None => false
       end.
Proof.
  unfold cupsdCheckGroup, cupsdGetMD5Passwd, do_getgrnam, bind,
    record_call, ret.
  cbv beta iota. cbn [fst snd].
  destruct (getgrnam sys grp) as [gr|]; cbv beta iota.
  - destruct (in_gr_mem user (gr_mem gr)); [reflexivity|].
    destruct pw as [p|]; cbn [orb].
    + destruct (gr_gid gr =? pw_gid p); [reflexivity|]. cbn [orb].
      destruct (cupsFile sys (passwd_md5_filename sys)) as [lines|];
        [|reflexivity].
      cbn [fst]. now destruct (md5_scan_lines user (Some grp) lines).
    + destruct (cupsFile sys (passwd_md5_filename sys)) as [lines|];
        [|reflexivity].
      cbn [fst]. now destruct (md5_scan_lines user (Some grp) lines).
  - destruct pw as [p|]; cbn [orb];
      (destruct (cupsFile sys (passwd_md5_filename sys)) as [lines|];
       [|reflexivity]);
      cbn [fst]; now destruct (md5_scan_lines user (Some grp) lines).
Qed.

(** [cupsdCheckGroup] answers true exactly for a member of the system
    group, for a user whose group ID is the ID of the system group, and
    for an entry of passwd.md5. *)
Lemma cupsdCheckGroup_true_iff (sys : system_t) (user grp : string)
    (pw : option passwd) (w : world) :
  fst (cupsdCheckGroup sys (Some user) pw (Some grp) w) = true
  <-> (exists gr m,
         getgrnam sys grp = Some gr
         /\ In m (gr_mem gr)
         /\ strcasecmp user m = 0)
      \/ (exists gr p,
            getgrnam sys grp = Some gr
            /\ pw = Some p
            /\ gr_gid gr = pw_gid p)
      \/ md5_entry sys user grp.
Proof.
  rewrite cupsdCheckGroup_value, !orb_true_iff.
  rewrite <- (cupsdGetMD5Passwd_found sys user grp w).
  split.
  - intros [[H|H]|H].
    + left. destruct (getgrnam sys grp) as [gr|]; [|discriminate].
      apply in_gr_mem_spec in H. destruct H as (m & Hin & Hm).
      now exists gr, m.
    + right. left. destruct pw as [p|]; [|discriminate].
      destruct (getgrnam sys grp) as [gr|]; [|discriminate].
      apply Z.eqb_eq in H. now exists gr, p.
    + right. right.
      destruct (fst (cupsdGetMD5Passwd sys user (Some grp) w));
        discriminate.
  - intros [(gr & m & -> & Hin & Hm)|[(gr & p & -> & -> & Hgid)|H]].
    + left. left. apply in_gr_mem_spec. now exists m.
    + left. right. now apply Z.eqb_eq.
    + right.
      destruct (fst (cupsdGetMD5Passwd sys user (Some grp) w));
        [reflexivity | now elim H].
Qed.

(** A line [user:group:md5] of passwd.md5 is an entry. *)
Lemma md5_entry_formatted (sys : system_t) (user grp passwd : string)
    (lines : list string) :
  cupsFile sys (passwd_md5_filename sys) = Some lines ->
  In (user ++ ":" ++ grp ++ ":" ++ passwd)%string lines ->
  md5_field not_colon user ->
  md5_field not_colon grp ->
  md5_field not_space passwd ->
  md5_entry sys user grp.
Proof.
  intros Hfile Hin Hu Hg Hp.
  exists lines, (user ++ ":" ++ grp ++ ":" ++ passwd)%string, passwd.
  split; [exact Hfile|]. split; [exact Hin|].
  now apply sscanf_md5_line_formatted.
Qed.

(** C6. For every user name and group name, [cupsdCheckGroup] returns
    true if the digest password file has an entry for the user and the
    group (a line [user:group:md5], or any line that reads as such),
    whether the group exists in the system or not; it returns true
    exactly when the user is, whatever the case of the letters, in the
    member list of the system group, or the password entry of the user
    is supplied and its group ID is the ID of the system group, or the
    digest password file has such an entry, and false otherwise. *)
Theorem cupsdCheckGroup_sources :
  forall (sys : system_t) (user grp : string) (pw : option passwd)
         (w : world),
    (forall (lines : list string) (passwd : string),
        cupsFile sys (passwd_md5_filename sys) = Some lines ->
        In (user ++ ":" ++ grp ++ ":" ++ passwd)%string lines ->
        md5_field not_colon user ->
        md5_field not_colon grp ->
        md5_field not_space passwd ->
        fst (cupsdCheckGroup sys (Some user) pw (Some grp) w) = true)
    /\ (md5_entry sys user grp ->
        fst (cupsdCheckGroup sys (Some user) pw (Some grp) w) = true)
    /\ (fst (cupsdCheckGroup sys (Some user) pw (Some grp) w) = true
        <-> (exists gr m,
               getgrnam sys grp = Some gr
               /\ In m (gr_mem gr)
               /\ strcasecmp user m = 0)
            \/ (exists gr p,
                  getgrnam sys grp = Some gr
                  /\ pw = Some p
                  /\ gr_gid gr = pw_gid p)
            \/ md5_entry sys user grp)
    /\ (fst (cupsdCheckGroup sys (Some user) pw (Some grp) w) = false
        <-> ~ ((exists gr m,
                  getgrnam sys grp = Some gr
                  /\ In m (gr_mem gr)
                  /\ strcasecmp user m = 0)
               \/ (exists gr p,
                     getgrnam sys grp = Some gr
                     /\ pw = Some p
                     /\ gr_gid gr = pw_gid p)
               \/ md5_entry sys user grp)).
Proof.
  intros sys user grp pw w.
  pose proof (cupsdCheckGroup_true_iff sys user grp pw w) as Hiff.
  split; [|split; [|split]].
  - intros lines passwd Hfile Hin Hu Hg Hp. apply Hiff. right. right.
    now apply (md5_entry_formatted sys user grp passwd lines).
  - intros H. apply Hiff. right. now right.
  - exact Hiff.
  - rewrite <- Hiff.
    destruct (fst (cupsdCheckGroup sys (Some user) pw (Some grp) w));
      split; try discriminate; try reflexivity; intros H; now elim H.
Qed.

(** carol is of the group admins by the digest file alone: the system
    has no such group. *)
Lemma cupsdCheckGroup_sources_witness :
  getgrnam sample_system "admins" = None
  /\ md5_entry sample_system "carol" "admins"
  /\ fst (cupsdCheckGroup sample_system (Some "carol") None
            (Some "admins") world0) = true.
Proof.
  assert (Hentry : md5_entry sample_system "carol" "admins").
  { exists sample_passwd_md5,
      "carol:admins:0123456789abcdef0123456789abcdef",
      "0123456789abcdef0123456789abcdef".
    split; [reflexivity|]. split; [right; now left | reflexivity]. }
  split; [reflexivity|]. split; [exact Hentry|].
  exact (proj1 (proj2 (cupsdCheckGroup_sources sample_system "carol"
                         "admins" None world0)) Hentry).
Defined.

Example sscanf_md5_line_samples :
  sscanf_md5_line "carol:admins:0123456789abcdef0123456789abcdef"
  = (3, "carol", "admins", "0123456789abcdef0123456789abcdef")
  /\ sscanf_md5_line "not a password line"
     = (1, "not a password line", "", "")
  /\ sscanf_md5_line ":admins:0123" = (0, "", "", "")
  /\ sscanf_md5_line "carol:admins:" = (2, "carol", "admins", "")
  /\ sscanf_md5_line "" = (-1, "", "", "").
Proof. repeat split. Qed.

(* ================================================================== *)
(** * Properties of the check of the names *)
(* ================================================================== *)

(** The token ["@OWNER"] with the owner of the object as the user. *)
Lemma check_user_names_owner (sys : system_t) (user o : string)
    (pw : option passwd) (rest : list string) (w : world) :
  strcasecmp user o = 0 ->
  check_user_names sys user (Some o) pw ("@OWNER" :: rest) w = (true, w).
Proof.
  intros Ho. cbn [check_user_names].
  change (strcasecmp "@OWNER" "@OWNER" =? 0) with true.
  now rewrite Ho.
Qed.

(** The token ["@OWNER"] that the comparison with the owner does not
    accept is looked up as the group OWNER. *)
Lemma check_user_names_not_owner (sys : system_t) (user : string)
    (owner : option string) (pw : option passwd) (rest : list string)
    (w : world) :
  match owner with
  | Some o => strcasecmp user o <> 0
  | None => True
  end ->
  check_user_names sys user owner pw ("@OWNER" :: rest) w
  = let (member, w') :=
      cupsdCheckGroup sys (Some user) pw (Some "OWNER") w in
    if member then (true, w')
    else check_user_names sys user owner pw rest w'.
Proof.
  intros Hown. cbn [check_user_names].
  change (strcasecmp "@OWNER" "@OWNER" =? 0) with true.
  change (strcasecmp "@OWNER" "@SYSTEM" =? 0) with false.
  change (first_char "@OWNER" =? "@")%char with true.
  change (str_from 1 "@OWNER") with "OWNER".
  assert (E : match owner with
              | Some o => strcasecmp user o =? 0
              | None => false
              end = false).
  { destruct owner as [o|]; [now apply Z.eqb_neq | reflexivity]. }
  rewrite E. cbn [andb]. unfold bind.
  destruct (cupsdCheckGroup sys (Some user) pw (Some "OWNER") w)
    as [[|] w']; reflexivity.
Qed.

(** The names [@OWNER] alone: the owner is accepted, whatever the case
    of the letters, and who is neither the owner nor of a group OWNER
    is not. *)
Lemma check_access_owner (sys : system_t) (con : cupsd_client_t)
    (owner : option string) (loc : cupsd_location_t)
    (pw : option passwd) (w : world) :
  strcmp (username con) "root" <> 0 ->
  level loc = AUTH_USER ->
  names loc = ["@OWNER"] ->
  (forall o, owner = Some o -> strcasecmp (username con) o = 0 ->
     check_access sys con owner loc pw w = (HTTP_OK, w))
  /\ (match owner with
      | Some o => strcasecmp (username con) o <> 0
      | None => True
      end ->
      fst (cupsdCheckGroup sys (Some (username con)) pw (Some "OWNER") w)
      = false ->
      fst (check_access sys con owner loc pw w) = HTTP_UNAUTHORIZED).
Proof.
  intros Hroot Hlevel Hnames. unfold check_access, num_names.
  apply Z.eqb_neq in Hroot. rewrite Hroot, Hlevel, Hnames.
  change (AUTH_USER =? AUTH_USER) with true.
  change (Z.of_nat (List.length ["@OWNER"]) =? 0) with false.
  cbv iota. unfold bind. split.
  - intros o -> Ho. now rewrite check_user_names_owner.
  - intros Hown Hgroup.
    rewrite (check_user_names_not_owner sys _ _ _ _ _ Hown).
    destruct (cupsdCheckGroup sys (Some (username con)) pw (Some "OWNER")
                w) as [[|] w']; [discriminate | reflexivity].
Qed.

(** C7, at the input where the code departs from it. alice, who is
    not root, asks for an object of the location [/jobs], of level User
    with the names [@OWNER] alone; PAM accepts her password; the call
    supplies no owner; the system has a group called OWNER and alice is
    one of its members: the result is OK. *)
Theorem owner_token_without_owner :
  level loc_owner = AUTH_USER
  /\ names loc_owner = ["@OWNER"]
  /\ strcmp (username (client_alice (Some loc_owner))) "root" <> 0
  /\ check_password sample_build sample_system
       (client_alice (Some loc_owner)) loc_owner world0
     = (Some (getpwnam sample_system "alice"), world_after_pam)
  /\ fst (cupsdIsAuthorized sample_build sample_system
            (client_alice (Some loc_owner)) None world0) = HTTP_OK.
Proof.
  repeat split; try reflexivity. discriminate.
Qed.

(** The same location as C7 has it: alice as the owner is accepted,
    and bob, of no group OWNER, is not when no owner is supplied. *)
Example owner_token_samples :
  fst (cupsdIsAuthorized sample_build sample_system
         (client_alice (Some loc_owner)) (Some "alice") world0) = HTTP_OK
  /\ fst (cupsdIsAuthorized sample_build sample_system
            (client_bob (Some loc_owner)) None world0)
     = HTTP_UNAUTHORIZED
  /\ fst (cupsdIsAuthorized sample_build sample_system
            (client_bob (Some loc_owner)) (Some "alice") world0)
     = HTTP_UNAUTHORIZED.
Proof. repeat split. Qed.



(* ================================================================== *)
(** * Requests that no location governs *)
(* ================================================================== *)

(** Without a location the host name is compared byte for byte: the
    result is OK exactly for the host name localhost and for the name of
    the server, FORBIDDEN otherwise, and no call is made. *)
Lemma cupsdIsAuthorized_no_location (b : build_t) (sys : system_t)
    (con : cupsd_client_t) (owner : option string) (w : world) :
  best con = None ->
  (http_hostname con = "localhost" \/ http_hostname con = ServerName sys ->
   cupsdIsAuthorized b sys con owner w = (HTTP_OK, w))
  /\ (http_hostname con <> "localhost" ->
      http_hostname con <> ServerName sys ->
      cupsdIsAuthorized b sys con owner w = (HTTP_FORBIDDEN, w)).
Proof.
  intros Hbest. unfold cupsdIsAuthorized. rewrite Hbest, !strcmp_eqb.
  split.
  - intros [-> | ->].
    + reflexivity.
    + rewrite String.eqb_refl, orb_true_r. reflexivity.
  - intros H1 H2. apply String.eqb_neq in H1, H2. now rewrite H1, H2.
Qed.

(** C5, at the input where the code departs from it. No location
    governs the request and the host name of the client is LOCALHOST,
    which differs from localhost in the case of its letters only and is
    not the name of the server: the result is FORBIDDEN, although the
    host check of a governed request takes this name for localhost. *)
Theorem no_location_LOCALHOST :
  best client_LOCALHOST = None
  /\ strcasecmp (http_hostname client_LOCALHOST) "localhost" = 0
  /\ http_hostname client_LOCALHOST <> ServerName sample_system
  /\ cupsdIsAuthorized sample_build sample_system client_LOCALHOST None
       world0 = (HTTP_FORBIDDEN, world0)
  /\ check_host sample_build sample_system client_LOCALHOST loc_admin_all
       world0 = (AUTH_ALLOW, world0).
Proof.
  repeat split. discriminate.
Qed.

(** Scenario S6: without a location, 192.0.2.5 is refused and localhost
    is accepted. *)
Example no_location_samples :
  cupsdIsAuthorized sample_build sample_system
    (sample_client "192.0.2.5" 0 "" "" "" None) None world0
  = (HTTP_FORBIDDEN, world0)
  /\ cupsdIsAuthorized sample_build sample_system
       (sample_client "localhost" 0 "" "" "" None) None world0
     = (HTTP_OK, world0)
  /\ cupsdIsAuthorized sample_build sample_system
       (sample_client "printhost" 0 "" "" "" None) None world0
     = (HTTP_OK, world0).
Proof. repeat split. Qed.

(* ================================================================== *)
(** * The scenarios of the specification *)
(* ================================================================== *)

(** S1: GET /admin/ from 10.0.0.1 with the password of alice is
    FORBIDDEN, the host being denied under Satisfy All. *)
Example scenario_S1 :
  cupsdFindBest sample_build s1_locations "/admin/" HTTP_GET
  = Some loc_s1_admin
  /\ cupsdIsAuthorized sample_build sample_system
       (sample_client "10.0.0.1" 0x0100000A "Basic YWxpY2U6c2VjcmV0"
          "alice" "secret" (Some loc_s1_admin)) None world0
     = (HTTP_FORBIDDEN, world0).
Proof. split; reflexivity. Qed.

(** S2: GET /admin/ from the local host without credentials is
    UNAUTHORIZED. *)
Example scenario_S2 :
  cupsdIsAuthorized sample_build sample_system
    (sample_client "localhost" 0x0100007F "" "" "" (Some loc_s1_admin))
    None world0
  = (HTTP_UNAUTHORIZED, world0).
Proof. reflexivity. Qed.

(** S5: root with a password that the system accepts passes a location
    for bob alone. *)
Example scenario_S5 :
  fst (cupsdIsAuthorized sample_build sample_system
         (sample_client "10.0.0.1" 0x0100000A "Basic cm9vdDp0b29y"
            "root" "toor" (Some loc_bob_only)) None world0)
  = HTTP_OK
  /\ fst (cupsdIsAuthorized sample_build sample_system
            (client_alice (Some loc_bob_only)) None world0)
     = HTTP_UNAUTHORIZED.
Proof. split; reflexivity. Qed.

(* ================================================================== *)
(** * The table and cups_crypt *)
(* ================================================================== *)

(** [cupsdAddLocation] keeps the invariant of the table. *)
Lemma cupsdAddLocation_table_wf (b : build_t) (mem : bool)
    (Locations : list cupsd_location_t) (path : string) :
  Forall loc_wf Locations ->
  Forall loc_wf (fst (cupsdAddLocation b mem Locations path)).
Proof.
  intros Hwf. unfold cupsdAddLocation.
  destruct mem; cbn [negb fst]; [|exact Hwf].
  apply Forall_app. split; [exact Hwf|].
  constructor; [reflexivity | constructor].
Qed.

(** The two loops of [cups_crypt] on the length of the password end by
    their own tests: the turns given to them are enough. *)
Lemma md5_append_digest_fuel (fuel fuel' : nat) (i : Z)
    (digest state : string) :
  i <= Z.of_nat fuel -> i <= Z.of_nat fuel' ->
  md5_append_digest fuel i digest state
  = md5_append_digest fuel' i digest state.
Proof.
  revert fuel' i state; induction fuel as [|fuel IH];
    intros [|fuel'] i state H1 H2; cbn [md5_append_digest];
    try reflexivity.
  - destruct (Z.gtb_spec i 0); [lia | reflexivity].
  - destruct (Z.gtb_spec i 0); [lia | reflexivity].
  - destruct (Z.gtb_spec i 0); [|reflexivity].
    apply IH; lia.
Qed.

Lemma md5_append_bits_fuel (fuel fuel' : nat) (i : Z) (pw state : string) :
  i <= Z.of_nat fuel -> i <= Z.of_nat fuel' ->
  md5_append_bits fuel i pw state = md5_append_bits fuel' i pw state.
Proof.
  revert fuel' i state; induction fuel as [|fuel IH];
    intros [|fuel'] i state H1 H2; cbn [md5_append_bits];
    try reflexivity.
  - destruct (Z.gtb_spec i 0); [lia | reflexivity].
  - destruct (Z.gtb_spec i 0); [lia | reflexivity].
  - destruct (Z.gtb_spec i 0) as [Hpos|]; [|reflexivity].
    assert (Z.shiftr i 1 <= i - 1).
    { rewrite Z.shiftr_div_pow2 by lia. change (2 ^ 1) with 2.
      apply Z.lt_le_pred. apply Z.div_lt; lia. }
    apply IH; lia.
Qed.

Example to64_samples :
  to64 0 4 = "...." /\ to64 63 2 = "z." /\ to64 4095 2 = "zz".
Proof. repeat split. Qed.

(** A salt that does not start with ["$1$"] goes to [crypt]. *)
Lemma cups_crypt_des (sys : system_t) (pw salt : string) :
  strncmp salt "$1$" 3 <> 0 ->
  cups_crypt sys pw salt = crypt sys pw salt.
Proof.
  intros H. unfold cups_crypt. apply Z.eqb_neq in H. now rewrite H.
Qed.

(* ================================================================== *)
(** * Properties of cupsdFindLocation and cupsdAddLocation *)
(* ================================================================== *)

Lemma find_location_from_spec (locs : list cupsd_location_t)
    (loc_name : string) (i : nat) :
  match find_location_from i locs loc_name with
  | Some k =>
      (i <= k)%nat
      /\ exists l,
           nth_error locs (k - i) = Some l
           /\ lower (location l) = lower loc_name
           /\ forall j l', (j < k - i)%nat -> nth_error locs j = Some l' ->
                lower (location l') <> lower loc_name
  | None =>
      forall l, In l locs -> lower (location l) <> lower loc_name
  end.
Proof.
  revert i; induction locs as [|l rest IH]; intros i; simpl.
  - intros l [].
  - destruct (Z.eqb_spec (strcasecmp (location l) loc_name) 0) as [E|E].
    + split; [lia|]. exists l. rewrite Nat.sub_diag.
      split; [reflexivity|]. split; [now apply strcasecmp_eq|].
      intros j l' Hj. lia.
    + assert (Hl : lower (location l) <> lower loc_name).
      { intros H. apply E. now apply strcasecmp_eq. }
      specialize (IH (S i)).
      destruct (find_location_from (S i) rest loc_name) as [k|].
      * destruct IH as (Hik & l0 & Hnth & Hl0 & Hfirst).
        split; [lia|]. exists l0.
        replace (k - i)%nat with (S (k - S i)) by lia.
        split; [exact Hnth|]. split; [exact Hl0|].
        intros [|j] l' Hj Hj'.
        -- simpl in Hj'. injection Hj' as <-. exact Hl.
        -- simpl in Hj'. apply (Hfirst j l'); [lia | exact Hj'].
      * intros l' [<-|Hin]; [exact Hl | now apply IH].
Qed.


(** X1. [cupsdFindLocation] returns the first location of the table
    whose path is the name, whatever the case of the letters, and none
    exactly when the table has no such location. *)
Theorem cupsdFindLocation_first :
  forall (Locations : list cupsd_location_t) (loc_name : string),
    match cupsdFindLocation Locations loc_name with
    | Some k =>
        exists l,
          nth_error Locations k = Some l
          /\ lower (location l) = lower loc_name
          /\ forall j l', (j < k)%nat -> nth_error Locations j = Some l' ->
               lower (location l') <> lower loc_name
    | None =>
        forall l, In l Locations -> lower (location l) <> lower loc_name
    end.
Proof.
  intros Locations loc_name. unfold cupsdFindLocation.
  pose proof (find_location_from_spec Locations loc_name 0) as H.
  destruct (find_location_from 0 Locations loc_name) as [k|]; [|exact H].
  destruct H as (_ & l & Hnth & Hl & Hfirst).
  rewrite Nat.sub_0_r in *. now exists l.
Qed.



(** X3. A location that [cupsdAddLocation] has just added governs no
    request: its verb mask is empty until the configuration sets it, and
    [cupsdFindBest] answers on the longer table as on the table
    before (and so it does on the table that a call without memory
    leaves). *)
Theorem cupsdAddLocation_governs_nothing :
  forall (b : build_t) (mem : bool) (Locations : list cupsd_location_t)
         (added path : string) (state : http_state_t),
    cupsdFindBest b (fst (cupsdAddLocation b mem Locations added)) path
      state
    = cupsdFindBest b Locations path state.
Proof.
  intros b mem Locations added path state.
  unfold cupsdFindBest, find_best_loop, cupsdAddLocation.
  destruct mem; cbn [negb fst]; [|reflexivity].
  rewrite fold_left_app. cbn [fold_left].
  destruct (fold_left _ Locations (None, 0)) as [best0 bestlen].
  unfold find_best_step. cbn [limit]. rewrite Z.land_0_r.
  rewrite !andb_false_r. now destruct (queue_uri _).
Qed.

(* ================================================================== *)
(** * More properties of cupsdFindBest *)
(* ================================================================== *)

Lemma find_best_first_inv_step (uri : string) (state : http_state_t)
    (seen : list cupsd_location_t) (acc : option cupsd_location_t * Z)
    (loc : cupsd_location_t) :
  loc_wf loc ->
  find_best_first_inv uri state seen acc ->
  find_best_first_inv uri state (seen ++ [loc])
    (find_best_step uri (limits state) acc loc).
Proof.
  intros Hwf [Hlen Hfirst]. destruct acc as [best0 bestlen].
  cbn [fst snd] in *.
  destruct (find_best_step_spec uri state best0 bestlen loc Hwf)
    as [(Hgt & Hg & ->)|(Hno & ->)];
    unfold find_best_first_inv, first_longest_governing; cbn [fst snd].
  - split; [reflexivity|]. split; [exact Hg|].
    exists seen, []. split; [reflexivity|]. split; [|intros l []].
    intros l Hin Hgl. destruct best0 as [x|].
    + destruct Hfirst as (Hgx & pre & post & -> & Hpre & Hpost).
      apply in_app_or in Hin. destruct Hin as [Hin|[<-|Hin]].
      * specialize (Hpre l Hin Hgl). lia.
      * lia.
      * specialize (Hpost l Hin Hgl). lia.
    + now elim (Hfirst l Hin).
  - split; [exact Hlen|]. destruct best0 as [x|].
    + destruct Hfirst as (Hgx & pre & post & -> & Hpre & Hpost).
      split; [exact Hgx|]. exists pre, (post ++ [loc]).
      split; [now rewrite <- app_assoc|]. split; [exact Hpre|].
      intros l Hin Hgl. apply in_app_or in Hin.
      destruct Hin as [Hin|[<-|[]]]; [now apply Hpost|].
      assert (~ length loc > bestlen) by tauto. lia.
    + intros l Hin Hgl. apply in_app_or in Hin.
      destruct Hin as [Hin|[<-|[]]]; [now apply (Hfirst l)|].
      apply Hno. split; [|exact Hgl].
      pose proof (governs_length_pos _ _ _ _ Hwf Hgl). lia.
Qed.

Lemma find_best_first_inv_fold (uri : string) (state : http_state_t)
    (Locations : list cupsd_location_t) :
  Forall loc_wf Locations ->
  forall seen acc,
    find_best_first_inv uri state seen acc ->
    find_best_first_inv uri state (seen ++ Locations)
      (fold_left (find_best_step uri (limits state)) Locations acc).
Proof.
  induction 1 as [|loc rest Hwf _ IH]; intros seen acc Hinv; simpl.
  - now rewrite app_nil_r.
  - replace (seen ++ loc :: rest) with ((seen ++ [loc]) ++ rest)
      by (now rewrite <- app_assoc).
    apply IH. now apply find_best_first_inv_step.
Qed.

(** X4. Among the locations with the longest path that can govern a
    request, [cupsdFindBest] returns the first of the table: every
    location before the one returned that could govern has a strictly
    shorter path, and no location after it has a longer one. *)
Theorem cupsdFindBest_first_wins :
  forall (b : build_t) (Locations : list cupsd_location_t)
         (path : string) (state : http_state_t),
    Forall loc_wf Locations ->
    first_longest_governing (queue_uri (find_best_uri b path))
      (find_best_uri b path) state Locations
      (cupsdFindBest b Locations path state).
Proof.
  intros b Locations path state Hwf.
  assert (H0 : find_best_first_inv (find_best_uri b path) state []
                 (None, 0)).
  { split; [reflexivity | intros l []]. }
  pose proof (find_best_first_inv_fold (find_best_uri b path) state
                Locations Hwf [] (None, 0) H0) as [_ H].
  exact H.
Qed.

(** Of two locations for /jobs the first governs. *)
Lemma cupsdFindBest_first_wins_witness :
  first_longest_governing false "/jobs/1" HTTP_GET
    [loc_dup_user; loc_dup_anon]
    (cupsdFindBest sample_build [loc_dup_user; loc_dup_anon] "/jobs/1"
       HTTP_GET)
  /\ cupsdFindBest sample_build [loc_dup_user; loc_dup_anon] "/jobs/1"
       HTTP_GET = Some loc_dup_user.
Proof.
  split; [|reflexivity].
  apply (cupsdFindBest_first_wins sample_build
           [loc_dup_user; loc_dup_anon] "/jobs/1" HTTP_GET).
  repeat constructor.
Defined.

Lemma find_best_loop_lower (Locations : list cupsd_location_t)
    (u u' : string) (lim : Z) :
  queue_uri u = true -> queue_uri u' = true -> lower u = lower u' ->
  find_best_loop Locations u lim = find_best_loop Locations u' lim.
Proof.
  intros Hq Hq' Hl. unfold find_best_loop. f_equal.
  generalize (@None cupsd_location_t, 0).
  induction Locations as [|loc rest IH]; intros acc; [reflexivity|].
  cbn [fold_left].
  replace (find_best_step u lim acc loc)
    with (find_best_step u' lim acc loc); [apply IH|].
  unfold find_best_step, strncasecmp. now rewrite Hq, Hq', Hl.
Qed.

(** X5. Under /printers/ and /classes/ the case of the letters of the
    request path after the prefix does not matter: two paths with the
    extension .ppd that differ in case only, before the extension, get
    the same location. *)
Theorem cupsdFindBest_queue_case :
  forall (b : build_t) (Locations : list cupsd_location_t)
         (state : http_state_t) (p p' : string),
    is_prefix "/printers/" p \/ is_prefix "/classes/" p ->
    is_prefix "/printers/" p' \/ is_prefix "/classes/" p' ->
    lower p = lower p' ->
    (String.length (p ++ ".ppd") < HTTP_MAX_URI b)%nat ->
    cupsdFindBest b Locations (p ++ ".ppd") state
    = cupsdFindBest b Locations (p' ++ ".ppd") state
    /\ cupsdFindBest b Locations (p ++ ".ppd") state
       = find_best_loop Locations p' (limits state).
Proof.
  intros b Locations state p p' Hp Hp' Hl Hfit.
  assert (Hq : queue_uri p = true) by now apply queue_uri_spec.
  assert (Hq' : queue_uri p' = true) by now apply queue_uri_spec.
  assert (Hfit' : (String.length (p' ++ ".ppd") < HTTP_MAX_URI b)%nat).
  { rewrite append_length in *.
    rewrite <- (lower_length p'), <- Hl, lower_length. exact Hfit. }
  assert (Hpp : forall q, queue_uri q = true ->
                  queue_uri (q ++ ".ppd") = true).
  { intros q H. apply queue_uri_spec. apply queue_uri_spec in H.
    destruct H as [[r ->]|[r ->]]; [left|right];
      exists (r ++ ".ppd")%string; now rewrite append_assoc. }
  unfold cupsdFindBest.
  rewrite (find_best_uri_ppd b p Hfit (Hpp p Hq)).
  rewrite (find_best_uri_ppd b p' Hfit' (Hpp p' Hq')).
  split; now apply find_best_loop_lower.
Qed.

(** /printers/FOO.ppd and /printers/foo.ppd. *)
Lemma cupsdFindBest_queue_case_witness :
  cupsdFindBest sample_build [loc_printers_foo]
    ("/printers/FOO" ++ ".ppd") HTTP_GET
  = cupsdFindBest sample_build [loc_printers_foo]
      ("/printers/foo" ++ ".ppd") HTTP_GET.
Proof.
  refine (proj1 (cupsdFindBest_queue_case sample_build [loc_printers_foo]
                   HTTP_GET "/printers/FOO" "/printers/foo" _ _ _ _)).
  - left. now exists "FOO".
  - left. now exists "foo".
  - reflexivity.
  - simpl. lia.
Defined.

(* ================================================================== *)
(** * Properties of cupsdCheckAuth *)
(* ================================================================== *)

Lemma lower_str_from (n : nat) (s : string) :
  lower (str_from n s) = str_from n (lower s).
Proof.
  revert s; induction n as [|n IH]; intros [|c r]; simpl;
    try reflexivity.
  apply IH.
Qed.

Lemma ends_with_length (s suffix : string) :
  ends_with s suffix -> (String.length suffix <= String.length s)%nat.
Proof. intros [front ->]. rewrite append_length. lia. Qed.

(** The comparison of the end of the host name with the name of the
    mask. *)
Lemma strcasecmp_tail (hostname mname : string) :
  (String.length mname <= String.length hostname)%nat ->
  strcasecmp
    (str_from (String.length hostname - String.length mname) hostname)
    mname = 0
  <-> ends_with (lower hostname) (lower mname).
Proof.
  intros Hlen. rewrite strcasecmp_eq, lower_str_from. split.
  - intros H. exists (str_take (String.length hostname
                                - String.length mname) (lower hostname)).
    rewrite <- H. symmetry. apply str_take_from.
  - intros [front H]. rewrite H.
    replace (String.length hostname - String.length mname)%nat
      with (String.length front); [apply str_from_append|].
    apply (f_equal String.length) in H.
    rewrite append_length, !lower_length in H. lia.
Qed.

(** The value of a name mask with the length of its name. *)
Lemma check_mask_name_spec (b : build_t) (sys : system_t) (ip : word4)
    (hostname mname : string) (w : world) :
  exists r, check_mask b sys ip hostname (strlen hostname)
              (AUTH_NAME mname (strlen mname)) w = (r, w)
            /\ (r = true <-> host_matches hostname mname).
Proof.
  unfold check_mask, host_matches, strlen.
  destruct (Z.eqb_spec (strcasecmp hostname mname) 0) as [E|E].
  - exists true. split; [reflexivity|]. split; [|reflexivity].
    intros _. left. now apply strcasecmp_eq.
  - rewrite strcasecmp_eq in E.
    destruct (Z.geb_spec (Z.of_nat (String.length hostname))
                (Z.of_nat (String.length mname))) as [Hge|Hlt].
    + assert (Hle : (String.length mname <= String.length hostname)%nat)
        by lia.
      rewrite <- Nat2Z.inj_sub, Nat2Z.id by exact Hle.
      pose proof (strcasecmp_tail hostname mname Hle) as Htail.
      destruct (Ascii.eqb_spec (first_char mname) "."%char) as [Hd|Hd];
        cbn [andb].
      * destruct (Z.eqb_spec
                    (strcasecmp
                       (str_from (String.length hostname
                                  - String.length mname) hostname)
                       mname) 0) as [Ht|Ht].
        -- exists true. split; [reflexivity|]. split; [|reflexivity].
           intros _. right. split; [exact Hd | now apply Htail].
        -- exists false. split; [reflexivity|].
           split; [discriminate|]. intros [H|[_ H]]; [now elim E|].
           elim Ht. now apply Htail.
      * exists false. split; [reflexivity|].
        split; [discriminate|]. intros [H|[H _]]; [now elim E|].
        now elim Hd.
    + exists false. cbn [andb]. split; [reflexivity|].
      split; [discriminate|]. intros [H|[_ H]]; [now elim E|].
      apply ends_with_length in H. rewrite !lower_length in H. lia.
Qed.

(** X6. A name mask, with the length of its name, matches the host
    names that are its name, and, when it begins with a dot, the host
    names that end in it, whatever the case of the letters, and no
    other; it calls nothing. *)
Theorem check_mask_name :
  forall (b : build_t) (sys : system_t) (ip : word4)
         (hostname mname : string) (w : world),
    (check_mask b sys ip hostname (strlen hostname)
       (AUTH_NAME mname (strlen mname)) w = (true, w)
     <-> host_matches hostname mname)
    /\ (check_mask b sys ip hostname (strlen hostname)
          (AUTH_NAME mname (strlen mname)) w = (false, w)
        <-> ~ host_matches hostname mname).
Proof.
  intros b sys ip hostname mname w.
  destruct (check_mask_name_spec b sys ip hostname mname w)
    as (r & -> & Hr).
  split.
  - rewrite <- Hr. split; [intros H; now injection H | now intros ->].
  - rewrite <- Hr. destruct r; split; intros H;
      try reflexivity; try discriminate.
    now elim H.
Qed.

Lemma land_absorbs (i m a : Z) : Z.land i m = a -> Z.land a m = a.
Proof.
  intros <-. now rewrite <- Z.land_assoc, Z.land_diag.
Qed.

(** X7. An address mask matches the clients whose address, under the
    netmask, is the address of the mask, in each of the four words; a
    mask whose address has a bit outside of its netmask matches no
    client at all. *)
Theorem check_mask_ip :
  forall (b : build_t) (sys : system_t) (ip address netmask : word4)
         (hostname : string) (name_len : Z) (w : world),
    (check_mask b sys ip hostname name_len (AUTH_IP address netmask) w
     = (true, w)
     <-> in_network ip address netmask)
    /\ (stray_bits address netmask ->
        check_mask b sys ip hostname name_len (AUTH_IP address netmask) w
        = (false, w)).
Proof.
  intros b sys [[[i0 i1] i2] i3] [[[a0 a1] a2] a3] [[[m0 m1] m2] m3]
    hostname name_len w.
  unfold check_mask, ret, in_network, stray_bits.
  assert (Hiff : (Z.land i0 m0 =? a0) && (Z.land i1 m1 =? a1)
                 && (Z.land i2 m2 =? a2) && (Z.land i3 m3 =? a3) = true
                 <-> Z.land i0 m0 = a0 /\ Z.land i1 m1 = a1
                     /\ Z.land i2 m2 = a2 /\ Z.land i3 m3 = a3).
  { rewrite !andb_true_iff, !Z.eqb_eq. tauto. }
  split.
  - rewrite <- Hiff. split; [intros H; now injection H | now intros ->].
  - intros Hstray.
    destruct ((Z.land i0 m0 =? a0) && (Z.land i1 m1 =? a1)
              && (Z.land i2 m2 =? a2) && (Z.land i3 m3 =? a3)) eqn:E;
      [|reflexivity].
    destruct Hiff as [Hiff _].
    destruct (Hiff eq_refl) as (E0 & E1 & E2 & E3).
    apply land_absorbs in E0, E1, E2, E3. tauto.
Qed.

(** The masks in two parts. *)
Lemma cupsdCheckAuth_app_eq (b : build_t) (sys : system_t) (ip : word4)
    (hostname : string) (name_len : Z)
    (masks more : list cupsd_authmask_t) (w : world) :
  cupsdCheckAuth b sys ip hostname name_len (masks ++ more) w
  = let (hit, w1) := cupsdCheckAuth b sys ip hostname name_len masks w in
    if hit then (true, w1)
    else cupsdCheckAuth b sys ip hostname name_len more w1.
Proof.
  revert w; induction masks as [|m rest IH]; intros w;
    cbn [app cupsdCheckAuth]; [reflexivity|].
  unfold bind.
  destruct (check_mask b sys ip hostname name_len m w) as [[|] w1];
    [reflexivity|].
  apply IH.
Qed.

(** X8. [cupsdCheckAuth] returns at the first mask that matches: on a
    list in two parts it answers by the first part when a mask of it
    matches, without a look at the second part (no call is made for
    it), and otherwise goes on with the second part in the world that
    the first part left. *)
Theorem cupsdCheckAuth_first_match :
  forall (b : build_t) (sys : system_t) (ip : word4) (hostname : string)
         (name_len : Z) (masks more : list cupsd_authmask_t) (w : world),
    cupsdCheckAuth b sys ip hostname name_len (masks ++ more) w
    = (let (hit, w1) :=
         cupsdCheckAuth b sys ip hostname name_len masks w in
       if hit then (true, w1)
       else cupsdCheckAuth b sys ip hostname name_len more w1)
    /\ (fst (cupsdCheckAuth b sys ip hostname name_len masks w) = true ->
        cupsdCheckAuth b sys ip hostname name_len (masks ++ more) w
        = cupsdCheckAuth b sys ip hostname name_len masks w)
    /\ cupsdCheckAuth b sys ip hostname name_len [] w = (false, w).
Proof.
  intros b sys ip hostname name_len masks more w.
  pose proof (cupsdCheckAuth_app_eq b sys ip hostname name_len masks more
                w) as Happ.
  split; [exact Happ|]. split; [|reflexivity].
  intros Hhit. rewrite Happ.
  destruct (cupsdCheckAuth b sys ip hostname name_len masks w)
    as [[|] w1]; [reflexivity | discriminate].
Qed.

Lemma check_local_netifs_spec (b : build_t) (netip4 : Z) (netip6 : word4)
    (ifaces : list cupsd_netif_t) :
  check_local_netifs b netip4 netip6 ifaces = true
  <-> exists iface,
        In iface ifaces /\ is_local iface <> 0
        /\ netif_match b netip4 netip6 iface = true.
Proof.
  induction ifaces as [|iface rest IH]; simpl.
  - split; [discriminate | intros (i & [] & _)].
  - destruct (Z.eqb_spec (is_local iface) 0) as [E|E].
    + rewrite IH. split.
      * intros (i & Hin & H). exists i. split; [now right | exact H].
      * intros (i & [<-|Hin] & Hl & Hm); [now elim Hl | now exists i].
    + destruct (netif_match b netip4 netip6 iface) eqn:Hm.
      * split; [|reflexivity]. intros _. exists iface.
        split; [now left | now split].
      * rewrite IH. split.
        -- intros (i & Hin & H). exists i. split; [now right | exact H].
        -- intros (i & [<-|Hin] & Hl & Hm'); [congruence | now exists i].
Qed.

(** X9. The interface mask ["*"] (of [@LOCAL]) refreshes the list of
    the interfaces, once, and matches exactly the clients that are in
    the network of an interface of the refreshed list that is local;
    an interface that is not local admits nobody. *)
Theorem check_mask_local :
  forall (b : build_t) (sys : system_t) (ip : word4) (hostname : string)
         (name_len len : Z) (w : world),
    snd (check_mask b sys ip hostname name_len (AUTH_INTERFACE "*" len) w)
    = {| NetIFList := cupsdNetIFUpdate sys (NetIFList w);
         calls := call_NetIFUpdate :: calls w |}
    /\ (fst (check_mask b sys ip hostname name_len
               (AUTH_INTERFACE "*" len) w) = true
        <-> on_local_netif b ip (cupsdNetIFUpdate sys (NetIFList w))).
Proof.
  intros b sys [[[ip0 ip1] ip2] ip3] hostname name_len len w.
  unfold check_mask, on_local_netif.
  change (strcmp "*" "*" =? 0) with true. cbv iota.
  unfold bind, do_NetIFUpdate. cbn [fst snd NetIFList].
  split; [reflexivity|]. apply check_local_netifs_spec.
Qed.

(** A client on the local network, and one on the network of the
    interface that is not local. *)
Example check_mask_local_samples :
  fst (check_mask sample_build sample_system (0, 0, 0, 0xC0A80109)
         "192.168.1.9" 11 (AUTH_INTERFACE "*" 1) world_netifs) = true
  /\ fst (check_mask sample_build sample_system (0, 0, 0, 0x0A000009)
            "10.0.0.9" 8 (AUTH_INTERFACE "*" 1) world_netifs) = false.
Proof. split; reflexivity. Qed.

(* ================================================================== *)
(** * Properties of the functions that build the locations *)
(* ================================================================== *)

Lemma str_take_length (n : nat) (s : string) :
  String.length (str_take n s) = Nat.min n (String.length s).
Proof.
  revert s; induction n as [|n IH]; intros [|c r]; simpl;
    try reflexivity.
  now rewrite IH.
Qed.

(** The mask that [cupsdAllowHost] and [cupsdDenyHost] store. *)
Lemma host_mask_wf (name : string) (m : cupsd_authmask_t) :
  host_mask name = Some m -> mask_wf m /\ interface_fits m.
Proof.
  unfold host_mask.
  destruct (strcasecmp name "@LOCAL" =? 0).
  { intros H. injection H as <-. split; [reflexivity | simpl; lia]. }
  destruct (strncasecmp name "@IF(" 4 =? 0).
  2:{ intros H. injection H as <-. split; [reflexivity | exact I]. }
  set (ifname := strlcpy (str_from 4 name) 32).
  assert (Hfit : (String.length ifname <= 31)%nat).
  { unfold ifname, strlcpy. rewrite str_take_length.
    apply Nat.le_min_l. }
  destruct (String.length ifname) as [|last] eqn:Hlen; [discriminate|].
  destruct (char_at last ifname =? ")")%char; intros H;
    injection H as <-; unfold mask_wf, interface_fits, strlen.
  - rewrite str_take_length, Hlen. split; [f_equal|]; lia.
  - rewrite Hlen. split; [reflexivity | lia].
Qed.

(** X10. Whatever sequence of [cupsdAddName], [cupsdAllowHost],
    [cupsdDenyHost], [cupsdAllowIP] and [cupsdDenyIP] is applied to a
    record of [cupsdAddLocation], with or without memory, the stored
    length of the path is the length of the path, the stored length of
    every name of a mask is the length of that name, and the name of
    every interface mask has 31 bytes at most. *)
Theorem configured_lengths :
  forall (b : build_t) (loc : cupsd_location_t),
    configured b loc ->
    loc_wf loc
    /\ Forall (fun m => mask_wf m /\ interface_fits m) (allow loc)
    /\ Forall (fun m => mask_wf m /\ interface_fits m) (deny loc).
Proof.
  intros b loc Hc.
  induction Hc as [mem Locations path loc Hadd
                  | mem_array mem_name loc name Hc IH
                  | mem loc loc' name Hc IH Heq
                  | mem loc loc' name Hc IH Heq
                  | mem loc address netmask Hc IH
                  | mem loc address netmask Hc IH].
  - unfold cupsdAddLocation in Hadd.
    destruct mem; cbn [negb snd] in Hadd; [|discriminate].
    injection Hadd as <-. split; [reflexivity|]. split; constructor.
  - unfold cupsdAddName.
    destruct mem_array, mem_name; cbn [negb]; exact IH.
  - destruct IH as (Hwf & Ha & Hd). unfold cupsdAllowHost in Heq.
    destruct mem; cbn [negb] in Heq; [|injection Heq as <-; now split].
    destruct (host_mask name) as [m|] eqn:Hm; [|discriminate].
    cbn [add_allow] in Heq. injection Heq as <-.
    split; [exact Hwf|]. split; [|exact Hd].
    cbn [allow with_allow]. apply Forall_app. split; [exact Ha|].
    constructor; [now apply (host_mask_wf name) | constructor].
  - destruct IH as (Hwf & Ha & Hd). unfold cupsdDenyHost in Heq.
    destruct mem; cbn [negb] in Heq; [|injection Heq as <-; now split].
    destruct (host_mask name) as [m|] eqn:Hm; [|discriminate].
    cbn [add_deny] in Heq. injection Heq as <-.
    split; [exact Hwf|]. split; [exact Ha|].
    cbn [deny with_deny]. apply Forall_app. split; [exact Hd|].
    constructor; [now apply (host_mask_wf name) | constructor].
  - destruct IH as (Hwf & Ha & Hd). unfold cupsdAllowIP, add_allow.
    destruct mem; [|now split].
    split; [exact Hwf|]. split; [|exact Hd].
    cbn [allow with_allow]. apply Forall_app. split; [exact Ha|].
    constructor; [now split | constructor].
  - destruct IH as (Hwf & Ha & Hd). unfold cupsdDenyIP, add_deny.
    destruct mem; [|now split].
    split; [exact Hwf|]. split; [exact Ha|].
    cbn [deny with_deny]. apply Forall_app. split; [exact Hd|].
    constructor; [now split | constructor].
Qed.

(** /admin with the hosts of the domain .example.com allowed and the
    interface eth0 denied. *)
Lemma configured_lengths_witness :
  exists fresh loc,
    snd (cupsdAddLocation sample_build true [] "/admin") = Some fresh
    /\ cupsdDenyHost true
         (with_allow fresh [AUTH_NAME ".example.com" 12]) "@IF(eth0)"
       = Some loc
    /\ deny loc = [AUTH_INTERFACE "eth0" 4]
    /\ loc_wf loc
    /\ Forall (fun m => mask_wf m /\ interface_fits m) (allow loc)
    /\ Forall (fun m => mask_wf m /\ interface_fits m) (deny loc).
Proof.
  eexists. eexists. split; [reflexivity|]. split; [reflexivity|].
  split; [reflexivity|].
  refine (configured_lengths sample_build _ _).
  refine (configured_deny_host sample_build true _ _ "@IF(eth0)" _
            eq_refl).
  refine (configured_allow_host sample_build true _ _ ".example.com" _
            eq_refl).
  exact (configured_added sample_build true [] "/admin" _ eq_refl).
Defined.

(** A list of masks that ends in a mask that matches. *)
Lemma cupsdCheckAuth_last_hit (b : build_t) (sys : system_t) (ip : word4)
    (hostname : string) (name_len : Z) (masks : list cupsd_authmask_t)
    (m : cupsd_authmask_t) :
  (forall w, fst (check_mask b sys ip hostname name_len m w) = true) ->
  forall w,
    fst (cupsdCheckAuth b sys ip hostname name_len (masks ++ [m]) w)
    = true.
Proof.
  intros Hm w. rewrite cupsdCheckAuth_app_eq.
  destruct (cupsdCheckAuth b sys ip hostname name_len masks w)
    as [[|] w1]; [reflexivity|].
  cbn [cupsdCheckAuth]. unfold bind. specialize (Hm w1).
  destruct (check_mask b sys ip hostname name_len m w1) as [[|] w2];
    [reflexivity | discriminate].
Qed.

Lemma check_mask_name_hit (b : build_t) (sys : system_t) (ip : word4)
    (hostname mname : string) :
  host_matches hostname mname ->
  forall w,
    fst (check_mask b sys ip hostname (strlen hostname)
           (AUTH_NAME mname (strlen mname)) w) = true.
Proof.
  intros Hm w.
  destruct (check_mask_name_spec b sys ip hostname mname w)
    as (r & -> & Hr).
  now apply Hr.
Qed.

Lemma check_mask_ip_hit (b : build_t) (sys : system_t)
    (ip address netmask : word4) (hostname : string) (name_len : Z) :
  in_network ip address netmask ->
  forall w,
    fst (check_mask b sys ip hostname name_len (AUTH_IP address netmask) w)
    = true.
Proof.
  destruct ip as [[[i0 i1] i2] i3], address as [[[a0 a1] a2] a3],
    netmask as [[[m0 m1] m2] m3].
  intros (H0 & H1 & H2 & H3) w. unfold check_mask, ret. cbn [fst].
  rewrite !andb_true_iff, !Z.eqb_eq. tauto.
Qed.

(** The host check under Order Deny,Allow when the allow list ends in a
    mask that matches, and under Order Allow,Deny when the deny list
    does. *)
Lemma check_host_allow_last (b : build_t) (sys : system_t)
    (con : cupsd_client_t) (loc : cupsd_location_t)
    (masks : list cupsd_authmask_t) (m : cupsd_authmask_t) :
  order_type loc = AUTH_ALLOW ->
  allow loc = masks ++ [m] ->
  (forall w,
     fst (check_mask b sys (peer_address b (http_hostaddr con))
            (http_hostname con) (strlen (http_hostname con)) m w)
     = true) ->
  forall w, fst (check_host b sys con loc w) = AUTH_ALLOW.
Proof.
  intros Ho Ha Hm w. unfold check_host.
  destruct (strcasecmp (http_hostname con) "localhost" =? 0);
    [reflexivity|].
  rewrite Ho, Ha. change (AUTH_ALLOW =? AUTH_ALLOW) with true. cbv iota.
  unfold bind.
  destruct (cupsdCheckAuth b sys (peer_address b (http_hostaddr con))
              (http_hostname con)
              (Z.of_nat (String.length (http_hostname con))) (deny loc) w)
    as [denied w1].
  pose proof (cupsdCheckAuth_last_hit b sys _ _ _ masks m Hm w1) as Hhit.
  unfold strlen in Hhit.
  destruct (cupsdCheckAuth b sys (peer_address b (http_hostaddr con))
              (http_hostname con)
              (Z.of_nat (String.length (http_hostname con)))
              (masks ++ [m]) w1) as [allowed w2].
  cbn [fst] in Hhit. subst allowed. reflexivity.
Qed.

Lemma check_host_deny_last (b : build_t) (sys : system_t)
    (con : cupsd_client_t) (loc : cupsd_location_t)
    (masks : list cupsd_authmask_t) (m : cupsd_authmask_t) :
  order_type loc = AUTH_DENY ->
  deny loc = masks ++ [m] ->
  strcasecmp (http_hostname con) "localhost" <> 0 ->
  (forall w,
     fst (check_mask b sys (peer_address b (http_hostaddr con))
            (http_hostname con) (strlen (http_hostname con)) m w)
     = true) ->
  forall w, fst (check_host b sys con loc w) = AUTH_DENY.
Proof.
  intros Ho Hd Hl Hm w. unfold check_host.
  destruct (Z.eqb_spec (strcasecmp (http_hostname con) "localhost") 0)
    as [E|_]; [now elim Hl|].
  rewrite Ho, Hd. change (AUTH_DENY =? AUTH_ALLOW) with false.
  change (AUTH_DENY =? AUTH_DENY) with true. cbv iota.
  unfold bind.
  destruct (cupsdCheckAuth b sys (peer_address b (http_hostaddr con))
              (http_hostname con)
              (Z.of_nat (String.length (http_hostname con))) (allow loc) w)
    as [allowed w1].
  pose proof (cupsdCheckAuth_last_hit b sys _ _ _ masks m Hm w1) as Hhit.
  unfold strlen in Hhit.
  destruct (cupsdCheckAuth b sys (peer_address b (http_hostaddr con))
              (http_hostname con)
              (Z.of_nat (String.length (http_hostname con)))
              (masks ++ [m]) w1) as [denied w2].
  cbn [fst] in Hhit. subst denied. reflexivity.
Qed.

Lemma host_mask_plain (name : string) :
  strcasecmp name "@LOCAL" <> 0 ->
  strncasecmp name "@IF(" 4 <> 0 ->
  host_mask name = Some (AUTH_NAME name (strlen name)).
Proof.
  intros H1 H2. unfold host_mask.
  destruct (Z.eqb_spec (strcasecmp name "@LOCAL") 0); [now elim H1|].
  destruct (Z.eqb_spec (strncasecmp name "@IF(" 4) 0); [now elim H2|].
  reflexivity.
Qed.

(** X11. Under Order Deny,Allow, a host or domain name given to
    [cupsdAllowHost], and an address with its netmask given to
    [cupsdAllowIP], admit the clients they name: the host check of
    [cupsdIsAuthorized] on the location that results allows every
    client whose host name is the name (or ends in the domain),
    respectively whose address is in the network, whatever the deny
    list holds. *)
Theorem allow_admits :
  forall (b : build_t) (sys : system_t) (con : cupsd_client_t)
         (loc : cupsd_location_t),
    order_type loc = AUTH_ALLOW ->
    (forall name,
       strcasecmp name "@LOCAL" <> 0 ->
       strncasecmp name "@IF(" 4 <> 0 ->
       host_matches (http_hostname con) name ->
       exists loc',
         cupsdAllowHost true loc name = Some loc'
         /\ forall w, fst (check_host b sys con loc' w) = AUTH_ALLOW)
    /\ (forall address netmask,
          in_network (peer_address b (http_hostaddr con)) address netmask ->
          forall w,
            fst (check_host b sys con
                   (cupsdAllowIP true loc address netmask) w)
            = AUTH_ALLOW).
Proof.
  intros b sys con loc Ho. split.
  - intros name H1 H2 Hm.
    exists (with_allow loc (allow loc ++ [AUTH_NAME name (strlen name)])).
    split.
    + unfold cupsdAllowHost. cbn [negb].
      now rewrite (host_mask_plain name H1 H2).
    + apply (check_host_allow_last b sys con _ (allow loc)
               (AUTH_NAME name (strlen name))); [exact Ho | reflexivity|].
      now apply check_mask_name_hit.
  - intros address netmask Hin.
    apply (check_host_allow_last b sys con _ (allow loc)
             (AUTH_IP address netmask)); [exact Ho | reflexivity|].
    now apply check_mask_ip_hit.
Qed.

(** The domain .example.com allowed on a location that denies
    everybody. *)
Lemma allow_admits_witness :
  exists loc',
    cupsdAllowHost true
      (policy_location "/admin" AUTH_ALLOW AUTH_NONE AUTH_ANON
         AUTH_SATISFY_ALL [] [] [mask_all] HTTP_ENCRYPT_IF_REQUESTED)
      ".Example.COM" = Some loc'
    /\ fst (check_host sample_build sample_system
              (client_from "www.example.com") loc' world0) = AUTH_ALLOW.
Proof.
  destruct (proj1 (allow_admits sample_build sample_system
                     (client_from "www.example.com")
                     (policy_location "/admin" AUTH_ALLOW AUTH_NONE
                        AUTH_ANON AUTH_SATISFY_ALL [] [] [mask_all]
                        HTTP_ENCRYPT_IF_REQUESTED) eq_refl)
              ".Example.COM") as (loc' & Hloc & Hhost).
  - discriminate.
  - discriminate.
  - right. split; [reflexivity|]. now exists "www".
  - exists loc'. split; [exact Hloc | exact (Hhost world0)].
Defined.

(** X12. Under Order Allow,Deny, a host or domain name given to
    [cupsdDenyHost], and an address with its netmask given to
    [cupsdDenyIP], shut out the clients they name, whatever the allow
    list holds, except the client whose host name is localhost: the host
    check allows that one on every location. *)
Theorem deny_refuses :
  forall (b : build_t) (sys : system_t) (con : cupsd_client_t)
         (loc : cupsd_location_t),
    order_type loc = AUTH_DENY ->
    (strcasecmp (http_hostname con) "localhost" <> 0 ->
     (forall name,
        strcasecmp name "@LOCAL" <> 0 ->
        strncasecmp name "@IF(" 4 <> 0 ->
        host_matches (http_hostname con) name ->
        exists loc',
          cupsdDenyHost true loc name = Some loc'
          /\ forall w, fst (check_host b sys con loc' w) = AUTH_DENY)
     /\ (forall address netmask,
           in_network (peer_address b (http_hostaddr con)) address
             netmask ->
           forall w,
             fst (check_host b sys con
                    (cupsdDenyIP true loc address netmask) w)
             = AUTH_DENY))
    /\ (strcasecmp (http_hostname con) "localhost" = 0 ->
        forall name loc',
          cupsdDenyHost true loc name = Some loc' ->
          forall w, check_host b sys con loc' w = (AUTH_ALLOW, w)).
Proof.
  intros b sys con loc Ho. split; [intros Hl; split|].
  - intros name H1 H2 Hm.
    exists (with_deny loc (deny loc ++ [AUTH_NAME name (strlen name)])).
    split.
    + unfold cupsdDenyHost. cbn [negb].
      now rewrite (host_mask_plain name H1 H2).
    + apply (check_host_deny_last b sys con _ (deny loc)
               (AUTH_NAME name (strlen name)));
        [exact Ho | reflexivity | exact Hl|].
      now apply check_mask_name_hit.
  - intros address netmask Hin.
    apply (check_host_deny_last b sys con _ (deny loc)
             (AUTH_IP address netmask));
      [exact Ho | reflexivity | exact Hl|].
    now apply check_mask_ip_hit.
  - intros Hl name loc' _ w. unfold check_host.
    apply Z.eqb_eq in Hl. now rewrite Hl.
Qed.

(** The network 10.0.0.0/8 denied on a location that allows
    everybody; the client is 10.1.2.3. *)
Lemma deny_refuses_witness :
  fst (check_host sample_build sample_system
         (client_from "www.example.com")
         (cupsdDenyIP true
            (policy_location "/admin" AUTH_DENY AUTH_NONE AUTH_ANON
               AUTH_SATISFY_ALL [] [mask_all] []
               HTTP_ENCRYPT_IF_REQUESTED)
            (0, 0, 0, 0x0A000000) (0, 0, 0, 0xFF000000)) world0)
  = AUTH_DENY.
Proof.
  refine (proj2 (proj1 (deny_refuses sample_build sample_system
                          (client_from "www.example.com")
                          (policy_location "/admin" AUTH_DENY AUTH_NONE
                             AUTH_ANON AUTH_SATISFY_ALL [] [mask_all] []
                             HTTP_ENCRYPT_IF_REQUESTED) eq_refl) _)
            (0, 0, 0, 0x0A000000) (0, 0, 0, 0xFF000000) _ world0).
  - discriminate.
  - repeat split.
Defined.

(** The address 10.1.2.3 with the netmask 255.0.0.0: no client matches,
    not even 10.1.2.3. *)
Lemma check_mask_ip_witness :
  stray_bits (0, 0, 0, 0x0A010203) (0, 0, 0, 0xFF000000)
  /\ check_mask sample_build sample_system (0, 0, 0, 0x0A010203)
       "www.example.com" 15
       (AUTH_IP (0, 0, 0, 0x0A010203) (0, 0, 0, 0xFF000000)) world0
     = (false, world0).
Proof.
  assert (H : stray_bits (0, 0, 0, 0x0A010203) (0, 0, 0, 0xFF000000)).
  { right. right. right. discriminate. }
  split; [exact H|].
  exact (proj2 (check_mask_ip sample_build sample_system
                  (0, 0, 0, 0x0A010203) (0, 0, 0, 0x0A010203)
                  (0, 0, 0, 0xFF000000) "www.example.com" 15 world0) H).
Defined.

(** A name mask that matches before the interface mask of [@LOCAL]:
    the list of the interfaces is not refreshed. *)
Lemma cupsdCheckAuth_first_match_witness :
  cupsdCheckAuth sample_build sample_system (0, 0, 0, 0x0A010203)
    "www.example.com" 15
    ([AUTH_NAME ".example.com" 12] ++ [AUTH_INTERFACE "*" 1]) world0
  = (true, world0).
Proof.
  refine (proj1 (proj2 (cupsdCheckAuth_first_match sample_build
                          sample_system (0, 0, 0, 0x0A010203)
                          "www.example.com" 15
                          [AUTH_NAME ".example.com" 12]
                          [AUTH_INTERFACE "*" 1] world0)) _).
  reflexivity.
Defined.

(* ================================================================== *)
(** * Properties of cupsdCopyLocation *)
(* ================================================================== *)

(** The masks of a copy have their names exactly when the original has
    no interface mask, and they are then the masks of the original. *)
Lemma whole_masks_copy (masks : list cupsd_authmask_t) :
  whole_masks (map copy_mask masks)
  = if has_interface masks then None else Some masks.
Proof.
  induction masks as [|m rest IH]; cbn [map whole_masks]; [reflexivity|].
  unfold has_interface in *. cbn [existsb].
  destruct m as [mname len|address netmask|mname len];
    cbn [copy_mask is_interface orb whole_masks]; try reflexivity;
    rewrite IH; now destruct (existsb is_interface rest).
Qed.

Lemma has_interface_type_only (masks : list cupsd_authmask_t) :
  has_interface masks = true -> In copied_type_only (map copy_mask masks).
Proof.
  unfold has_interface.
  induction masks as [|m rest IH]; cbn [existsb map]; [discriminate|].
  destruct m as [mname len|address netmask|mname len];
    cbn [is_interface orb copy_mask]; intros H;
    try (right; now apply IH); now left.
Qed.

(** What [cupsdCopyLocation] returns with memory: for an original whose
    masks are names and addresses, the table with the copy; for an
    original with an interface mask, the copy with masks that have the
    type alone. *)
Lemma cupsdCopyLocation_spec (b : build_t)
    (Locations : list cupsd_location_t) (locindex : nat)
    (orig : cupsd_location_t) :
  nth_error Locations locindex = Some orig ->
  (has_interface (allow orig) = false ->
   has_interface (deny orig) = false ->
   exists copy,
     cupsdCopyLocation b true Locations locindex
     = Some (copy_made (Locations ++ [copy]) (List.length Locations))
     /\ same_policy orig copy
     /\ op copy = 0
     /\ location copy = strlcpy (location orig) (HTTP_MAX_URI b)
     /\ loc_wf copy)
  /\ (has_interface (allow orig) || has_interface (deny orig) = true ->
      exists head,
        cupsdCopyLocation b true Locations locindex
        = Some (copy_unnamed head (map copy_mask (allow orig))
                  (map copy_mask (deny orig)))
        /\ same_policy (with_deny (with_allow orig []) []) head
        /\ op head = 0
        /\ location head = strlcpy (location orig) (HTTP_MAX_URI b)
        /\ loc_wf head).
Proof.
  intros Hnth.
  assert (Hfix : forall s n, strlcpy (strlcpy s n) n = strlcpy s n).
  { intros s n. unfold strlcpy. apply str_take_all.
    rewrite str_take_length. apply Nat.le_min_l. }
  unfold cupsdCopyLocation, cupsdAddLocation. rewrite Hnth.
  cbn [negb snd location op length]. rewrite !whole_masks_copy, Hfix.
  split.
  - intros -> ->. eexists. split; [reflexivity|].
    split; [repeat split|]. split; [reflexivity|].
    split; reflexivity.
  - intros Hsome. eexists. split.
    + destruct (has_interface (allow orig)); [reflexivity|].
      cbn [orb] in Hsome. rewrite Hsome. reflexivity.
    + split; [repeat split|]. split; [reflexivity|].
      split; reflexivity.
Qed.

(** X13. With memory, [cupsdCopyLocation] returns a copy.  For an
    original whose masks are names and addresses, the table has grown
    by the copy alone, at its end (the locations it held are where they
    were); the copy has the verb mask, the order, the type, the level,
    the satisfy mode, the names, the allow and deny masks and the
    encryption of the original, and its path where that fits the
    buffer; [op] is not copied: it is 0.  For an original with an
    interface mask the copy has the same fields, but of each interface
    mask the type alone: the name is NULL.  Without memory the table is
    left as it was and nothing is returned. *)
Theorem cupsdCopyLocation_copy :
  forall (b : build_t) (Locations : list cupsd_location_t)
         (locindex : nat) (orig : cupsd_location_t),
    nth_error Locations locindex = Some orig ->
    cupsdCopyLocation b false Locations locindex
    = Some (copy_null Locations)
    /\ (forall Locations' j,
          cupsdCopyLocation b true Locations locindex
          = Some (copy_made Locations' j) ->
          exists copy,
            Locations' = Locations ++ [copy]
            /\ nth_error Locations' j = Some copy
            /\ (forall i loc, nth_error Locations i = Some loc ->
                  nth_error Locations' i = Some loc)
            /\ same_policy orig copy
            /\ op copy = 0
            /\ loc_wf copy
            /\ ((String.length (location orig) < HTTP_MAX_URI b)%nat ->
                location copy = location orig))
    /\ (has_interface (allow orig) = false ->
        has_interface (deny orig) = false ->
        exists Locations' j,
          cupsdCopyLocation b true Locations locindex
          = Some (copy_made Locations' j))
    /\ (has_interface (allow orig) || has_interface (deny orig) = true ->
        exists head,
          cupsdCopyLocation b true Locations locindex
          = Some (copy_unnamed head (map copy_mask (allow orig))
                    (map copy_mask (deny orig)))
          /\ In copied_type_only
               (map copy_mask (allow orig) ++ map copy_mask (deny orig))
          /\ same_policy (with_deny (with_allow orig []) []) head
          /\ op head = 0
          /\ loc_wf head
          /\ ((String.length (location orig) < HTTP_MAX_URI b)%nat ->
              location head = location orig)).
Proof.
  intros b Locations locindex orig Hnth.
  destruct (cupsdCopyLocation_spec b Locations locindex orig Hnth)
    as [Hwhole Hunnamed].
  split; [|split; [|split]].
  - unfold cupsdCopyLocation, cupsdAddLocation. now rewrite Hnth.
  - intros Locations' j Hcopy.
    destruct (has_interface (allow orig) || has_interface (deny orig))
      eqn:Hi.
    { destruct (Hunnamed eq_refl) as (head & Hhead & _).
      rewrite Hhead in Hcopy. discriminate Hcopy. }
    apply orb_false_elim in Hi. destruct Hi as [Ha Hd].
    destruct (Hwhole Ha Hd) as (copy & Hmade & Hsame & Hop & Hloc & Hwf).
    rewrite Hmade in Hcopy. injection Hcopy as <- <-.
    exists copy. split; [reflexivity|].
    split; [rewrite nth_error_app2, Nat.sub_diag by lia; reflexivity|].
    split.
    { intros i loc Hi. rewrite nth_error_app1; [exact Hi|].
      apply nth_error_Some. congruence. }
    split; [exact Hsame|]. split; [exact Hop|]. split; [exact Hwf|].
    intros Hfit. rewrite Hloc. now apply strlcpy_fits.
  - intros Ha Hd.
    destruct (Hwhole Ha Hd) as (copy & Hmade & _).
    now exists (Locations ++ [copy]), (List.length Locations).
  - intros Hi. destruct (Hunnamed Hi) as (head & Hhead & Hsame & Hop
                                          & Hloc & Hwf).
    exists head. split; [exact Hhead|]. split.
    { apply in_or_app. apply orb_true_iff in Hi.
      destruct Hi as [Hi|Hi]; [left | right];
        now apply has_interface_type_only. }
    split; [exact Hsame|]. split; [exact Hop|]. split; [exact Hwf|].
    intros Hfit. rewrite Hloc. now apply strlcpy_fits.
Qed.

(** The copy of /admin/conf/ in a table of two locations, and the copy
    of /lan, whose mask is the interface mask of [@LOCAL]. *)
Lemma cupsdCopyLocation_copy_witness :
  nth_error [loc_root; loc_admin_conf] 1 = Some loc_admin_conf
  /\ (exists copy,
        cupsdCopyLocation sample_build true [loc_root; loc_admin_conf] 1
        = Some (copy_made ([loc_root; loc_admin_conf] ++ [copy]) 2)
        /\ same_policy loc_admin_conf copy
        /\ op copy = 0
        /\ location copy = "/admin/conf/")
  /\ exists head,
       cupsdCopyLocation sample_build true [loc_root; loc_lan] 1
       = Some (copy_unnamed head [copied_type_only] [])
       /\ location head = "/lan".
Proof.
  split; [reflexivity|]. split.
  - destruct (proj1 (proj2 (cupsdCopyLocation_copy sample_build
                              [loc_root; loc_admin_conf] 1 loc_admin_conf
                              eq_refl))
                _ 2%nat eq_refl)
      as (copy & Heq & _ & _ & Hsame & Hop & _ & Hloc).
    apply app_inv_head in Heq. injection Heq as Heq.
    exists copy. split; [now rewrite <- Heq|].
    split; [exact Hsame|]. split; [exact Hop|].
    apply Hloc. simpl. lia.
  - destruct (proj2 (proj2 (proj2 (cupsdCopyLocation_copy sample_build
                                     [loc_root; loc_lan] 1 loc_lan
                                     eq_refl))) eq_refl)
      as (head & Hhead & _ & _ & _ & _ & Hloc).
    exists head. split; [exact Hhead|]. apply Hloc. simpl. lia.
Defined.

(** [cupsdIsAuthorized] reads the policy of the location alone: not its
    path, the length of the path or [op]. *)
Lemma cupsdIsAuthorized_same_policy (b : build_t) (sys : system_t)
    (con : cupsd_client_t) (owner : option string)
    (loc loc' : cupsd_location_t) :
  same_policy loc loc' ->
  cupsdIsAuthorized b sys (with_best con (Some loc)) owner
  = cupsdIsAuthorized b sys (with_best con (Some loc')) owner.
Proof.
  destruct loc, loc'. unfold same_policy.
  cbn [limit order_type type level satisfy names allow deny encryption].
  intros (-> & -> & -> & -> & -> & -> & -> & -> & ->).
  reflexivity.
Qed.

(** X14. For an original whose masks are names and addresses (no mask
    of [@LOCAL] or [@IF]), a request governed by the copy that
    [cupsdCopyLocation] made gets from [cupsdIsAuthorized] the status
    that the same request governed by the original gets, with the same
    calls.  For an original with an interface mask this is not so: the
    copy has a mask with the type alone, whose NULL name
    [cupsdCheckAuth] would pass to [strcmp]. *)
Theorem cupsdCopyLocation_same_answer :
  forall (b : build_t) (sys : system_t)
         (Locations : list cupsd_location_t) (locindex : nat)
         (orig : cupsd_location_t) (con : cupsd_client_t)
         (owner : option string) (w : world),
    nth_error Locations locindex = Some orig ->
    (has_interface (allow orig) = false ->
     has_interface (deny orig) = false ->
     exists Locations' j,
       cupsdCopyLocation b true Locations locindex
       = Some (copy_made Locations' j)
       /\ cupsdIsAuthorized b sys (with_best con (nth_error Locations' j))
            owner w
          = cupsdIsAuthorized b sys (with_best con (Some orig)) owner w)
    /\ (has_interface (allow orig) || has_interface (deny orig) = true ->
        exists head allowed denied,
          cupsdCopyLocation b true Locations locindex
          = Some (copy_unnamed head allowed denied)
          /\ In copied_type_only (allowed ++ denied)).
Proof.
  intros b sys Locations locindex orig con owner w Hnth.
  destruct (cupsdCopyLocation_spec b Locations locindex orig Hnth)
    as [Hwhole Hunnamed].
  split.
  - intros Ha Hd.
    destruct (Hwhole Ha Hd) as (copy & Hmade & Hsame & _).
    exists (Locations ++ [copy]), (List.length Locations).
    split; [exact Hmade|].
    rewrite nth_error_app2, Nat.sub_diag by lia. cbn [nth_error].
    now rewrite (cupsdIsAuthorized_same_policy b sys con owner orig copy
                   Hsame).
  - intros Hi. destruct (Hunnamed Hi) as (head & Hhead & _).
    exists head, (map copy_mask (allow orig)),
      (map copy_mask (deny orig)).
    split; [exact Hhead|].
    apply in_or_app. apply orb_true_iff in Hi.
    destruct Hi as [Hi|Hi]; [left | right];
      now apply has_interface_type_only.
Qed.

(** The location /jobs of the job owners and its copy, for bob. *)
Lemma cupsdCopyLocation_same_answer_witness :
  exists Locations' j,
    cupsdCopyLocation sample_build true [loc_root; loc_owner] 1
    = Some (copy_made Locations' j)
    /\ cupsdIsAuthorized sample_build sample_system
         (with_best (client_bob None) (nth_error Locations' j)) None
         world0
       = cupsdIsAuthorized sample_build sample_system
           (with_best (client_bob None) (Some loc_owner)) None world0.
Proof.
  exact (proj1 (cupsdCopyLocation_same_answer sample_build sample_system
                  [loc_root; loc_owner] 1 loc_owner (client_bob None)
                  None world0 eq_refl) eq_refl eq_refl).
Defined.

(** A location whose path, length and verb mask are those of a location
    of the table, added at the end of the table, is never the best. *)
Lemma find_best_loop_duplicate (uri : string) (state : http_state_t)
    (Locations : list cupsd_location_t) (orig copy : cupsd_location_t) :
  Forall loc_wf Locations ->
  In orig Locations ->
  location copy = location orig ->
  length copy = length orig ->
  limit copy = limit orig ->
  find_best_loop (Locations ++ [copy]) uri (limits state)
  = find_best_loop Locations uri (limits state).
Proof.
  intros Hwf Hin Hloc Hlen Hlim.
  assert (Hwfo : loc_wf orig).
  { rewrite Forall_forall in Hwf. now apply Hwf. }
  assert (Hwfc : loc_wf copy).
  { unfold loc_wf. now rewrite Hlen, Hloc. }
  assert (H0 : find_best_inv uri state [] (None, 0)).
  { split; [reflexivity | intros l []]. }
  pose proof (find_best_inv_fold uri state Locations Hwf [] (None, 0) H0)
    as Hinv.
  rewrite app_nil_l in Hinv.
  unfold find_best_loop. rewrite fold_left_app. cbn [fold_left].
  destruct (fold_left (find_best_step uri (limits state)) Locations
              (None, 0)) as [best0 bestlen].
  destruct (find_best_step_spec uri state best0 bestlen copy Hwfc)
    as [(Hgt & Hg & _)|(_ & ->)]; [|reflexivity].
  exfalso.
  assert (Hgo : governs (queue_uri uri) uri state orig).
  { unfold governs, path_matches, verb_allowed in *.
    now rewrite <- Hloc, <- Hlim. }
  unfold find_best_inv in Hinv. cbn [fst snd] in Hinv.
  destruct best0 as [x|].
  - destruct Hinv as (_ & _ & Hx & Hmax).
    specialize (Hmax orig Hin Hgo). lia.
  - destruct Hinv as (_ & Hnone). now apply (Hnone orig Hin).
Qed.

(** X15. The copy that [cupsdCopyLocation] adds to the table never
    governs a request, whatever the masks of the original are: it has
    the path and the verb mask of the original, which comes before it
    in the table, and [cupsdFindBest] reads no mask; so [cupsdFindBest]
    answers on the table with the copy as on the table before (for a
    table whose lengths are the lengths of the paths, and an original
    whose path fits the buffer).  For a copy with interface masks of
    the type alone this is stated for the table that ends with the
    fields of the copy and any masks in their place. *)
Theorem cupsdCopyLocation_never_best :
  forall (b : build_t) (Locations : list cupsd_location_t)
         (locindex : nat) (orig : cupsd_location_t)
         (path : string) (state : http_state_t),
    Forall loc_wf Locations ->
    nth_error Locations locindex = Some orig ->
    (String.length (location orig) < HTTP_MAX_URI b)%nat ->
    match cupsdCopyLocation b true Locations locindex with
    | Some (copy_made Locations' j) =>
        cupsdFindBest b Locations' path state
        = cupsdFindBest b Locations path state
    | Some (copy_unnamed head allowed denied) =>
        forall masks_allow masks_deny : list cupsd_authmask_t,
          cupsdFindBest b
            (Locations
             ++ [with_deny (with_allow head masks_allow) masks_deny])
            path state
          = cupsdFindBest b Locations path state
    | Some (copy_null _) => False
    | None => False
    end.
Proof.
  intros b Locations locindex orig path state Hwf Hnth Hfit.
  assert (Hin : In orig Locations) by now apply nth_error_In with locindex.
  assert (Hwfo : loc_wf orig).
  { rewrite Forall_forall in Hwf. now apply Hwf. }
  destruct (cupsdCopyLocation_spec b Locations locindex orig Hnth)
    as [Hwhole Hunnamed].
  destruct (has_interface (allow orig) || has_interface (deny orig))
    eqn:Hi.
  - destruct (Hunnamed eq_refl) as (head & -> & Hsame & _ & Hloc & Hwfh).
    rewrite (strlcpy_fits _ _ Hfit) in Hloc.
    intros masks_allow masks_deny. unfold cupsdFindBest.
    apply (find_best_loop_duplicate _ state Locations orig _ Hwf Hin).
    + exact Hloc.
    + cbn [length with_deny with_allow]. rewrite Hwfh, Hloc.
      symmetry. exact Hwfo.
    + symmetry. apply Hsame.
  - apply orb_false_elim in Hi. destruct Hi as [Ha Hd].
    destruct (Hwhole Ha Hd) as (copy & -> & Hsame & _ & Hloc & Hwfc).
    rewrite (strlcpy_fits _ _ Hfit) in Hloc.
    unfold cupsdFindBest.
    apply (find_best_loop_duplicate _ state Locations orig copy Hwf Hin).
    + exact Hloc.
    + rewrite Hwfc, Hloc. symmetry. exact Hwfo.
    + symmetry. apply Hsame.
Qed.

(** The copy of /admin/conf/: a GET of /admin/conf/cupsd.conf is still
    governed by the original; and so is a GET of /lan/x after the copy
    of /lan, whose mask is an interface mask. *)
Lemma cupsdCopyLocation_never_best_witness :
  Forall loc_wf [loc_root; loc_admin_conf]
  /\ cupsdFindBest sample_build
       ([loc_root; loc_admin_conf] ++
        [{| location := "/admin/conf/"; op := 0;
            limit := limit loc_admin_conf; length := 12;
            order_type := order_type loc_admin_conf;
            type := type loc_admin_conf; level := level loc_admin_conf;
            satisfy := satisfy loc_admin_conf;
            names := names loc_admin_conf; allow := [];
            deny := [];
            encryption := encryption loc_admin_conf |}])
       "/admin/conf/cupsd.conf" HTTP_GET
     = cupsdFindBest sample_build [loc_root; loc_admin_conf]
         "/admin/conf/cupsd.conf" HTTP_GET
  /\ match cupsdCopyLocation sample_build true [loc_root; loc_lan] 1 with
     | Some (copy_unnamed head _ _) =>
         cupsdFindBest sample_build ([loc_root; loc_lan] ++ [head])
           "/lan/x" HTTP_GET = Some loc_lan
     | _ => False
     end.
Proof.
  assert (Hwf : Forall loc_wf [loc_root; loc_admin_conf]).
  { repeat constructor. }
  assert (Hwf' : Forall loc_wf [loc_root; loc_lan]).
  { repeat constructor. }
  assert (H1 : (String.length (location loc_admin_conf)
                < HTTP_MAX_URI sample_build)%nat) by (simpl; lia).
  assert (H2 : (String.length (location loc_lan)
                < HTTP_MAX_URI sample_build)%nat) by (simpl; lia).
  split; [exact Hwf|]. split.
  - exact (cupsdCopyLocation_never_best sample_build
             [loc_root; loc_admin_conf] 1 loc_admin_conf
             "/admin/conf/cupsd.conf" HTTP_GET Hwf eq_refl H1).
  - pose proof (cupsdCopyLocation_never_best sample_build
                  [loc_root; loc_lan] 1 loc_lan "/lan/x" HTTP_GET Hwf'
                  eq_refl H2) as H.
    cbv beta iota delta [cupsdCopyLocation] in H. cbn in H.
    specialize (H [] []). exact H.
Defined.

(* ================================================================== *)
(** * Properties of the names of a location *)
(* ================================================================== *)

Lemma cupsdGetMD5Passwd_value (sys : system_t) (user : string)
    (grp : option string) (w : world) :
  cupsdGetMD5Passwd sys user grp w
  = (md5_lookup sys user grp,
     {| NetIFList := NetIFList w;
        calls := call_cupsFileOpen (passwd_md5_filename sys) :: calls w |}).
Proof.
  unfold cupsdGetMD5Passwd, md5_lookup, bind, record_call, ret.
  now destruct (cupsFile sys (passwd_md5_filename sys)).
Qed.

Lemma cupsdCheckGroup_admits (sys : system_t) (user g : string)
    (pw : option passwd) (w : world) :
  fst (cupsdCheckGroup sys (Some user) pw (Some g) w)
  = group_admits sys user pw g.
Proof.
  rewrite cupsdCheckGroup_value, cupsdGetMD5Passwd_value. reflexivity.
Qed.

Lemma check_system_groups_admits (sys : system_t) (user : string)
    (pw : option passwd) (groups : list string) (w : world) :
  fst (check_system_groups sys user pw groups w)
  = existsb (group_admits sys user pw) groups.
Proof.
  revert w; induction groups as [|g rest IH]; intros w;
    cbn [check_system_groups existsb]; [reflexivity|].
  unfold bind. rewrite <- (cupsdCheckGroup_admits sys user g pw w).
  destruct (cupsdCheckGroup sys (Some user) pw (Some g) w) as [[|] w1];
    cbn [fst orb]; [reflexivity | apply IH].
Qed.

(** The loops over the names answer for the user what one of the names
    answers. *)
Lemma check_user_names_admits (sys : system_t) (user : string)
    (owner : option string) (pw : option passwd) (nms : list string)
    (w : world) :
  fst (check_user_names sys user owner pw nms w)
  = existsb (user_name_admits sys user owner pw) nms.
Proof.
  revert w; induction nms as [|n rest IH]; intros w;
    cbn [check_user_names existsb]; [reflexivity|].
  unfold user_name_admits at 1.
  destruct ((strcasecmp n "@OWNER" =? 0)
            && match owner with
               | Some o => strcasecmp user o =? 0
               | None => false
               end); [reflexivity|].
  destruct (strcasecmp n "@SYSTEM" =? 0).
  { unfold bind.
    rewrite <- (check_system_groups_admits sys user pw (SystemGroups sys) w).
    destruct (check_system_groups sys user pw (SystemGroups sys) w)
      as [[|] w1]; cbn [fst orb]; [reflexivity | apply IH]. }
  destruct (first_char n =? "@")%char.
  { unfold bind.
    rewrite <- (cupsdCheckGroup_admits sys user (str_from 1 n) pw w).
    destruct (cupsdCheckGroup sys (Some user) pw (Some (str_from 1 n)) w)
      as [[|] w1]; cbn [fst orb]; [reflexivity | apply IH]. }
  destruct (strcasecmp user n =? 0); cbn [orb]; [reflexivity | apply IH].
Qed.

Lemma check_group_names_admits (sys : system_t) (user : string)
    (pw : option passwd) (nms : list string) (w : world) :
  fst (check_group_names sys user pw nms w)
  = existsb (group_name_admits sys user pw) nms.
Proof.
  revert w; induction nms as [|n rest IH]; intros w;
    cbn [check_group_names existsb]; [reflexivity|].
  unfold group_name_admits at 1. unfold bind.
  destruct (strcasecmp n "@SYSTEM" =? 0).
  - rewrite <- (check_system_groups_admits sys user pw (SystemGroups sys) w).
    destruct (check_system_groups sys user pw (SystemGroups sys) w)
      as [[|] w1]; cbn [fst orb]; [reflexivity | apply IH].
  - rewrite <- (cupsdCheckGroup_admits sys user n pw w).
    destruct (cupsdCheckGroup sys (Some user) pw (Some n) w)
      as [[|] w1]; cbn [fst orb]; [reflexivity | apply IH].
Qed.

(** The status of [check_access], without the calls. *)
Lemma check_access_value (sys : system_t) (con : cupsd_client_t)
    (owner : option string) (loc : cupsd_location_t)
    (pw : option passwd) (w : world) :
  fst (check_access sys con owner loc pw w)
  = if strcmp (username con) "root" =? 0 then HTTP_OK
    else if level loc =? AUTH_USER then
      if num_names loc =? 0 then HTTP_OK
      else if existsb (user_name_admits sys (username con) owner pw)
                (names loc)
      then HTTP_OK else HTTP_UNAUTHORIZED
    else if type loc =? AUTH_BASIC then
      if existsb (group_name_admits sys (username con) pw) (names loc)
      then HTTP_OK else HTTP_UNAUTHORIZED
    else HTTP_OK.
Proof.
  unfold check_access.
  destruct (strcmp (username con) "root" =? 0); [reflexivity|].
  destruct (level loc =? AUTH_USER).
  - destruct (num_names loc =? 0); [reflexivity|].
    unfold bind.
    rewrite <- (check_user_names_admits sys (username con) owner pw
                  (names loc) w).
    now destruct (check_user_names sys (username con) owner pw
                    (names loc) w) as [[|] w1].
  - destruct (type loc =? AUTH_BASIC); [|reflexivity].
    unfold bind.
    rewrite <- (check_group_names_admits sys (username con) pw
                  (names loc) w).
    now destruct (check_group_names sys (username con) pw (names loc) w)
      as [[|] w1].
Qed.

(** X16. The names of a location are alternatives: the status that
    follows a good password does not depend on the order of the names,
    nor on how often a name is given, nor on the world it is computed
    in (the calls made so far, the list of the interfaces). *)
Theorem check_access_names_order :
  forall (sys : system_t) (con : cupsd_client_t) (owner : option string)
         (loc : cupsd_location_t) (pw : option passwd)
         (nms : list string) (w w' : world),
    (forall n, In n nms <-> In n (names loc)) ->
    fst (check_access sys con owner (with_names loc nms) pw w')
    = fst (check_access sys con owner loc pw w).
Proof.
  intros sys con owner loc pw nms w w' Hsame.
  rewrite !check_access_value. cbn [level type names with_names].
  assert (He : forall f : string -> bool,
             existsb f nms = existsb f (names loc)).
  { intros f. destruct (existsb f (names loc)) eqn:E.
    - apply existsb_exists in E. destruct E as (x & Hin & Hx).
      apply existsb_exists. exists x. split; [now apply Hsame | exact Hx].
    - destruct (existsb f nms) eqn:E'; [|reflexivity].
      apply existsb_exists in E'. destruct E' as (x & Hin & Hx).
      rewrite <- E. symmetry. apply existsb_exists. exists x.
      split; [now apply Hsame | exact Hx]. }
  assert (Hn : (num_names (with_names loc nms) =? 0)
               = (num_names loc =? 0)).
  { unfold num_names. cbn [names with_names].
    destruct nms as [|n nms'], (names loc) as [|m rest] eqn:El;
      try reflexivity.
    - destruct (proj2 (Hsame m)); now left.
    - destruct (proj1 (Hsame n)); now left. }
  rewrite Hn, !He. reflexivity.
Qed.

(** The names bob and @SYSTEM in the other order, one of them
    twice. *)
Lemma check_access_names_order_witness :
  fst (check_access sample_system (client_bob None) None
         (with_names loc_bob_only ["@SYSTEM"; "bob"; "@SYSTEM"]) None
         world_after_pam)
  = fst (check_access sample_system (client_bob None) None
           (with_names loc_bob_only ["bob"; "@SYSTEM"]) None world0).
Proof.
  apply (check_access_names_order sample_system (client_bob None) None
           (with_names loc_bob_only ["bob"; "@SYSTEM"]) None
           ["@SYSTEM"; "bob"; "@SYSTEM"] world0 world_after_pam).
  intros n. simpl. tauto.
Defined.

Lemma tolower_at (c : ascii) : tolower c = "@"%char -> c = "@"%char.
Proof.
  destruct c as [[] [] [] [] [] [] [] []]; vm_compute;
    intros H; try discriminate H; reflexivity.
Qed.

(** A name that is one of the tokens begins with ['@']. *)
Lemma strcasecmp_token (n token : string) :
  first_char token = "@"%char ->
  strcasecmp n token = 0 -> first_char n = "@"%char.
Proof.
  intros Ht H. apply strcasecmp_eq in H.
  destruct token as [|c r]; [discriminate|]. simpl in Ht. subst c.
  destruct n as [|c' r']; [discriminate|].
  simpl in H. injection H as H _. now apply tolower_at.
Qed.

Lemma user_name_admits_plain (sys : system_t) (user : string)
    (owner : option string) (pw : option passwd) (n : string) :
  first_char n <> "@"%char ->
  user_name_admits sys user owner pw n = (strcasecmp user n =? 0).
Proof.
  intros Hn. unfold user_name_admits.
  destruct (Z.eqb_spec (strcasecmp n "@OWNER") 0) as [E|_].
  { elim Hn. now apply (strcasecmp_token n "@OWNER"). }
  destruct (Z.eqb_spec (strcasecmp n "@SYSTEM") 0) as [E|_].
  { elim Hn. now apply (strcasecmp_token n "@SYSTEM"). }
  cbn [andb].
  destruct (Ascii.eqb_spec (first_char n) "@"%char); [now elim Hn|].
  reflexivity.
Qed.

(** X17. [cupsdAddName] and the check of the names.  A location of the
    level [AUTH_USER] without names admits every user with a good
    password; the first name added to it shuts out the users that the
    name does not admit.  A plain name (no ['@'] in front) admits the
    user of that name, whatever the case of the letters.  A user that
    names of the location admit is still admitted after one more
    name. *)
Theorem cupsdAddName_admits :
  forall (sys : system_t) (con : cupsd_client_t) (owner : option string)
         (loc : cupsd_location_t) (name : string) (pw : option passwd)
         (w : world),
    level loc = AUTH_USER ->
    (names loc = [] ->
     fst (check_access sys con owner loc pw w) = HTTP_OK
     /\ (strcmp (username con) "root" <> 0 ->
         user_name_admits sys (username con) owner pw name = false ->
         fst (check_access sys con owner
                (cupsdAddName true true loc name) pw w)
         = HTTP_UNAUTHORIZED))
    /\ (first_char name <> "@"%char ->
        strcasecmp (username con) name = 0 ->
        fst (check_access sys con owner
               (cupsdAddName true true loc name) pw w) = HTTP_OK)
    /\ (names loc <> [] ->
        fst (check_access sys con owner loc pw w) = HTTP_OK ->
        forall mem_array mem_name,
          fst (check_access sys con owner
                 (cupsdAddName mem_array mem_name loc name) pw w)
          = HTTP_OK).
Proof.
  intros sys con owner loc name pw w Hlevel.
  assert (Hadded :
            fst (check_access sys con owner
                   (cupsdAddName true true loc name) pw w)
            = if strcmp (username con) "root" =? 0 then HTTP_OK
              else if existsb (user_name_admits sys (username con) owner pw)
                        (names loc)
                      || user_name_admits sys (username con) owner pw name
              then HTTP_OK else HTTP_UNAUTHORIZED).
  { rewrite check_access_value. unfold cupsdAddName, num_names.
    cbn [negb level names with_names]. rewrite Hlevel.
    change (AUTH_USER =? AUTH_USER) with true. cbv iota.
    rewrite length_app, existsb_app. cbn [List.length existsb].
    rewrite orb_false_r.
    destruct (Z.eqb_spec (Z.of_nat (List.length (names loc) + 1)) 0);
      [lia | reflexivity]. }
  split; [|split].
  - intros Hnone. split.
    + rewrite check_access_value, Hlevel. unfold num_names.
      rewrite Hnone. now destruct (strcmp (username con) "root" =? 0).
    + intros Hroot Hno. rewrite Hadded, Hnone, Hno.
      apply Z.eqb_neq in Hroot. now rewrite Hroot.
  - intros Hplain Hname. rewrite Hadded.
    rewrite (user_name_admits_plain sys _ owner pw name Hplain).
    apply Z.eqb_eq in Hname. rewrite Hname, orb_true_r.
    now destruct (strcmp (username con) "root" =? 0).
  - intros Hsome Hok mem_array mem_name.
    unfold cupsdAddName.
    destruct mem_array; cbn [negb]; [|exact Hok].
    destruct mem_name; cbn [negb]; [|exact Hok].
    change (with_names loc (names loc ++ [name]))
      with (cupsdAddName true true loc name).
    rewrite Hadded.
    rewrite check_access_value, Hlevel in Hok.
    change (AUTH_USER =? AUTH_USER) with true in Hok. cbv iota in Hok.
    destruct (strcmp (username con) "root" =? 0); [reflexivity|].
    unfold num_names in Hok.
    destruct (names loc) as [|n rest] eqn:En; [now elim Hsome|].
    destruct (Z.eqb_spec (Z.of_nat (List.length (n :: rest))) 0)
      as [E|_]; [simpl in E; lia|].
    destruct (existsb (user_name_admits sys (username con) owner pw)
                (n :: rest)); [reflexivity | discriminate].
Qed.

(** The name Bob added to a location without names: bob passes, alice
    does not any more. *)
Lemma cupsdAddName_admits_witness :
  fst (check_access sample_system (client_bob None) None
         (cupsdAddName true true (with_names loc_bob_only []) "Bob") None
         world0) = HTTP_OK
  /\ fst (check_access sample_system (client_alice None) None
            (with_names loc_bob_only []) None world0) = HTTP_OK
  /\ fst (check_access sample_system (client_alice None) None
            (cupsdAddName true true (with_names loc_bob_only []) "Bob")
            None world0) = HTTP_UNAUTHORIZED.
Proof.
  split; [|split].
  - refine (proj1 (proj2 (cupsdAddName_admits sample_system
                            (client_bob None) None
                            (with_names loc_bob_only []) "Bob" None world0
                            eq_refl)) _ _).
    + discriminate.
    + reflexivity.
  - refine (proj1 (proj1 (cupsdAddName_admits sample_system
                            (client_alice None) None
                            (with_names loc_bob_only []) "Bob" None world0
                            eq_refl) eq_refl)).
  - refine (proj2 (proj1 (cupsdAddName_admits sample_system
                            (client_alice None) None
                            (with_names loc_bob_only []) "Bob" None world0
                            eq_refl) eq_refl) _ _).
    + discriminate.
    + reflexivity.
Defined.

(* ================================================================== *)
(** * Properties of cupsdGetMD5Passwd *)
(* ================================================================== *)

(** The test of the loop on a line that was read as three fields. *)
Lemma md5_line_test (user : string) (grp : option string)
    (tempuser tempgroup : string) :
  (strcmp user tempuser =? 0)
  && match grp with
     | None => true
     | Some g => strcmp g tempgroup =? 0
     end = true
  <-> user = tempuser /\ (grp = None \/ grp = Some tempgroup).
Proof.
  rewrite andb_true_iff, Z.eqb_eq, strcmp_eq.
  destruct grp as [g|].
  - rewrite Z.eqb_eq, strcmp_eq. split.
    + intros [-> ->]. split; [reflexivity | now right].
    + intros [-> [H|H]]; [discriminate|]. injection H as ->. now split.
  - split; [intros [-> _]; split; [reflexivity | now left]|].
    intros [-> _]. now split.
Qed.

Lemma md5_scan_lines_first (user : string) (grp : option string)
    (lines : list string) :
  match md5_scan_lines user grp lines with
  | Some p =>
      exists before line after g,
        lines = before ++ line :: after
        /\ sscanf_md5_line line = (3, user, g, p)
        /\ (grp = None \/ grp = Some g)
        /\ forall l, In l before -> ~ md5_line_for user grp l
  | None => forall l, In l lines -> ~ md5_line_for user grp l
  end.
Proof.
  induction lines as [|line rest IH]; cbn [md5_scan_lines].
  - intros l [].
  - destruct (sscanf_md5_line line) as [[[n tempuser] tempgroup] passwd]
      eqn:Hscan.
    assert (Hskip :
      ~ md5_line_for user grp line ->
      match md5_scan_lines user grp rest with
      | Some p =>
          exists before line0 after g,
            line :: rest = before ++ line0 :: after
            /\ sscanf_md5_line line0 = (3, user, g, p)
            /\ (grp = None \/ grp = Some g)
            /\ forall l, In l before -> ~ md5_line_for user grp l
      | None => forall l, In l (line :: rest) -> ~ md5_line_for user grp l
      end).
    { intros Hno. destruct (md5_scan_lines user grp rest) as [p|].
      - destruct IH as (before & line0 & after & g & -> & Hl & Hg & Hb).
        exists (line :: before), line0, after, g.
        split; [reflexivity|]. split; [exact Hl|]. split; [exact Hg|].
        intros l [<-|Hin]; [exact Hno | now apply Hb].
      - intros l [<-|Hin]; [exact Hno | now apply IH]. }
    destruct (Z.eqb_spec n 3) as [->|Hn]; cbn [negb].
    + destruct ((strcmp user tempuser =? 0)
                && match grp with
                   | None => true
                   | Some g => strcmp g tempgroup =? 0
                   end) eqn:Htest.
      * apply md5_line_test in Htest. destruct Htest as [Heq Hg].
        subst tempuser.
        exists [], line, rest, tempgroup.
        split; [reflexivity|]. split; [exact Hscan|]. split; [exact Hg|].
        intros l [].
      * apply Hskip. intros (g & p & Hl & Hg).
        rewrite Hscan in Hl. injection Hl as H1 H2 H3.
        assert (Ht : user = tempuser
                     /\ (grp = None \/ grp = Some tempgroup)).
        { split; [congruence|].
          destruct Hg as [Hg|Hg]; [now left | right; congruence]. }
        apply md5_line_test in Ht. congruence.
    + apply Hskip. intros (g & p & Hl & _).
      rewrite Hscan in Hl. injection Hl as H1 _ _ _. now elim Hn.
Qed.

(** X18. [cupsdGetMD5Passwd] opens passwd.md5 of the server root, once,
    and makes no other call.  It returns nothing when the file cannot be
    opened.  Otherwise it returns the third field of the first line that
    [sscanf] reads as three fields with the user in the first and, when
    a group is asked for, the group in the second; lines that do not
    read as three fields are passed over; it returns nothing when the
    file has no such line. *)
Theorem cupsdGetMD5Passwd_first_line :
  forall (sys : system_t) (user : string) (grp : option string)
         (w : world),
    snd (cupsdGetMD5Passwd sys user grp w)
    = {| NetIFList := NetIFList w;
         calls := call_cupsFileOpen
                    (strlcpy (ServerRoot sys ++ "/passwd.md5") 1024)
                  :: calls w |}
    /\ match cupsFile sys (passwd_md5_filename sys) with
       | None => fst (cupsdGetMD5Passwd sys user grp w) = None
       | Some lines =>
           match fst (cupsdGetMD5Passwd sys user grp w) with
           | Some p =>
               exists before line after g,
                 lines = before ++ line :: after
                 /\ sscanf_md5_line line = (3, user, g, p)
                 /\ (grp = None \/ grp = Some g)
                 /\ forall l, In l before -> ~ md5_line_for user grp l
           | None => forall l, In l lines -> ~ md5_line_for user grp l
           end
       end.
Proof.
  intros sys user grp w. rewrite cupsdGetMD5Passwd_value. cbn [fst snd].
  split; [reflexivity|]. unfold md5_lookup.
  destruct (cupsFile sys (passwd_md5_filename sys)) as [lines|];
    [|reflexivity].
  apply md5_scan_lines_first.
Qed.

(** Two lines for carol: the first one is returned, the line before it
    has two fields only. *)
Example md5_scan_lines_samples :
  md5_scan_lines "carol" None
    ["carol:staff"; "carol:staff:0123"; "carol:lp:4567"] = Some "0123"
  /\ md5_scan_lines "carol" (Some "lp")
       ["carol:staff"; "carol:staff:0123"; "carol:lp:4567"] = Some "4567"
  /\ md5_scan_lines "carol" (Some "sys")
       ["carol:staff"; "carol:staff:0123"; "carol:lp:4567"] = None.
Proof. repeat split. Qed.

Lemma scan_not_colon_spec (n : nat) (s : string) :
  (String.length (fst (scan_not_colon n s)) <= n)%nat
  /\ all_chars not_colon (fst (scan_not_colon n s)) = true
  /\ s = (fst (scan_not_colon n s) ++ snd (scan_not_colon n s))%string.
Proof.
  revert s; induction n as [|n IH]; intros [|c r]; cbn [scan_not_colon];
    try (cbn; repeat split; lia).
  destruct (c =? ":")%char eqn:Ec; [cbn; repeat split; lia|].
  specialize (IH r). destruct (scan_not_colon n r) as [t rest].
  cbn [fst snd] in *. destruct IH as (Hlen & Hok & Heq).
  split; [simpl; lia|]. split.
  - simpl. unfold not_colon at 1. now rewrite Ec, Hok.
  - simpl. now rewrite <- Heq.
Qed.

Lemma scan_not_space_spec (n : nat) (s : string) :
  (String.length (scan_not_space n s) <= n)%nat
  /\ all_chars not_space (scan_not_space n s) = true.
Proof.
  revert s; induction n as [|n IH]; intros [|c r]; cbn [scan_not_space];
    try (cbn; split; [lia | reflexivity]).
  destruct (isspace c) eqn:Ec; [cbn; split; [lia | reflexivity]|].
  destruct (IH r) as (Hlen & Hok). split; [simpl; lia|].
  simpl. unfold not_space at 1. now rewrite Ec, Hok.
Qed.

(** X19. Whatever the line, the three strings that the [sscanf] of
    [cupsdGetMD5Passwd] stores have 32 bytes at most, so they fit their
    buffers of 33 bytes; the user and the group have no colon and the
    password no white space; and when three fields are converted none
    of them is empty, and the line begins with the user, a colon, the
    group and a colon. *)
Theorem sscanf_md5_line_bounds :
  forall line : string,
    let '(n, tempuser, tempgroup, passwd) := sscanf_md5_line line in
    (String.length tempuser <= 32)%nat
    /\ (String.length tempgroup <= 32)%nat
    /\ (String.length passwd <= 32)%nat
    /\ all_chars not_colon tempuser = true
    /\ all_chars not_colon tempgroup = true
    /\ all_chars not_space passwd = true
    /\ -1 <= n <= 3
    /\ (n = 3 ->
        tempuser <> "" /\ tempgroup <> "" /\ passwd <> ""
        /\ is_prefix (tempuser ++ ":" ++ tempgroup ++ ":") line).
Proof.
  intros line. unfold sscanf_md5_line.
  assert (Hzero : forall n : Z, -1 <= n <= 2 ->
            (String.length "" <= 32)%nat /\ (String.length "" <= 32)%nat
            /\ (String.length "" <= 32)%nat
            /\ all_chars not_colon "" = true
            /\ all_chars not_colon "" = true
            /\ all_chars not_space "" = true
            /\ -1 <= n <= 3
            /\ (n = 3 ->
                "" <> "" /\ "" <> "" /\ "" <> ""
                /\ is_prefix ("" ++ ":" ++ "" ++ ":") line)).
  { intros n Hn. simpl. repeat split; try lia. }
  destruct (is_empty line); [apply Hzero; lia|].
  pose proof (scan_not_colon_spec 32 line) as (Hu1 & Hu2 & Hu3).
  destruct (scan_not_colon 32 line) as [tempuser r1]. cbn [fst snd] in *.
  destruct (is_empty tempuser) eqn:Eu; [apply Hzero; lia|].
  assert (Hfew : forall (n : Z) (g : string),
            -1 <= n <= 2 -> (String.length g <= 32)%nat ->
            all_chars not_colon g = true ->
            (String.length tempuser <= 32)%nat
            /\ (String.length g <= 32)%nat
            /\ (String.length "" <= 32)%nat
            /\ all_chars not_colon tempuser = true
            /\ all_chars not_colon g = true
            /\ all_chars not_space "" = true
            /\ -1 <= n <= 3
            /\ (n = 3 ->
                tempuser <> "" /\ g <> "" /\ "" <> ""
                /\ is_prefix (tempuser ++ ":" ++ g ++ ":") line)).
  { intros n g Hn Hg1 Hg2. simpl. repeat split; try lia; assumption. }
  destruct r1 as [|c r2]; [apply Hfew; simpl; try lia; reflexivity|].
  destruct (Ascii.eqb_spec c ":"%char) as [->|Hc].
  2:{ destruct c as [[] [] [] [] [] [] [] []];
        try (apply Hfew; simpl; try lia; reflexivity).
      now elim Hc. }
  pose proof (scan_not_colon_spec 32 r2) as (Hg1 & Hg2 & Hg3).
  destruct (scan_not_colon 32 r2) as [tempgroup r3]. cbn [fst snd] in *.
  destruct (is_empty tempgroup) eqn:Eg;
    [apply Hfew; simpl; try lia; reflexivity|].
  destruct r3 as [|c r4]; [apply Hfew; simpl; try lia; assumption|].
  destruct (Ascii.eqb_spec c ":"%char) as [->|Hc].
  2:{ destruct c as [[] [] [] [] [] [] [] []];
        try (apply Hfew; simpl; try lia; assumption).
      now elim Hc. }
  destruct (scan_not_space_spec 32 (skip_spaces r4)) as (Hp1 & Hp2).
  unfold scan_word.
  destruct (is_empty (scan_not_space 32 (skip_spaces r4))) eqn:Ep;
    [apply Hfew; simpl; try lia; assumption|].
  repeat split; try assumption; try lia.
  - intros ->. discriminate.
  - intros ->. discriminate.
  - intros E. rewrite E in Ep. discriminate.
  - exists r4. rewrite Hu3, Hg3.
    rewrite !append_assoc. reflexivity.
Qed.

(* ================================================================== *)
(** * Properties of the statuses of cupsdIsAuthorized *)
(* ================================================================== *)

Lemma check_access_status (sys : system_t) (con : cupsd_client_t)
    (owner : option string) (loc : cupsd_location_t)
    (pw : option passwd) (w : world) :
  fst (check_access sys con owner loc pw w) = HTTP_OK
  \/ fst (check_access sys con owner loc pw w) = HTTP_UNAUTHORIZED.
Proof.
  rewrite check_access_value.
  repeat match goal with
         | |- context [if ?c then _ else _] => destruct c
         end; auto.
Qed.

(** The status after the host check, when the decisions before the
    password do not settle it. *)
Lemma after_password_status (b : build_t) (sys : system_t)
    (con : cupsd_client_t) (owner : option string)
    (loc : cupsd_location_t) (w1 : world) :
  let r := match check_password b sys con loc w1 with
           | (None, w2) => (HTTP_UNAUTHORIZED, w2)
           | (Some pw, w2) => check_access sys con owner loc pw w2
           end in
  fst r = HTTP_OK \/ fst r = HTTP_UNAUTHORIZED.
Proof.
  cbv zeta.
  destruct (check_password b sys con loc w1) as [[pw|] w2];
    [apply check_access_status | now right].
Qed.

(** X20. For a request that a location governs, [cupsdIsAuthorized]
    answers FORBIDDEN exactly when the host check denies and the
    location wants all of its conditions; it answers UPGRADE_REQUIRED
    exactly when it does not answer FORBIDDEN, the build has SSL, the
    location requires encryption and the connection has none: in both
    cases whatever the user name and the password are. *)
Theorem cupsdIsAuthorized_refusals :
  forall (b : build_t) (sys : system_t) (con : cupsd_client_t)
         (owner : option string) (loc : cupsd_location_t) (w : world),
    best con = Some loc ->
    let denied_all :=
      fst (check_host b sys con loc w) = AUTH_DENY
      /\ satisfy loc = AUTH_SATISFY_ALL in
    (fst (cupsdIsAuthorized b sys con owner w) = HTTP_FORBIDDEN
     <-> denied_all)
    /\ (fst (cupsdIsAuthorized b sys con owner w) = HTTP_UPGRADE_REQUIRED
        <-> ~ denied_all
            /\ HAVE_SSL b = true
            /\ encryption loc >= HTTP_ENCRYPT_REQUIRED
            /\ http_tls con = false).
Proof.
  intros b sys con owner loc w Hbest. cbv zeta.
  destruct (check_host b sys con loc w) as [auth w1] eqn:Hhost.
  rewrite (cupsdIsAuthorized_governed b sys con owner loc Hbest w w1 auth
             Hhost).
  cbn [fst]. unfold before_password.
  destruct (Z.eqb_spec auth AUTH_DENY) as [Ha|Ha];
    destruct (Z.eqb_spec (satisfy loc) AUTH_SATISFY_ALL) as [Hs|Hs];
    cbn [andb orb].
  { split; [tauto|]. split; [discriminate | tauto]. }
  all: destruct (HAVE_SSL b); cbn [andb];
    [destruct (Z.geb_spec (encryption loc) HTTP_ENCRYPT_REQUIRED)
       as [He|He]; cbn [andb];
     [destruct (http_tls con); cbn [negb]|]|].
  all: try (split; [split; [discriminate | tauto]|];
            split; [reflexivity|]; intros _;
            repeat split; try tauto; lia).
  all: pose proof (after_password_status b sys con owner loc w1) as Hafter;
    cbv zeta in Hafter.
  all: repeat match goal with
         | |- context [if ?c then _ else _] => destruct c
         end; cbn [fst].
  all: split; split; try discriminate; try tauto; try lia;
    try (intros (_ & _ & _ & H); discriminate H);
    try (intros (_ & H & _); discriminate H);
    try (intros H; destruct Hafter as [E|E]; rewrite E in H;
         discriminate H).
Qed.

(** The location /admin with encryption required, for alice without
    TLS. *)
Lemma cupsdIsAuthorized_refusals_witness :
  fst (cupsdIsAuthorized sample_build sample_system
         (client_alice (Some loc_admin_any_tls)) None world0)
  = HTTP_UPGRADE_REQUIRED.
Proof.
  apply (proj2 (cupsdIsAuthorized_refusals sample_build sample_system
                  (client_alice (Some loc_admin_any_tls)) None
                  loc_admin_any_tls world0 eq_refl)).
  split; [intros [_ H]; discriminate H|].
  split; [reflexivity|]. split; [discriminate | reflexivity].
Defined.

(** X21. A request without a user name, and a request without a
    password that is not certified as local, never reach an
    authentication backend: [cupsdIsAuthorized] calls the registry of
    the interfaces alone, and when it answers OK the decisions made
    before the password had settled it. *)
Theorem missing_credentials_no_backend :
  forall (b : build_t) (sys : system_t) (con : cupsd_client_t)
         (owner : option string) (loc : cupsd_location_t) (w : world),
    best con = Some loc ->
    username con = ""
    \/ (password con = "" /\ local_certificate con = false) ->
    calls_added netif_call w (snd (cupsdIsAuthorized b sys con owner w))
    /\ (fst (cupsdIsAuthorized b sys con owner w) = HTTP_OK ->
        before_password b sys con loc (fst (check_host b sys con loc w))
        = Some HTTP_OK).
Proof.
  intros b sys con owner loc w Hbest Hmissing.
  pose proof (check_host_calls b sys con loc w) as Hcalls.
  destruct (check_host b sys con loc w) as [auth w1] eqn:Hhost.
  rewrite (cupsdIsAuthorized_governed b sys con owner loc Hbest w w1 auth
             Hhost).
  cbn [fst snd] in *.
  destruct (before_password b sys con loc auth) as [status|] eqn:Hbefore.
  { cbn [fst snd]. split; [exact Hcalls | now intros ->]. }
  destruct Hmissing as [Huser|[Hpass Hlocal]].
  - exfalso. revert Hbefore. unfold before_password. rewrite Huser.
    cbn [is_empty].
    repeat match goal with
           | |- context [if ?c then _ else _] => destruct c
           end; discriminate.
  - unfold check_password. rewrite Hlocal, Hpass. cbn [negb is_empty].
    unfold ret. cbn [fst snd]. split; [exact Hcalls | discriminate].
Qed.

(** alice without a password on the location of the job owners. *)
Lemma missing_credentials_no_backend_witness :
  calls_added netif_call world0
    (snd (cupsdIsAuthorized sample_build sample_system
            (with_password (client_alice (Some loc_owner)) "") None
            world0))
  /\ fst (cupsdIsAuthorized sample_build sample_system
            (with_password (client_alice (Some loc_owner)) "") None
            world0) = HTTP_UNAUTHORIZED.
Proof.
  split; [|reflexivity].
  apply (proj1 (missing_credentials_no_backend sample_build sample_system
                  (with_password (client_alice (Some loc_owner)) "")
                  None loc_owner world0 eq_refl
                  (or_intror (conj eq_refl eq_refl)))).
Defined.

(** X22. For a connection certified as local (from localhost, with an
    Authorization field that begins with Local), [cupsdIsAuthorized]
    does not read the password: the status and the calls are the same
    whatever the password is. *)
Theorem local_certificate_ignores_password :
  forall (b : build_t) (sys : system_t) (con : cupsd_client_t)
         (owner : option string) (pass : string) (w : world),
    local_certificate con = true ->
    cupsdIsAuthorized b sys (with_password con pass) owner w
    = cupsdIsAuthorized b sys con owner w.
Proof.
  intros b sys con owner pass w Hlocal.
  unfold cupsdIsAuthorized. cbn [best with_password http_hostname].
  destruct (best con) as [loc|]; [|reflexivity].
  unfold bind.
  change (check_host b sys (with_password con pass) loc w)
    with (check_host b sys con loc w).
  destruct (check_host b sys con loc w) as [auth w1].
  change (before_password b sys (with_password con pass) loc auth)
    with (before_password b sys con loc auth).
  destruct (before_password b sys con loc auth); [reflexivity|].
  unfold check_password.
  change (local_certificate (with_password con pass))
    with (local_certificate con).
  rewrite Hlocal. cbn [negb].
  reflexivity.
Qed.

(** A local connection of alice, with two passwords. *)
Lemma local_certificate_ignores_password_witness :
  cupsdIsAuthorized sample_build sample_system
    (with_password
       (sample_client "localhost" 0x0100007F "Local 0123" "alice" "right"
          (Some loc_owner)) "wrong") (Some "alice") world0
  = cupsdIsAuthorized sample_build sample_system
      (sample_client "localhost" 0x0100007F "Local 0123" "alice" "right"
         (Some loc_owner)) (Some "alice") world0.
Proof.
  apply (local_certificate_ignores_password sample_build sample_system
           (sample_client "localhost" 0x0100007F "Local 0123" "alice"
              "right" (Some loc_owner)) (Some "alice") "wrong" world0).
  reflexivity.
Defined.

Lemma md5_scan_lines_group (user g : string) (lines : list string) :
  md5_scan_lines user None lines = None ->
  md5_scan_lines user (Some g) lines = None.
Proof.
  induction lines as [|line rest IH]; cbn [md5_scan_lines];
    [reflexivity|].
  destruct (sscanf_md5_line line) as [[[n tempuser] tempgroup] passwd].
  destruct (negb (n =? 3)); [exact IH|].
  destruct (strcmp user tempuser =? 0); cbn [andb]; [discriminate|].
  exact IH.
Qed.

Lemma md5_lookup_group (sys : system_t) (user : string)
    (grp : option string) :
  md5_lookup sys user None = None -> md5_lookup sys user grp = None.
Proof.
  destruct grp as [g|]; [|tauto]. unfold md5_lookup.
  destruct (cupsFile sys (passwd_md5_filename sys)) as [lines|];
    [apply md5_scan_lines_group | reflexivity].
Qed.

Lemma md5_of_groups_none (sys : system_t) (user : string)
    (groups : list string) (w : world) :
  md5_lookup sys user None = None ->
  fst (md5_of_groups sys user groups w) = None.
Proof.
  intros Hno. revert w; induction groups as [|g rest IH]; intros w;
    cbn [md5_of_groups]; [reflexivity|].
  unfold bind. rewrite cupsdGetMD5Passwd_value.
  rewrite (md5_lookup_group sys user (Some g) Hno). apply IH.
Qed.

Lemma md5_of_names_none (sys : system_t) (user : string)
    (nms : list string) (w : world) :
  md5_lookup sys user None = None ->
  fst (md5_of_names sys user nms w) = None.
Proof.
  intros Hno. revert w; induction nms as [|n rest IH]; intros w;
    cbn [md5_of_names]; [reflexivity|].
  unfold bind. destruct (strcasecmp n "@SYSTEM" =? 0).
  - pose proof (md5_of_groups_none sys user (SystemGroups sys) w Hno)
      as Hg.
    destruct (md5_of_groups sys user (SystemGroups sys) w) as [found w1].
    cbn [fst] in Hg. subst found. apply IH.
  - rewrite cupsdGetMD5Passwd_value.
    rewrite (md5_lookup_group sys user (Some n) Hno). apply IH.
Qed.

Lemma find_md5_none (sys : system_t) (con : cupsd_client_t)
    (loc : cupsd_location_t) (w : world) :
  md5_lookup sys (username con) None = None ->
  fst (find_md5 sys con loc w) = "".
Proof.
  intros Hno. unfold find_md5, bind.
  destruct (negb (num_names loc =? 0) && (level loc =? AUTH_GROUP)).
  - pose proof (md5_of_names_none sys (username con) (names loc) w Hno)
      as Hn.
    destruct (md5_of_names sys (username con) (names loc) w)
      as [found w1].
    cbn [fst] in Hn. now subst found.
  - rewrite cupsdGetMD5Passwd_value. now rewrite Hno.
Qed.

(** X23. For a connection that is not certified as local (one from
    localhost with an Authorization field that begins with Local has no
    password check at all), Digest and BasicDigest fail closed: when
    passwd.md5 cannot be opened, or has no line for the user, the check
    of the password fails whatever the password and the nonce are, and
    [cupsdIsAuthorized] answers UNAUTHORIZED whenever it comes to the
    password. *)
Theorem digest_without_entry :
  forall (b : build_t) (sys : system_t) (con : cupsd_client_t)
         (owner : option string) (loc : cupsd_location_t) (w : world),
    best con = Some loc ->
    auth_scheme sys loc = AUTH_DIGEST
    \/ auth_scheme sys loc = AUTH_BASICDIGEST ->
    local_certificate con = false ->
    md5_lookup sys (username con) None = None ->
    (forall w1, fst (check_password b sys con loc w1) = None)
    /\ (before_password b sys con loc (fst (check_host b sys con loc w))
        = None ->
        fst (cupsdIsAuthorized b sys con owner w) = HTTP_UNAUTHORIZED).
Proof.
  intros b sys con owner loc w Hbest Hscheme Hlocal Hno.
  assert (Hpass : forall w1, fst (check_password b sys con loc w1) = None).
  { intros w1. unfold check_password. rewrite Hlocal. cbn [negb].
    destruct (is_empty (password con)); [reflexivity|].
    pose proof (find_md5_none sys con loc) as Hmd5.
    destruct Hscheme as [-> | ->].
    - change (AUTH_DIGEST =? AUTH_BASIC) with false.
      change (AUTH_DIGEST =? AUTH_DIGEST) with true. cbv iota.
      unfold auth_digest.
      destruct (httpGetSubField sys (http_fields_authorization con)
                  "nonce") as [nonce|]; [|reflexivity].
      destruct (negb (strcmp (http_hostname con) nonce =? 0));
        [reflexivity|].
      unfold bind. specialize (Hmd5 w1 Hno).
      destruct (find_md5 sys con loc w1) as [md5 w2].
      cbn [fst] in Hmd5. now subst md5.
    - change (AUTH_BASICDIGEST =? AUTH_BASIC) with false.
      change (AUTH_BASICDIGEST =? AUTH_DIGEST) with false.
      change (AUTH_BASICDIGEST =? AUTH_BASICDIGEST) with true. cbv iota.
      unfold auth_basicdigest, bind. specialize (Hmd5 w1 Hno).
      destruct (find_md5 sys con loc w1) as [md5 w2].
      cbn [fst] in Hmd5. now subst md5. }
  split; [exact Hpass|].
  destruct (check_host b sys con loc w) as [auth w1] eqn:Hhost.
  rewrite (cupsdIsAuthorized_governed b sys con owner loc Hbest w w1 auth
             Hhost).
  cbn [fst]. intros ->. specialize (Hpass w1).
  destruct (check_password b sys con loc w1) as [[pw|] w2];
    [discriminate | reflexivity].
Qed.

(** bob, who has no line in passwd.md5, on the Digest location. *)
Lemma digest_without_entry_witness :
  fst (cupsdIsAuthorized sample_build sample_system
         (client_bob (Some loc_digest_user)) None world0)
  = HTTP_UNAUTHORIZED.
Proof.
  apply (proj2 (digest_without_entry sample_build sample_system
                  (client_bob (Some loc_digest_user)) None
                  loc_digest_user world0 eq_refl (or_introl eq_refl)
                  eq_refl eq_refl)).
  reflexivity.
Defined.

(* ================================================================== *)
(** * Properties of the authentication backends *)
(* ================================================================== *)

(** X24. Basic authentication through PAM: the password entry of the
    user is looked up, then the transaction is started for the service
    cups and the user, and it is ended on every path, after the step
    that failed or after the account check; the steps after a step that
    fails are not taken; the password is accepted exactly when
    [pam_start], [pam_authenticate] and [pam_acct_mgmt] all succeed. *)
Theorem basic_pam_protocol :
  forall (b : build_t) (sys : system_t) (con : cupsd_client_t) (w : world),
    os_auth b = LIBPAM ->
    let user := username con in
    let started := pam_start sys "cups" user =? PAM_SUCCESS in
    let authenticated :=
      pam_authenticate sys user (password con) =? PAM_SUCCESS in
    let valid := pam_acct_mgmt sys user =? PAM_SUCCESS in
    auth_basic b sys con w
    = (if started && authenticated && valid
       then Some (getpwnam sys user) else None,
       {| NetIFList := NetIFList w;
          calls :=
            call_pam_end
            :: (if started
                then (if authenticated then [call_pam_acct_mgmt] else [])
                     ++ [call_pam_authenticate]
                else [])
            ++ call_pam_start "cups" user :: call_getpwnam user
            :: calls w |}).
Proof.
  intros b sys con w Hpam. cbv zeta.
  unfold auth_basic, basic_pam, do_getpwnam, bind, record_call, ret.
  rewrite Hpam. cbn [fst snd NetIFList calls].
  destruct (pam_start sys "cups" (username con) =? PAM_SUCCESS);
    cbn [negb andb]; [|reflexivity].
  destruct (pam_authenticate sys (username con) (password con)
            =? PAM_SUCCESS); cbn [negb andb]; [|reflexivity].
  destruct (pam_acct_mgmt sys (username con) =? PAM_SUCCESS);
    reflexivity.
Qed.

(** bob with a password that PAM refuses: the account check is not
    made, the transaction is ended. *)
Lemma basic_pam_protocol_witness :
  auth_basic sample_build sample_system
    (with_password (client_bob None) "wrong") world0
  = (None,
     {| NetIFList := [];
        calls := [call_pam_end; call_pam_authenticate;
                  call_pam_start "cups" "bob"; call_getpwnam "bob"] |}).
Proof.
  apply (basic_pam_protocol sample_build sample_system
           (with_password (client_bob None) "wrong") world0 eq_refl).
Defined.

Lemma to64_length (v : Z) (n : nat) : String.length (to64 v n) = n.
Proof.
  revert v; induction n as [|n IH]; intros v; simpl; [reflexivity|].
  now rewrite IH.
Qed.

Lemma salt_data_len_le (n : nat) (s : string) :
  (salt_data_len n s <= n)%nat
  /\ (salt_data_len n s <= String.length s)%nat.
Proof.
  revert s; induction n as [|n IH]; intros [|c r]; simpl;
    try (split; lia).
  destruct (c =? "$")%char; [split; lia|].
  destruct (IH r). split; lia.
Qed.

(** The salt data is found again in front of a ['$']. *)
Lemma salt_data_len_again (n : nat) (s tail : string) :
  salt_data_len n (str_take (salt_data_len n s) s ++ String "$" tail)
  = salt_data_len n s.
Proof.
  revert s; induction n as [|n IH]; intros [|c r]; simpl;
    try reflexivity.
  destruct (c =? "$")%char eqn:Ec; simpl; [reflexivity|].
  now rewrite Ec, IH.
Qed.

Lemma str_take_take_append (n : nat) (s q : string) :
  (n <= String.length s)%nat ->
  str_take n (str_take n s ++ q) = str_take n s.
Proof.
  intros Hn.
  assert (Hlen : String.length (str_take n s) = n).
  { rewrite str_take_length. lia. }
  rewrite <- Hlen at 1. apply str_take_append.
Qed.

(** The MD5 branch of [cups_crypt] reads of the salt the bytes before
    the end of the salt data alone. *)
Lemma cups_crypt_md5_cong (sys : system_t) (pw salt salt' : string) :
  strncmp salt "$1$" 3 = 0 ->
  strncmp salt' "$1$" 3 = 0 ->
  salt_data_len 8 (str_from 3 salt') = salt_data_len 8 (str_from 3 salt) ->
  str_take (3 + salt_data_len 8 (str_from 3 salt)) salt'
  = str_take (3 + salt_data_len 8 (str_from 3 salt)) salt ->
  str_take (salt_data_len 8 (str_from 3 salt)) (str_from 3 salt')
  = str_take (salt_data_len 8 (str_from 3 salt)) (str_from 3 salt) ->
  cups_crypt sys pw salt' = cups_crypt sys pw salt.
Proof.
  intros H1 H2 Hd Hp Hs. unfold cups_crypt.
  rewrite H1, H2, Hd. cbv zeta.
  replace (3 + salt_data_len 8 (str_from 3 salt) - 3)%nat
    with (salt_data_len 8 (str_from 3 salt)) by lia.
  now rewrite Hp, Hs.
Qed.

(** The form of what the MD5 branch of [cups_crypt] returns. *)
Lemma cups_crypt_md5_form (sys : system_t) (pw s : string) :
  exists tail,
    cups_crypt sys pw ("$1$" ++ s)
    = Some (("$1$" ++ str_take (salt_data_len 8 s) s) ++ String "$" tail)%string
    /\ String.length tail = 22%nat.
Proof.
  unfold cups_crypt. change (strncmp ("$1$" ++ s) "$1$" 3 =? 0) with true.
  cbv iota zeta.
  change (str_from 3 ("$1$" ++ s)) with s.
  change (str_take (3 + salt_data_len 8 s) ("$1$" ++ s))
    with ("$1$" ++ str_take (salt_data_len 8 s) s)%string.
  eexists. split; [reflexivity|].
  rewrite !append_length, !to64_length. reflexivity.
Qed.

(** What the MD5 branch returns gives itself back as a salt. *)
Lemma cups_crypt_md5_again (sys : system_t) (pw salt r : string) :
  strncmp salt "$1$" 3 = 0 ->
  cups_crypt sys pw salt = Some r ->
  cups_crypt sys pw r = Some r
  /\ String.length r = (26 + salt_data_len 8 (str_from 3 salt))%nat
  /\ is_prefix
       (str_take (3 + salt_data_len 8 (str_from 3 salt)) salt ++ "$") r.
Proof.
  intros Hmd5 Hr.
  assert (Hpre : is_prefix "$1$" salt).
  { apply (strncmp_prefix salt "$1$"). exact Hmd5. }
  destruct Hpre as [s ->].
  change (str_from 3 ("$1$" ++ s)) with s.
  destruct (salt_data_len_le 8 s) as [Hd8 Hds].
  destruct (cups_crypt_md5_form sys pw s) as (tail & Hform & Htail).
  assert (E : r = (("$1$" ++ str_take (salt_data_len 8 s) s)
                   ++ String "$" tail)%string).
  { rewrite Hform in Hr. injection Hr as E. symmetry. exact E. }
  clear Hr. subst r.
  set (d := salt_data_len 8 s) in *.
  split; [|split].
  - rewrite <- Hform.
    apply cups_crypt_md5_cong; [exact Hmd5 | reflexivity | | |];
      change (str_from 3 ("$1$" ++ s)) with s; fold d;
      change (str_from 3 (("$1$" ++ str_take d s) ++ String "$" tail))
        with (str_take d s ++ String "$" tail)%string.
    + apply salt_data_len_again.
    + change (str_take (3 + d)
                (("$1$" ++ str_take d s) ++ String "$" tail))
        with ("$1$" ++ str_take d (str_take d s ++ String "$" tail))%string.
      change (str_take (3 + d) ("$1$" ++ s))
        with ("$1$" ++ str_take d s)%string.
      rewrite str_take_take_append; [reflexivity | exact Hds].
    + apply str_take_take_append. exact Hds.
  - rewrite !append_length, str_take_length. simpl. lia.
  - exists tail.
    change (str_take (3 + d) ("$1$" ++ s))
      with ("$1$" ++ str_take d s)%string.
    symmetry. apply (append_assoc ("$1$" ++ str_take d s) "$" tail).
Qed.

(** X25. For a salt that begins with [$1$], [cups_crypt] returns the
    salt up to the end of its salt data (8 bytes at most after [$1$]),
    a ['$'] and 22 more bytes: 34 bytes at most, which fit the buffer
    [result] of 120 bytes.  What it returns is a salt that gives itself
    back for the same password, which is what the comparison of the
    stored password with its own encryption relies on. *)
Theorem cups_crypt_md5_fixpoint :
  forall (sys : system_t) (pw salt : string),
    strncmp salt "$1$" 3 = 0 ->
    let d := salt_data_len 8 (str_from 3 salt) in
    exists r,
      cups_crypt sys pw salt = Some r
      /\ is_prefix (str_take (3 + d) salt ++ "$") r
      /\ String.length r = (26 + d)%nat
      /\ (String.length r <= 34)%nat
      /\ cups_crypt sys pw r = Some r.
Proof.
  intros sys pw salt Hmd5. cbv zeta.
  assert (Hsome : exists r, cups_crypt sys pw salt = Some r).
  { assert (Hpre : is_prefix "$1$" salt).
    { apply (strncmp_prefix salt "$1$"). exact Hmd5. }
    destruct Hpre as [s ->].
    destruct (cups_crypt_md5_form sys pw s) as (tail & Hform & _).
    eexists. exact Hform. }
  destruct Hsome as [r Hr]. exists r.
  destruct (cups_crypt_md5_again sys pw salt r Hmd5 Hr)
    as (Hfix & Hlen & Hpre).
  destruct (salt_data_len_le 8 (str_from 3 salt)) as [Hd8 _].
  split; [exact Hr|]. split; [exact Hpre|]. split; [exact Hlen|].
  split; [lia | exact Hfix].
Qed.

(** The salt [$1$abcdefghij]: 8 bytes of it are salt data. *)
Lemma cups_crypt_md5_fixpoint_witness :
  exists r,
    cups_crypt sample_system "secret" "$1$abcdefghij" = Some r
    /\ is_prefix "$1$abcdefgh$" r
    /\ String.length r = 34%nat
    /\ (String.length r <= 34)%nat
    /\ cups_crypt sample_system "secret" r = Some r.
Proof.
  exact (cups_crypt_md5_fixpoint sample_system "secret" "$1$abcdefghij"
           eq_refl).
Defined.

(** X26. Basic authentication against the password file, with or
    without shadow passwords: a user whose stored password is what
    [cups_crypt] gives for the password of the request and a salt that
    begins with [$1$] is accepted, whatever the salt was. *)
Theorem basic_unix_accepts_md5 :
  forall (b : build_t) (sys : system_t) (con : cupsd_client_t)
         (have_shadow : bool) (p : passwd) (salt : string) (w : world),
    os_auth b = UNIX_PASSWD have_shadow ->
    getpwnam sys (username con) = Some p ->
    strncmp salt "$1$" 3 = 0 ->
    cups_crypt sys (password con) salt = Some (pw_passwd p) ->
    fst (auth_basic b sys con w) = Some (Some p).
Proof.
  intros b sys con have_shadow p salt w Hos Hpw Hmd5 Hstored.
  destruct (cups_crypt_md5_again sys (password con) salt (pw_passwd p)
              Hmd5 Hstored) as (Hfix & Hlen & _).
  clear Hstored.
  assert (Hsame : crypt_differs (pw_passwd p)
                    (cups_crypt sys (password con) (pw_passwd p)) = false).
  { rewrite Hfix. unfold crypt_differs. rewrite strcmp_refl. reflexivity. }
  assert (Hfilled : is_empty (pw_passwd p) = false).
  { destruct (pw_passwd p); [simpl in Hlen; lia | reflexivity]. }
  assert (Hnotx : (strcmp (pw_passwd p) "x" =? 0) = false).
  { apply Z.eqb_neq. intros Hx. apply strcmp_eq in Hx.
    rewrite Hx in Hlen. simpl in Hlen. lia. }
  clear Hfix Hlen.
  unfold auth_basic, do_getpwnam, bind, record_call, ret.
  rewrite Hos, Hpw. cbn [fst snd]. unfold basic_unix.
  destruct have_shadow.
  - unfold do_getspnam, bind, record_call, ret.
    destruct (getspnam sys (username con)) as [spw|]; cbv beta iota.
    + rewrite Hfilled, andb_false_r, Hsame. reflexivity.
    + rewrite Hnotx, Hsame. reflexivity.
  - rewrite Hfilled, Hsame. reflexivity.
Qed.

(** dave with the password [secret], on the build without PAM. *)
Lemma basic_unix_accepts_md5_witness :
  fst (auth_basic unix_build unix_system
         (sample_client "10.1.2.3" 0x0302010A "" "dave" "secret" None)
         world0)
  = Some (Some dave).
Proof.
  apply (basic_unix_accepts_md5 unix_build unix_system
           (sample_client "10.1.2.3" 0x0302010A "" "dave" "secret" None)
           true dave "$1$abcdefghij" world0 eq_refl eq_refl eq_refl).
  vm_compute. reflexivity.
Defined.

(* ================================================================== *)
(** * Properties of to64 and pam_func *)
(* ================================================================== *)

(** The 64 digits of [itoa64] are distinct. *)
Lemma itoa64_distinct (i j : nat) :
  (i < 64)%nat -> (j < 64)%nat ->
  char_at i itoa64 = char_at j itoa64 -> i = j.
Proof.
  intros Hi Hj Heq.
  assert (Hall : forallb
                   (fun i =>
                      forallb
                        (fun j =>
                           implb (Ascii.eqb (char_at i itoa64)
                                    (char_at j itoa64))
                                 (Nat.eqb i j))
                        (seq 0 64))
                   (seq 0 64) = true) by (vm_compute; reflexivity).
  rewrite forallb_forall in Hall.
  assert (Hini : In i (seq 0 64)) by (apply in_seq; lia).
  assert (Hinj : In j (seq 0 64)) by (apply in_seq; lia).
  specialize (Hall i Hini). rewrite forallb_forall in Hall.
  specialize (Hall j Hinj). rewrite Heq, Ascii.eqb_refl in Hall.
  now apply Nat.eqb_eq.
Qed.

Lemma land_63 (v : Z) : Z.land v 63 = v mod 64 /\ 0 <= v mod 64 < 64.
Proof.
  split; [|apply Z.mod_pos_bound; lia].
  change 63 with (Z.ones 6). rewrite Z.land_ones by lia. reflexivity.
Qed.

Lemma pow_64_succ (n : nat) :
  2 ^ (6 * Z.of_nat (S n)) = 64 * 2 ^ (6 * Z.of_nat n).
Proof.
  replace (6 * Z.of_nat (S n)) with (6 + 6 * Z.of_nat n) by lia.
  rewrite Z.pow_add_r by lia. reflexivity.
Qed.

Lemma to64_same (v v' : Z) (n : nat) :
  to64 v n = to64 v' n
  <-> v mod 2 ^ (6 * Z.of_nat n) = v' mod 2 ^ (6 * Z.of_nat n).
Proof.
  revert v v'; induction n as [|n IH]; intros v v'.
  - change (2 ^ (6 * Z.of_nat 0)) with 1. rewrite !Z.mod_1_r.
    split; reflexivity.
  - cbn [to64]. rewrite pow_64_succ.
    assert (Hpow : 0 < 2 ^ (6 * Z.of_nat n))
      by (apply Z.pow_pos_nonneg; lia).
    rewrite !Z.rem_mul_r by lia.
    rewrite !Z.shiftr_div_pow2 by lia. change (2 ^ 6) with 64.
    destruct (land_63 v) as [Ev Hv], (land_63 v') as [Ev' Hv'].
    rewrite Ev, Ev'.
    pose proof (Z.mod_pos_bound (v / 64) _ Hpow) as Hq.
    pose proof (Z.mod_pos_bound (v' / 64) _ Hpow) as Hq'.
    split.
    + intros H. injection H as Hc Ht.
      apply IH in Ht.
      apply itoa64_distinct in Hc; [|lia|lia].
      apply Z2Nat.inj in Hc; lia.
    + intros H.
      assert (E0 : v mod 64 = v' mod 64) by lia.
      assert (E1 : (v / 64) mod 2 ^ (6 * Z.of_nat n)
                   = (v' / 64) mod 2 ^ (6 * Z.of_nat n)) by lia.
      rewrite E0. f_equal. apply IH. exact E1.
Qed.

Lemma to64_digit (v : Z) (n i : nat) :
  (i < n)%nat ->
  char_at i (to64 v n)
  = char_at (Z.to_nat ((v / 2 ^ (6 * Z.of_nat i)) mod 64)) itoa64.
Proof.
  revert v i; induction n as [|n IH]; intros v i Hi; [lia|].
  cbn [to64]. destruct i as [|i].
  - change (2 ^ (6 * Z.of_nat 0)) with 1. rewrite Z.div_1_r.
    destruct (land_63 v) as [-> _]. reflexivity.
  - unfold char_at. cbn [str_from]. fold (char_at i (to64 (Z.shiftr v 6) n)).
    rewrite IH by lia. rewrite pow_64_succ.
    rewrite Z.shiftr_div_pow2 by lia. change (2 ^ 6) with 64.
    rewrite Z.div_div by
      (try lia; apply Z.pow_pos_nonneg; lia).
    reflexivity.
Qed.

(** X27. [to64] writes exactly [n] digits; the digit at [i] is the digit
    of [itoa64] for the bits [6i] to [6i+5] of the value; and two values
    get the same digits exactly when they agree on their [6n] low bits:
    the encoding loses nothing of them. *)
Theorem to64_digits :
  forall (v v' : Z) (n : nat),
    String.length (to64 v n) = n
    /\ (forall i, (i < n)%nat ->
          char_at i (to64 v n)
          = char_at (Z.to_nat ((v / 2 ^ (6 * Z.of_nat i)) mod 64)) itoa64)
    /\ (to64 v n = to64 v' n
        <-> v mod 2 ^ (6 * Z.of_nat n) = v' mod 2 ^ (6 * Z.of_nat n)).
Proof.
  intros v v' n. split; [apply to64_length|].
  split; [intros i Hi; now apply to64_digit | apply to64_same].
Qed.

(** The low 12 bits in two digits. *)
Lemma to64_digits_witness :
  to64 (4096 + 65) 2 = to64 65 2 /\ char_at 1 (to64 65 2) = "/"%char.
Proof.
  split.
  - apply (proj2 (proj2 (to64_digits (4096 + 65) 65 2))). reflexivity.
  - rewrite (proj1 (proj2 (to64_digits 65 65 2)) 1%nat) by lia.
    reflexivity.
Defined.

Lemma pam_replies_spec (client : cupsd_client_t)
    (msg : list pam_msg_style) :
  match pam_replies client msg with
  | Some replies =>
      ~ In pam_style_other msg
      /\ List.length replies = List.length msg
      /\ forall i style,
           nth_error msg i = Some style ->
           exists r,
             nth_error replies i = Some r
             /\ resp_retcode r = PAM_SUCCESS
             /\ resp r = match style with
                         | PAM_PROMPT_ECHO_ON => Some (username client)
                         | PAM_PROMPT_ECHO_OFF => Some (password client)
                         | _ => None
                         end
  | None => In pam_style_other msg
  end.
Proof.
  induction msg as [|style rest IH]; cbn [pam_replies].
  - split; [intros []|]. split; [reflexivity|].
    intros [|i] style H; discriminate H.
  - destruct style; try (now left);
      (destruct (pam_replies client rest) as [replies|]; [|now right]);
      destruct IH as (Hno & Hlen & Hnth);
      (split; [intros [H|H]; [discriminate H | now apply Hno]|]);
      (split; [simpl; now rewrite Hlen|]);
      intros [|i] style H; cbn [nth_error] in *;
      try (injection H as <-; eexists; repeat split);
      now apply Hnth.
Qed.

(** X28. [pam_func] answers all the messages or none.  With memory for
    the replies and messages of the four known styles, there is one
    reply for each message, in the order of the messages, each with the
    code PAM_SUCCESS: the user name for a prompt with echo, the password
    for a prompt without echo, and no text for an information or an
    error message.  Without memory, or with one message of another
    style, the conversation fails and nothing is returned. *)
Theorem pam_func_answers :
  forall (mem : bool) (client : cupsd_client_t)
         (msg : list pam_msg_style),
    match pam_func mem client msg with
    | Some replies =>
        mem = true
        /\ ~ In pam_style_other msg
        /\ List.length replies = List.length msg
        /\ forall i style,
             nth_error msg i = Some style ->
             exists r,
               nth_error replies i = Some r
               /\ resp_retcode r = PAM_SUCCESS
               /\ resp r = match style with
                           | PAM_PROMPT_ECHO_ON => Some (username client)
                           | PAM_PROMPT_ECHO_OFF => Some (password client)
                           | _ => None
                           end
    | None => mem = false \/ In pam_style_other msg
    end.
Proof.
  intros mem client msg. unfold pam_func.
  destruct mem; cbn [negb]; [|now left].
  pose proof (pam_replies_spec client msg) as H.
  destruct (pam_replies client msg) as [replies|];
    [split; [reflexivity | exact H] | now right].
Qed.
